(** * LibriSpeech corpus indexing: a shallow embedding of
      [SimUGANSpeech/scripts/librispeech_initialize.py]

    The script walks a LibriSpeech folder, groups the [*.trans.txt] files by
    the basename of the leaf directory that holds them, parses every
    transcript line into a transcription and a [.flac] path, and pickles the
    three parallel lists next to the data.  It also downloads and unpacks the
    archives that are missing, and can delete the pickles again.

    Python values are modelled as follows.
    - [str] is a list of Unicode code points, [bytes] a list of byte values,
      both as [list N];
    - an exception is a constructor of [exn], and a call that may raise
      returns a [result];
    - the file system is a tree of named entries whose order is the order in
      which the operating system lists a directory; a path is a string that
      [canon] resolves against the tree, component by component;
    - a [dict] is an association list in insertion order (Python 3.7+);
    - the code that changes the file system or prints threads a [world]
      through the monad [M]; the world keeps the files and a trace of what
      was printed and of the downloads and extractions that were started.
    Paths follow [posixpath].  Symbolic links, permissions and other
    processes that change the tree meanwhile are outside the model.  The
    network, the tar format and [pickle] are parameters of the functions
    that use them. *)

From Stdlib Require Import List NArith Bool String Ascii Lia Arith.
Import ListNotations.

Set Implicit Arguments.

(* ================================================================== *)
(** ** Python strings and bytes *)

Module Py.

Definition pystr := list N.
Definition bytes := list N.

(** A literal of the source, as code points. *)
Definition py (s : string) : pystr := map N_of_ascii (list_ascii_of_string s).
Arguments py s%_string.

(** [a == b] *)
Fixpoint str_eqb (a b : pystr) : bool :=
  match a, b with
  | [], [] => true
  | x :: a', y :: b' => (x =? y)%N && str_eqb a' b'
  | _, _ => false
  end.

Fixpoint startswith (s prefix : pystr) {struct prefix} : bool :=
  match prefix, s with
  | [], _ => true
  | p :: prefix', c :: s' => (c =? p)%N && startswith s' prefix'
  | _ :: _, [] => false
  end.

Definition endswith (s suffix : pystr) : bool :=
  startswith (rev s) (rev suffix).

(** [str.isspace] on one code point (CPython's [_PyUnicode_IsWhitespace]). *)
Definition isspace (c : N) : bool :=
  ((9 <=? c) && (c <=? 13) || (28 <=? c) && (c <=? 32)
   || (c =? 133) || (c =? 160) || (c =? 5760)
   || (8192 <=? c) && (c <=? 8202)
   || (c =? 8232) || (c =? 8233) || (c =? 8239) || (c =? 8287)
   || (c =? 12288))%N.

Fixpoint lstrip (s : pystr) : pystr :=
  match s with
  | c :: s' => if isspace c then lstrip s' else s
  | [] => []
  end.

Definition rstrip (s : pystr) : pystr := rev (lstrip (rev s)).

(** [s.strip()] *)
Definition strip (s : pystr) : pystr := rstrip (lstrip s).

(** Splitting at every occurrence of one character: [re.split(' ', s)] for
    [sep = 32], and the component list of a path for [sep = 47].  The result
    is never empty: [split_char sep [] = [[]]]. *)
Fixpoint split_char (sep : N) (s : pystr) : list pystr :=
  match s with
  | [] => [[]]
  | c :: s' =>
      if (c =? sep)%N then [] :: split_char sep s'
      else match split_char sep s' with
           | w :: ws => (c :: w) :: ws
           | [] => [[c]]
           end
  end.

Definition SPACE : N := 32.

Definition re_split_space (line : pystr) : list pystr := split_char SPACE line.

(** [sep.join(xs)] *)
Fixpoint str_join (sep : pystr) (xs : list pystr) : pystr :=
  match xs with
  | [] => []
  | x :: xs' =>
      match xs' with
      | [] => x
      | _ :: _ => x ++ sep ++ str_join sep xs'
      end
  end.

(** [f.readlines()] on a file opened in binary mode: the content is cut
    after every byte 10, which stays at the end of its line. *)
Fixpoint readlines (bs : bytes) : list bytes :=
  match bs with
  | [] => []
  | b :: bs' =>
      if (b =? 10)%N then [b] :: readlines bs'
      else match readlines bs' with
           | l :: ls => (b :: l) :: ls
           | [] => [[b]]
           end
  end.

Definition cont (b : N) : bool := ((128 <=? b) && (b <=? 191))%N.

(** [b.decode('utf8')], strict: [None] stands for [UnicodeDecodeError].
    Overlong forms, surrogates and code points above U+10FFFF are refused. *)
Fixpoint utf8_decode (bs : bytes) : option pystr :=
  match bs with
  | [] => Some []
  | b0 :: r0 =>
      if (b0 <? 128)%N then option_map (cons b0) (utf8_decode r0)
      else if ((194 <=? b0) && (b0 <=? 223))%N then
        match r0 with
        | b1 :: r1 =>
            if cont b1
            then option_map (cons ((b0 - 192) * 64 + (b1 - 128))%N)
                            (utf8_decode r1)
            else None
        | _ => None
        end
      else if ((224 <=? b0) && (b0 <=? 239))%N then
        match r0 with
        | b1 :: b2 :: r2 =>
            let c := ((b0 - 224) * 4096 + (b1 - 128) * 64 + (b2 - 128))%N in
            if cont b1 && cont b2 && (2048 <=? c)%N
               && negb ((55296 <=? c) && (c <=? 57343))%N
            then option_map (cons c) (utf8_decode r2)
            else None
        | _ => None
        end
      else if ((240 <=? b0) && (b0 <=? 244))%N then
        match r0 with
        | b1 :: b2 :: b3 :: r3 =>
            let c := ((b0 - 240) * 262144 + (b1 - 128) * 4096
                      + (b2 - 128) * 64 + (b3 - 128))%N in
            if cont b1 && cont b2 && cont b3
               && (65536 <=? c)%N && (c <=? 1114111)%N
            then option_map (cons c) (utf8_decode r3)
            else None
        | _ => None
        end
      else None
  end.

End Py.
Import Py.

(* ================================================================== *)
(** ** Exceptions and results *)

Inductive exn : Type :=
| IndexError
| KeyError
| UnicodeDecodeError
| FileNotFoundError
| NotADirectoryError
| IsADirectoryError
| FileExistsError
| URLError
| ReadError
| ValueError (msg : pystr).

Inductive result (A : Type) : Type :=
| Ok (a : A)
| Raise (e : exn).
Arguments Raise {A} e.

Definition rbind {A B} (r : result A) (k : A -> result B) : result B :=
  match r with
  | Ok a => k a
  | Raise e => Raise e
  end.

Declare Scope result_scope.
Delimit Scope result_scope with result.
Notation "x <- e ;; k" := (rbind e (fun x => k))
  (at level 61, e at next level, right associativity) : result_scope.
Notation "' pat <- e ;; k" := (rbind e (fun x => match x with pat => k end))
  (at level 61, pat pattern, e at next level, right associativity)
  : result_scope.

(** [for x in xs: st = body(x, st)], stopping at the first exception. *)
Fixpoint for_each {A S} (xs : list A) (body : A -> S -> result S) (st : S)
  : result S :=
  match xs with
  | [] => Ok st
  | x :: xs' => rbind (body x st) (for_each xs' body)
  end.

(** A list comprehension whose element expression may raise. *)
Fixpoint map_result {A B} (f : A -> result B) (xs : list A)
  : result (list B) :=
  match xs with
  | [] => Ok []
  | x :: xs' =>
      rbind (f x) (fun y => rbind (map_result f xs') (fun ys => Ok (y :: ys)))
  end.

(* ================================================================== *)
(** ** [os.path] (posixpath) *)

Module PosixPath.

Definition SLASH : N := 47.

(** [os.path.join(a, b)] *)
Definition join (a b : pystr) : pystr :=
  if startswith b [SLASH] then b
  else match a with
       | [] => b
       | _ :: _ => if endswith a [SLASH] then a ++ b else a ++ SLASH :: b
       end.

(** [head] and [tail] of [p] around its last slash: [p[:i]] and [p[i:]] for
    [i = p.rfind('/') + 1]. *)
Fixpoint cut_last_slash (p : pystr) : pystr * pystr :=
  match p with
  | [] => ([], [])
  | c :: p' =>
      let '(h, t) := cut_last_slash p' in
      if existsb (N.eqb SLASH) p' then (c :: h, t)
      else if (c =? SLASH)%N then ([c], p')
      else ([], c :: p')
  end.

Fixpoint rstrip_slash_rev (r : pystr) : pystr :=
  match r with
  | c :: r' => if (c =? SLASH)%N then rstrip_slash_rev r' else r
  | [] => []
  end.

(** [os.path.dirname(p)]: the head, without its trailing slashes unless it
    consists of slashes only. *)
Definition dirname (p : pystr) : pystr :=
  let head := fst (cut_last_slash p) in
  if forallb (N.eqb SLASH) head then head
  else rev (rstrip_slash_rev (rev head)).

(** [os.path.basename(p)] *)
Definition basename (p : pystr) : pystr := snd (cut_last_slash p).

End PosixPath.
Import PosixPath.

(* ================================================================== *)
(** ** The file system *)

Module FS.

(** A directory lists its entries in the order [os.scandir] yields them. *)
#[local] Unset Elimination Schemes.
Inductive node : Type :=
| File (data : bytes)
| Dir (entries : list (pystr * node)).
#[local] Set Elimination Schemes.

Record filesystem : Type := mkFS {
  root : node;               (* the tree under "/" *)
  cwd : list pystr           (* the working directory, as components *)
}.

Definition is_dir (n : node) : bool :=
  match n with Dir _ => true | File _ => false end.

Fixpoint find_entry (name : pystr) (es : list (pystr * node)) : option node :=
  match es with
  | [] => None
  | (k, n) :: es' => if str_eqb k name then Some n else find_entry name es'
  end.

(** The node reached from [n] along the components [p]. *)
Fixpoint lookup (n : node) (p : list pystr) : option node :=
  match p with
  | [] => Some n
  | c :: p' =>
      match n with
      | Dir es =>
          match find_entry c es with
          | Some child => lookup child p'
          | None => None
          end
      | File _ => None
      end
  end.

Definition is_dir_at (r : node) (cp : list pystr) : bool :=
  match lookup r cp with
  | Some (Dir _) => true
  | _ => false
  end.

(** One component of path resolution.  Every component is looked up in a
    directory, so the place reached so far must be one; an empty component
    and "." stay, ".." goes up, a name goes down (the entry itself may be
    missing: the next component, or the caller, finds out). *)
Definition resolve_step (r : node) (acc : option (list pystr)) (c : pystr)
  : option (list pystr) :=
  match acc with
  | None => None
  | Some cur =>
      if is_dir_at r cur then
        if str_eqb c [] || str_eqb c (py ".") then Some cur
        else if str_eqb c (py "..") then Some (removelast cur)
        else Some (cur ++ [c])
      else None
  end.

(** The canonical components a path denotes, when all the directories on
    the way exist.  The empty path denotes nothing. *)
Definition canon (fs : filesystem) (p : pystr) : option (list pystr) :=
  match p with
  | [] => None
  | _ :: _ =>
      fold_left (resolve_step (root fs)) (split_char SLASH p)
                (Some (if startswith p [SLASH] then [] else cwd fs))
  end.

Definition stat (fs : filesystem) (p : pystr) : option node :=
  match canon fs p with
  | Some cp => lookup (root fs) cp
  | None => None
  end.

(** [os.path.exists(p)] *)
Definition exists_ (fs : filesystem) (p : pystr) : bool :=
  match stat fs p with Some _ => true | None => false end.

(** The error of a path that names nothing.  The components are looked up
    one after the other, as in [resolve_step]: the first place on the way
    that is no directory decides, a regular file there is
    [NotADirectoryError], nothing there is [FileNotFoundError]; when every
    place on the way is a directory, the last name is the one that is
    missing. *)
Fixpoint lookup_error (r : node) (cur : list pystr) (cs : list pystr) : exn :=
  match cs with
  | [] => FileNotFoundError
  | c :: cs' =>
      match lookup r cur with
      | Some (Dir _) =>
          lookup_error r
                       (if str_eqb c [] || str_eqb c (py ".") then cur
                        else if str_eqb c (py "..") then removelast cur
                        else cur ++ [c])
                       cs'
      | Some (File _) => NotADirectoryError
      | None => FileNotFoundError
      end
  end.

Definition absent (fs : filesystem) (p : pystr) : exn :=
  match p with
  | [] => FileNotFoundError
  | _ :: _ =>
      lookup_error (root fs) (if startswith p [SLASH] then [] else cwd fs)
                   (split_char SLASH p)
  end.

(** [open(p, 'rb').read()] *)
Definition read_file (fs : filesystem) (p : pystr) : result bytes :=
  match stat fs p with
  | Some (File data) => Ok data
  | Some (Dir _) => Raise IsADirectoryError
  | None => Raise (absent fs p)
  end.

Definition entry_names (es : list (pystr * node)) : list pystr := map fst es.

(** [os.listdir(p)] *)
Definition listdir (fs : filesystem) (p : pystr) : result (list pystr) :=
  match stat fs p with
  | Some (Dir es) => Ok (entry_names es)
  | Some (File _) => Raise NotADirectoryError
  | None => Raise (absent fs p)
  end.

Definition dirnames (es : list (pystr * node)) : list pystr :=
  entry_names (filter (fun e => is_dir (snd e)) es).

Definition filenames (es : list (pystr * node)) : list pystr :=
  entry_names (filter (fun e => negb (is_dir (snd e))) es).

(** [os.walk] below a directory whose path is [top]: the directory itself
    first, as [(dirpath, dirnames, filenames)], then its subdirectories in
    listing order, each under the path [os.path.join(top, name)]. *)
Fixpoint walk (top : pystr) (n : node) {struct n}
  : list (pystr * list pystr * list pystr) :=
  match n with
  | File _ => []
  | Dir es =>
      (top, dirnames es, filenames es)
      :: flat_map (fun e => walk (join top (fst e)) (snd e)) es
  end.

(** [os.walk(top)]; a [top] that is not a directory yields nothing. *)
Definition os_walk (fs : filesystem) (top : pystr)
  : list (pystr * list pystr * list pystr) :=
  match stat fs top with
  | Some (Dir es) => walk top (Dir es)
  | _ => []
  end.

(** *** Changing the tree *)

(** The listing without the entry [name]. *)
Definition remove_entry (name : pystr) (es : list (pystr * node))
  : list (pystr * node) :=
  filter (fun e => negb (str_eqb (fst e) name)) es.

(** Replace the entry [name], or add it at the end of the listing. *)
Fixpoint set_entry (name : pystr) (new : node) (es : list (pystr * node))
  : list (pystr * node) :=
  match es with
  | [] => [(name, new)]
  | (k, n) :: es' =>
      if str_eqb k name then (k, new) :: es'
      else (k, n) :: set_entry name new es'
  end.

(** Apply [f] to the entries of the directory at [p]; elsewhere, and when
    [p] is no directory, the tree stays as it is. *)
Fixpoint update_dir (f : list (pystr * node) -> list (pystr * node))
         (p : list pystr) (n : node) : node :=
  match n with
  | File _ => n
  | Dir es =>
      match p with
      | [] => Dir (f es)
      | c :: p' =>
          match find_entry c es with
          | Some child => Dir (set_entry c (update_dir f p' child) es)
          | None => n
          end
      end
  end.

Definition with_root (fs : filesystem) (r : node) : filesystem :=
  mkFS r (cwd fs).

Definition parent (cp : list pystr) : list pystr := removelast cp.
Definition leaf_name (cp : list pystr) : pystr := last cp [].

(** [os.remove(p)] *)
Definition remove (fs : filesystem) (p : pystr) : result filesystem :=
  match canon fs p with
  | None => Raise (absent fs p)
  | Some cp =>
      match lookup (root fs) cp with
      | None => Raise FileNotFoundError
      | Some (Dir _) => Raise IsADirectoryError
      | Some (File _) =>
          Ok (with_root fs
                (update_dir (remove_entry (leaf_name cp)) (parent cp)
                            (root fs)))
      end
  end.

(** [open(p, 'wb')] followed by writing [data] and closing. *)
Definition write_file (fs : filesystem) (p : pystr) (data : bytes)
  : result filesystem :=
  match canon fs p with
  | None => Raise (absent fs p)
  | Some cp =>
      match lookup (root fs) cp with
      | Some (Dir _) => Raise IsADirectoryError
      | _ =>
          if is_dir_at (root fs) (parent cp) then
            Ok (with_root fs
                  (update_dir (set_entry (leaf_name cp) (File data))
                              (parent cp) (root fs)))
          else Raise NotADirectoryError
      end
  end.

End FS.
Import FS.

(* ================================================================== *)
(** ** Dictionaries in insertion order *)

Module Dict.

Definition t (V : Type) : Type := list (pystr * V).

Definition keys {V} (d : t V) : list pystr := map fst d.

(** [d.get(k)]; [d[k]] raises [KeyError] where this is [None]. *)
Fixpoint get {V} (k : pystr) (d : t V) : option V :=
  match d with
  | [] => None
  | (k', v) :: d' => if str_eqb k' k then Some v else get k d'
  end.

(** [k in d] *)
Definition mem {V} (k : pystr) (d : t V) : bool :=
  match get k d with Some _ => true | None => false end.

(** [d[k] = v]: a key that is present keeps its place, a new one goes last. *)
Fixpoint set {V} (k : pystr) (v : V) (d : t V) : t V :=
  match d with
  | [] => [(k, v)]
  | (k', v') :: d' =>
      if str_eqb k' k then (k', v) :: d' else (k', v') :: set k v d'
  end.

End Dict.

(* ================================================================== *)
(** ** The indexing functions of the script *)

Open Scope result_scope.

(** The body of the loop over [os.walk(folder_path)]. *)
Definition walk_body (entry : pystr * list pystr * list pystr)
           (voice_txt_dict : Dict.t (list pystr))
  : result (Dict.t (list pystr)) :=
  let '(dir_name, sub_directories, file_names) := entry in
  if (List.length sub_directories =? 0)%nat then
    let file_names := map (fun x => join dir_name x) file_names in
    match filter (fun x => endswith x (py "txt")) file_names with
    | [] => Raise IndexError
    | txt_file :: _ =>
        let voice_id := basename dir_name in
        if negb (Dict.mem voice_id voice_txt_dict)
        then Ok (Dict.set voice_id [txt_file] voice_txt_dict)
        else
          match Dict.get voice_id voice_txt_dict with
          | Some files =>
              Ok (Dict.set voice_id (files ++ [txt_file]) voice_txt_dict)
          | None => Raise KeyError
          end
    end
  else Ok voice_txt_dict.

Definition _voice_txt_dict_from_path (fs : filesystem) (folder_path : pystr)
  : result (Dict.t (list pystr)) :=
  for_each (os_walk fs folder_path) walk_body [].

(** [lines = [x.decode('utf8').strip() for x in f.readlines()]] *)
Definition decode_strip (x : bytes) : result pystr :=
  match utf8_decode x with
  | Some s => Ok (strip s)
  | None => Raise UnicodeDecodeError
  end.

(** The body of the loop over the lines of a transcript. *)
Definition line_body (parent_dir_path : pystr) (line : pystr)
           (acc : list pystr * list pystr)
  : result (list pystr * list pystr) :=
  let '(transcriptions, flac_files) := acc in
  let splitted := re_split_space line in
  match splitted with
  | [] => Raise IndexError
  | file_name :: rest =>
      Ok (transcriptions ++ [str_join (py " ") rest],
          flac_files ++ [join parent_dir_path (file_name ++ py ".flac")])
  end.

Definition _transcriptions_and_flac (fs : filesystem) (txt_file_path : pystr)
  : result (list pystr * list pystr) :=
  let parent_dir_path := dirname txt_file_path in
  content <- read_file fs txt_file_path ;;
  lines <- map_result decode_strip (readlines content) ;;
  for_each lines (line_body parent_dir_path) ([], []).

(** The dictionary the script pickles. *)
Record CorpusIndex : Type := mkIndex {
  paths : list pystr;
  transcriptions : list pystr;
  ids : list pystr
}.

Definition build_acc : Type := (list pystr * list pystr * list pystr)%type.

Definition txt_file_body (fs : filesystem) (voice_id txt_file : pystr)
           (acc : build_acc) : result build_acc :=
  let '(flac_files, transcriptions, ids) := acc in
  '(t, flacs) <- _transcriptions_and_flac fs txt_file ;;
  Ok (flac_files ++ flacs, transcriptions ++ t,
      ids ++ repeat voice_id (List.length flacs)).

Definition voice_id_body (fs : filesystem)
           (voice_txt_dict : Dict.t (list pystr)) (voice_id : pystr)
           (acc : build_acc) : result build_acc :=
  match Dict.get voice_id voice_txt_dict with
  | None => Raise KeyError
  | Some txt_files => for_each txt_files (txt_file_body fs voice_id) acc
  end.

Definition flacpath_transcription_id (fs : filesystem) (folder_path : pystr)
  : result CorpusIndex :=
  voice_txt_dict <- _voice_txt_dict_from_path fs folder_path ;;
  '(flac_files, transcriptions, ids) <-
     for_each (Dict.keys voice_txt_dict) (voice_id_body fs voice_txt_dict)
              ([], [], []) ;;
  Ok (mkIndex flac_files transcriptions ids).

(* ================================================================== *)
(** ** Creating directories and unpacking archives *)

Module FSWrite.

(** One component of [os.makedirs]: the state is the tree, the place reached
    and whether the last name had to be created. *)
Definition mkdir_step (acc : result (node * list pystr * bool)) (c : pystr)
  : result (node * list pystr * bool) :=
  '(r, cur, created) <- acc ;;
  match lookup r cur with
  | Some (Dir _) =>
      if str_eqb c [] || str_eqb c (py ".") then Ok (r, cur, created)
      else if str_eqb c (py "..") then Ok (r, removelast cur, false)
      else
        match lookup r (cur ++ [c]) with
        | Some _ => Ok (r, cur ++ [c], false)
        | None =>
            Ok (update_dir (set_entry c (Dir [])) cur r, cur ++ [c], true)
        end
  | Some (File _) => Raise NotADirectoryError
  | None => Raise FileNotFoundError
  end.

(** [os.makedirs(p, exist_ok=exist_ok)]: the missing directories along [p]
    are created; a path that was there already is an error unless
    [exist_ok] holds and it is a directory. *)
Definition makedirs (exist_ok : bool) (fs : filesystem) (p : pystr)
  : result filesystem :=
  match p with
  | [] => Raise FileNotFoundError
  | _ :: _ =>
      '(r, cur, created) <-
         fold_left mkdir_step (split_char SLASH p)
                   (Ok (root fs, (if startswith p [SLASH] then [] else cwd fs),
                        false)) ;;
      if created || (exist_ok && is_dir_at r cur)
      then Ok (with_root fs r)
      else Raise FileExistsError
  end.

(** One member of an archive: its name and, for a regular file, its
    content; [None] is a directory. *)
Definition member : Type := (pystr * option bytes)%type.

(** [TarFile.extract] of one member below [dest]: the directories above the
    target are created when they are missing, then the member itself. *)
Definition extract_member (dest : pystr) (m : member) (fs : filesystem)
  : result filesystem :=
  let targetpath := join dest (fst m) in
  let upperdirs := dirname targetpath in
  fs1 <- (if negb (str_eqb upperdirs []) && negb (exists_ fs upperdirs)
          then makedirs false fs upperdirs else Ok fs) ;;
  match snd m with
  | Some data => write_file fs1 targetpath data
  | None => makedirs true fs1 targetpath
  end.

End FSWrite.
Import FSWrite.

(* ================================================================== *)
(** ** The world: files and what the script did and printed *)

Inductive event : Type :=
| Print (line : pystr)
| Download (url filename : pystr)
| Extract (tar_file_path dest : pystr).

Record world : Type := mkWorld {
  files : filesystem;
  trace : list event
}.

(** A computation returns or raises, and leaves the world as it was at
    that point. *)
Definition M (A : Type) : Type := world -> result A * world.

Definition ret {A} (a : A) : M A := fun w => (Ok a, w).

Definition raise {A} (e : exn) : M A := fun w => (Raise e, w).

Definition bind {A B} (m : M A) (k : A -> M B) : M B :=
  fun w =>
    match m w with
    | (Ok a, w') => k a w'
    | (Raise e, w') => (Raise e, w')
    end.

Declare Scope world_scope.
Delimit Scope world_scope with world.
Notation "x <- e ;; k" := (bind e (fun x => k))
  (at level 61, e at next level, right associativity) : world_scope.
Notation "e ;;; k" := (bind e (fun _ => k))
  (at level 61, right associativity) : world_scope.

(** Reading the file system. *)
Definition ask {A} (f : filesystem -> A) : M A := fun w => (Ok (f (files w)), w).

Definition try_read {A} (f : filesystem -> result A) : M A :=
  fun w => (f (files w), w).

(** A system call that changes the file system, or fails and changes
    nothing. *)
Definition syscall (f : filesystem -> result filesystem) : M unit :=
  fun w =>
    match f (files w) with
    | Ok fs' => (Ok tt, mkWorld fs' (trace w))
    | Raise e => (Raise e, w)
    end.

Definition emit (e : event) : M unit :=
  fun w => (Ok tt, mkWorld (files w) (trace w ++ [e])).

Definition print (line : pystr) : M unit := emit (Print line).

Definition when (b : bool) (m : M unit) : M unit :=
  if b then m else ret tt.

(** [for x in xs: body(x)] *)
Fixpoint for_ {A} (xs : list A) (body : A -> M unit) : M unit :=
  match xs with
  | [] => ret tt
  | x :: xs' => bind (body x) (fun _ => for_ xs' body)
  end.

(* ================================================================== *)
(** ** Downloading, saving and cleaning *)

Open Scope world_scope.

Definition LIBRISPEECH_URL_BASE (name : pystr) : pystr :=
  py "http://www.openslr.org/resources/12/" ++ name.

Section Script.

(** What lies outside the program: the server behind a URL ([None] when the
    URL cannot be opened), the members of a [.tar.gz] file ([None] when it
    cannot be read as one), and the bytes [pickle] produces for an index. *)
Variable http_get : pystr -> option bytes.
Variable untar : bytes -> option (list member).
Variable pickle_dumps : CorpusIndex -> bytes.

(** [urllib.request.urlretrieve(url, filename)], with two ends: the URL
    cannot be opened ([http_get] gives [None]; [URLError] is raised before
    the target is opened, so nothing is written), or the whole reply is
    written to the target.  A reply that is cut short is not modelled, nor
    are the calls of a report hook: for the verbose branch of
    [_maybe_download_and_extract], which passes [_print_download_progress],
    the model describes the runs in which every call of the hook returns,
    and does not record what the hook writes. *)
Definition urlretrieve (url filename : pystr) : M unit :=
  emit (Download url filename) ;;;
  match http_get url with
  | None => raise URLError
  | Some data => syscall (fun fs => write_file fs filename data)
  end.

(** [tarfile.open(name=tar_file_path, mode="r:gz").extractall(dest)] *)
Definition extractall (tar_file_path dest : pystr) : M unit :=
  emit (Extract tar_file_path dest) ;;;
  content <- try_read (fun fs => read_file fs tar_file_path) ;;
  match untar content with
  | None => raise ReadError
  | Some members =>
      for_ members (fun m => syscall (extract_member dest m))
  end.

Definition _maybe_download_and_extract
           (folder_dir : pystr) (folder_names : list pystr) (verbose : bool)
  : M unit :=
  dir_exists <- ask (fun fs => exists_ fs folder_dir) ;;
  when (negb dir_exists)
       (when verbose (print (folder_dir ++ py " doesn't exist. Making now.")) ;;;
        syscall (fun fs => makedirs false fs folder_dir)) ;;;
  for_ folder_names (fun fname =>
    found <- ask (fun fs => exists_ fs (join folder_dir fname)) ;;
    if negb found then
      let tar_file_name := fname ++ py ".tar.gz" in
      let tar_file_path := join folder_dir tar_file_name in
      let url := LIBRISPEECH_URL_BASE tar_file_name in
      when verbose
           (print (fname ++ py " not found. Downloading " ++ tar_file_name)) ;;;
      (if verbose then
         print url ;;;
         urlretrieve url tar_file_path ;;;
         print [] ;;;
         print (py "Download complete. Extracting " ++ tar_file_path)
       else
         urlretrieve url tar_file_path) ;;;
      extractall tar_file_path (join folder_dir (py ".."))
    else
      when verbose (print (fname ++ py " found. Skipping download..."))).

(** The body of the loop of [librispeech_initialize]. *)
Definition initialize_body (folder_dir : pystr) (verbose : bool)
           (fname : pystr) : M unit :=
  when verbose (print (py "Processing " ++ fname)) ;;;
  let fpath := join folder_dir fname in
  let master_file_path := join fpath (py "master.pkl") in
  found <- ask (fun fs => exists_ fs fpath) ;;
  if negb found then
    raise (ValueError
             (fpath
              ++ py " does not exist. Make sure you download the data first."))
  else
    data <- try_read (fun fs => flacpath_transcription_id fs fpath) ;;
    syscall (fun fs => write_file fs master_file_path (pickle_dumps data)).

Definition librispeech_initialize
           (folder_dir : pystr) (folder_names : list pystr)
           (save_folder : pystr) (verbose : bool)
  : M unit :=
  for_ folder_names (initialize_body folder_dir verbose).

(** The body of the loop over the folders in the [--clean] part of the
    main block. *)
Definition clean_body (save_dir : pystr) (verbose : bool) (fname : pystr)
  : M unit :=
  let fpath := join save_dir fname in
  found <- ask (fun fs => exists_ fs fpath) ;;
  if found then
    names <- try_read (fun fs => listdir fs fpath) ;;
    let pkl_files :=
      map (fun f => join (join save_dir fname) f)
          (filter (fun f => endswith f (py ".pkl")) names) in
    for_ pkl_files (fun f =>
      when verbose (print f) ;;;
      syscall (fun fs => remove fs f))
  else ret tt.

(** The [--clean] part of the main block: every [.pkl] file directly in a
    selected folder is removed. *)
Definition clean (save_dir : pystr) (folder_names : list pystr)
           (verbose : bool) : M unit :=
  when verbose
       (print (py "Cleaning the directory...") ;;;
        print (py "Files being deleted:")) ;;;
  for_ folder_names (clean_body save_dir verbose) ;;;
  when verbose (print (py "Completed cleaning process.")).

(** The main block once the arguments are parsed: [folder_names] are the
    selected folders, [LIBRISPEECH_DIR] is the constant of
    [SimUGANSpeech/definitions.py]. *)
Definition main (LIBRISPEECH_DIR : pystr) (folder_names : list pystr)
           (args_clean args_verbose : bool) : M unit :=
  let folder_dir := LIBRISPEECH_DIR in
  when args_verbose
       (print (py "Processing: ") ;;;
        for_ folder_names (fun fname => print (py "- " ++ fname))) ;;;
  let save_dir := LIBRISPEECH_DIR in
  when args_clean (clean save_dir folder_names args_verbose) ;;;
  when args_verbose
       (print (py "-----------------------------------") ;;;
        print (py "Downloading/extracting if necessary")) ;;;
  _maybe_download_and_extract folder_dir folder_names args_verbose ;;;
  when args_verbose
       (print (py "-----------------------------------") ;;;
        print (py "Beginning initialization")) ;;;
  librispeech_initialize folder_dir folder_names save_dir args_verbose.

End Script.

Close Scope world_scope.

(* ================================================================== *)
(** ** What one transcript line contributes *)

(** The two values [line_body] appends for a line, read off its body. *)
Definition transcription_of (line : pystr) : pystr :=
  str_join (py " ") (tl (re_split_space line)).

Definition flac_of (parent_dir_path line : pystr) : pystr :=
  join parent_dir_path (hd [] (re_split_space line) ++ py ".flac").

(* ================================================================== *)
(** ** What the walker does with one directory *)

(** One step of [os.walk]: the path of a directory, its subdirectories and
    its files. *)
Definition visit : Type := (pystr * list pystr * list pystr)%type.

Definition visit_dir (v : visit) : pystr := fst (fst v).
Definition visit_subdirs (v : visit) : list pystr := snd (fst v).
Definition visit_files (v : visit) : list pystr := snd v.

(** A leaf: [len(sub_directories) == 0]. *)
Definition is_leaf (v : visit) : bool :=
  (List.length (visit_subdirs v) =? 0)%nat.

(** The leaves below [folder_path], in the order [os.walk] reaches them. *)
Definition leaves (fs : filesystem) (folder_path : pystr) : list visit :=
  filter is_leaf (os_walk fs folder_path).

(** The test of the walker on a joined path: [x.endswith('txt')]. *)
Definition ends_txt (x : pystr) : bool := endswith x (py "txt").

(** [list(filter(...))[0]], when there is one. *)
Definition select_txt (v : visit) : option pystr :=
  hd_error (filter ends_txt (map (fun x => join (visit_dir v) x)
                                 (visit_files v))).

Definition voice_id_of (v : visit) : pystr := basename (visit_dir v).

(** The list a key stands for, empty when the key is missing. *)
Definition values_of (k : pystr) (d : Dict.t (list pystr)) : list pystr :=
  match Dict.get k d with Some l => l | None => [] end.

(** The update of [voice_txt_dict] at the end of [walk_body]. *)
Definition voice_add (k v : pystr) (d : Dict.t (list pystr))
  : Dict.t (list pystr) :=
  if Dict.mem k d then Dict.set k (values_of k d ++ [v]) d
  else Dict.set k [v] d.

(** The body of the walker's loop at a leaf. *)
Definition leaf_body (v : visit) (d : Dict.t (list pystr))
  : result (Dict.t (list pystr)) :=
  match select_txt v with
  | None => Raise IndexError
  | Some txt_file => Ok (voice_add (voice_id_of v) txt_file d)
  end.

(** Adding pairs of a key and a file, one after the other. *)
Definition add_all (kvs : list (pystr * pystr)) (d : Dict.t (list pystr))
  : Dict.t (list pystr) :=
  fold_left (fun d kv => voice_add (fst kv) (snd kv) d) kvs d.

(** The files added under the key [k]. *)
Definition files_under (k : pystr) (kvs : list (pystr * pystr)) : list pystr :=
  map snd (filter (fun kv => str_eqb (fst kv) k) kvs).

(** The elements of [l] that are not in [seen], each at its first
    occurrence. *)
Fixpoint firsts (seen l : list pystr) : list pystr :=
  match l with
  | [] => []
  | x :: l' =>
      if existsb (str_eqb x) seen then firsts seen l'
      else x :: firsts (seen ++ [x]) l'
  end.

(** [a] stands before [b] in [l]. *)
Definition before {A} (a b : A) (l : list A) : Prop :=
  exists l1 l2 l3, l = l1 ++ a :: l2 ++ b :: l3.

(** The transcript files in the order the index builder reads them, each
    with its key. *)
Definition plan (d : Dict.t (list pystr)) : list (pystr * pystr) :=
  flat_map (fun kv => map (pair (fst kv)) (snd kv)) d.

(** What the parser returned for the files of one key, and the three lists
    of the index these results add up to. *)
Definition segment : Type := (list pystr * list pystr)%type.

Definition group_paths (segs : list segment) : list pystr :=
  List.concat (map snd segs).

Definition group_transcriptions (segs : list segment) : list pystr :=
  List.concat (map fst segs).

Definition flat_paths (groups : list (list segment)) : list pystr :=
  List.concat (map group_paths groups).

Definition flat_transcriptions (groups : list (list segment)) : list pystr :=
  List.concat (map group_transcriptions groups).

Definition flat_ids (keys : list pystr) (groups : list (list segment))
  : list pystr :=
  List.concat (map (fun kg => repeat (fst kg) (List.length (group_paths (snd kg))))
              (combine keys groups)).

(** Every file of [files] was parsed, with these results. *)
Definition parsed (fs : filesystem) (files : list pystr) (segs : list segment)
  : Prop :=
  Forall2 (fun f seg => _transcriptions_and_flac fs f = Ok seg) files segs.

(** The three lists the index builder carries along have one length. *)
Definition aligned (acc : build_acc) : Prop :=
  let '(flac_files, transcriptions, ids) := acc in
  List.length flac_files = List.length transcriptions
  /\ List.length transcriptions = List.length ids.

(* ================================================================== *)
(** ** Counting what a run fetched *)

Definition is_download (e : event) : bool :=
  match e with Download _ _ => true | _ => false end.

Definition is_extract (e : event) : bool :=
  match e with Extract _ _ => true | _ => false end.

Definition downloads (t : list event) : nat :=
  List.length (filter is_download t).

Definition extractions (t : list event) : nat :=
  List.length (filter is_extract t).

(** A computation that, when it returns, has started [nd] downloads and
    [ne] extractions. *)
Definition fetches {A} (m : M A) (nd ne : nat) : Prop :=
  forall w a w',
    m w = (Ok a, w') ->
    downloads (trace w') = downloads (trace w) + nd
    /\ extractions (trace w') = extractions (trace w) + ne.

(** A computation that leaves the files alone, whatever it returns. *)
Definition keeps_files {A} (m : M A) : Prop :=
  forall w r w', m w = (r, w') -> files w' = files w.

Definition is_print (e : event) : bool :=
  match e with Print _ => true | _ => false end.

(** What a run that fetches nothing adds to the trace: lines, and only
    when it is verbose. *)
Definition only_prints (verbose : bool) (t : list event) : Prop :=
  if verbose then Forall (fun e => is_print e = true) t else t = [].

(** A toy server and a toy archive format for the sample runs: one URL
    answers, with one byte, and that byte unpacks to a small corpus. *)
Definition sample_http_get (url : pystr) : option bytes :=
  if str_eqb url (py "http://www.openslr.org/resources/12/dev-clean.tar.gz")
  then Some [1%N] else None.

Definition sample_untar (b : bytes) : option (list member) :=
  if str_eqb b [1%N]
  then Some [(py "LibriSpeech/dev-clean/19/198/19-198.trans.txt",
              Some (py "19-198-0001 HI THERE" ++ [10%N]));
             (py "LibriSpeech/dev-clean/19/198/19-198-0001.flac", Some [])]
  else None.

Definition sample_pickle (index : CorpusIndex) : bytes :=
  List.concat (paths index) ++ List.concat (transcriptions index)
  ++ List.concat (ids index).

(** A machine on which [/data/LibriSpeech] is there and empty. *)
Definition fresh_world : world :=
  mkWorld (mkFS (Dir [(py "data", Dir [(py "LibriSpeech", Dir [])])]) []) [].

Definition sample_dir : pystr := py "/data/LibriSpeech".

(** A folder that holds two pickles next to its data, and a pickle deeper
    down. *)
Definition pickled_world : world :=
  mkWorld
    (mkFS
       (Dir
          [(py "data",
            Dir
              [(py "LibriSpeech",
                Dir
                  [(py "dev-clean",
                    Dir
                      [(py "master.pkl", File [1%N]);
                       (py "19",
                        Dir [(py "19.trans.txt", File []);
                             (py "deep.pkl", File [2%N])]);
                       (py "ids.pkl", File [3%N])])])])])
       [])
    [].


(* ================================================================== *)
(** ** What a path holds, seen from outside *)

(** A file with its content, or a directory (its listing left out). *)
Inductive kind : Type :=
| KFile (data : bytes)
| KDir.

Definition kind_of (n : node) : kind :=
  match n with File data => KFile data | Dir _ => KDir end.

Definition kind_at (r : node) (q : list pystr) : option kind :=
  option_map kind_of (lookup r q).

Definition not_dir (o : option node) : Prop :=
  match o with Some (Dir _) => False | _ => True end.

(** An edit of a listing that concerns the entry [name] only. *)
Definition local_edit (name : pystr)
           (f : list (pystr * node) -> list (pystr * node)) : Prop :=
  forall es m, m <> name -> find_entry m (f es) = find_entry m es.

(** The names a file system gives to entries: not empty, without a slash,
    and neither [.] nor [..]. *)
Definition valid_name (name : pystr) : bool :=
  negb (str_eqb name []) && negb (existsb (N.eqb SLASH) name)
  && negb (str_eqb name (py ".")) && negb (str_eqb name (py "..")).

Fixpoint wf_names (n : node) : bool :=
  match n with
  | File _ => true
  | Dir es => forallb (fun e => valid_name (fst e) && wf_names (snd e)) es
  end.

(** The paths [clean] may delete, on the files [fs0] it started from: a
    file whose name ends in [.pkl], directly in the directory of a selected
    folder. *)
Definition removable (fs0 : filesystem) (save_dir : pystr)
           (folder_names : list pystr) (q : list pystr) : Prop :=
  exists fname d name data,
    In fname folder_names
    /\ canon fs0 (join save_dir fname) = Some d
    /\ q = d ++ [name]
    /\ endswith name (py ".pkl") = true
    /\ lookup (root fs0) q = Some (File data).

(** The files [fs] differ from [fs0] by the deletion of such paths only. *)
Definition cleaned (fs0 : filesystem) (save_dir : pystr)
           (folder_names : list pystr) (fs : filesystem) : Prop :=
  cwd fs = cwd fs0
  /\ (forall q, is_dir_at (root fs) q = is_dir_at (root fs0) q)
  /\ (forall q, kind_at (root fs) q = kind_at (root fs0) q
                \/ (kind_at (root fs) q = None
                    /\ removable fs0 save_dir folder_names q)).

(** A computation that keeps a property of the files, whatever it
    returns. *)
Definition preserves {A} (P : filesystem -> Prop) (m : M A) : Prop :=
  forall w r w', P (files w) -> m w = (r, w') -> P (files w').

(** A line of a transcript that [decode('utf8')] accepts. *)
Definition decodable (raw : bytes) : Prop := utf8_decode raw <> None.

Definition decodableb (raw : bytes) : bool :=
  match utf8_decode raw with Some _ => true | None => false end.

(* ================================================================== *)
(** ** Sample trees *)

Module Sample.

Definition NL : N := 10.

(** A transcript with one utterance per line. *)
Definition hello_txt : bytes :=
  py "1234-0001 HELLO WORLD" ++ [NL] ++ py "1234-0002 GOOD MORNING" ++ [NL].

(** [/corpus/1234/1234.trans.txt] and its audio files. *)
Definition hello_fs : filesystem :=
  mkFS (Dir [(py "corpus",
              Dir [(py "1234",
                    Dir [(py "1234.trans.txt", File hello_txt);
                         (py "1234-0001.flac", File []);
                         (py "1234-0002.flac", File [])])])])
       [].

Definition hello_path : pystr := py "/corpus/1234/1234.trans.txt".

(** A transcript whose second line is empty. *)
Definition gap_txt : bytes :=
  py "5678-0001 FOO" ++ [NL] ++ [NL] ++ py "5678-0002 BAR BAZ".

Definition gap_fs : filesystem :=
  mkFS (Dir [(py "corpus",
              Dir [(py "5678", Dir [(py "5678.trans.txt", File gap_txt)])])])
       [].

Definition gap_path : pystr := py "/corpus/5678/5678.trans.txt".

(** A transcript whose only line consists of spaces. *)
Definition spaces_txt : bytes := py "   " ++ [NL].

Definition spaces_fs : filesystem :=
  mkFS (Dir [(py "corpus",
              Dir [(py "42", Dir [(py "42.trans.txt", File spaces_txt)])])])
       [].

Definition spaces_path : pystr := py "/corpus/42/42.trans.txt".

(** A corpus with two readers; the chapters [A] of both share a key. *)
Definition corpus : filesystem :=
  mkFS
    (Dir
       [(py "data",
         Dir
           [(py "dev-clean",
             Dir
               [(py "19",
                 Dir
                   [(py "A",
                     Dir [(py "19-A-0001.flac", File []);
                          (py "19-A.trans.txt",
                           File (py "19-A-0001 ONE" ++ [NL]
                                 ++ py "19-A-0002 TWO" ++ [NL]));
                          (py "19-A-0002.flac", File [])]);
                    (py "B",
                     Dir [(py "19-B.trans.txt",
                           File (py "19-B-0001 THREE" ++ [NL]))])]);
                (py "20",
                 Dir
                   [(py "A",
                     Dir [(py "20-A.trans.txt",
                           File (py "20-A-0001 FOUR" ++ [NL]))])])])])])
    [].

Definition corpus_root : pystr := py "/data/dev-clean".

(** A leaf whose only file ends in [txt] without a dot before it. *)
Definition dotless_fs : filesystem :=
  mkFS (Dir [(py "corpus", Dir [(py "7", Dir [(py "notes_txt", File [])])])])
       [].

(** A leaf with such a file listed before a real [.txt] file. *)
Definition two_fs : filesystem :=
  mkFS (Dir [(py "corpus",
              Dir [(py "7", Dir [(py "notes_txt", File []);
                                 (py "7.trans.txt", File [])])])])
       [].

(** A leaf with audio files only. *)
Definition audio_only_fs : filesystem :=
  mkFS (Dir [(py "corpus",
              Dir [(py "7", Dir [(py "7-0001.flac", File [])])])])
       [].

End Sample.

(* ================================================================== *)
(** ** Trees as a file system has them *)

(** No name occurs twice in [l]. *)
Fixpoint distinct (l : list pystr) : bool :=
  match l with
  | [] => true
  | x :: l' => negb (existsb (str_eqb x) l') && distinct l'
  end.

(** No directory of the tree lists a name twice. *)
Fixpoint unique_names (n : node) : bool :=
  match n with
  | File _ => true
  | Dir es =>
      distinct (entry_names es)
      && forallb (fun e => unique_names (snd e)) es
  end.

(** The trees a file system holds: every name is a valid one, and a
    directory lists a name once. *)
Definition well_formed (fs : filesystem) : bool :=
  wf_names (root fs) && unique_names (root fs).

(** The path [os.walk] gives to the directory reached from [top] along the
    names [rel]. *)
Definition walk_path (top : pystr) (rel : list pystr) : pystr :=
  fold_left join rel top.

(* ================================================================== *)
(** ** More sample trees *)

Module Cases.

(** A transcript whose second line is no UTF-8. *)
Definition latin1_txt : bytes :=
  py "9-0001 OK" ++ [10; 57; 45; 48; 48; 48; 50; 32; 233; 10]%N.

Definition latin1_fs : filesystem :=
  mkFS (Dir [(py "corpus",
              Dir [(py "9", Dir [(py "9.trans.txt", File latin1_txt)])])])
       [].

Definition latin1_path : pystr := py "/corpus/9/9.trans.txt".

(** A leaf whose audio file holds a line that starts with [a/b]. *)
Definition audio_fs : filesystem :=
  mkFS (Dir [(py "corpus",
              Dir [(py "7",
                    Dir [(py "7.trans.txt", File (py "7-0001 HELLO" ++ [10%N]));
                         (py "7-0001.flac", File (py "a/b c" ++ [10%N]))])])])
       [].

End Cases.

(* ================================================================== *)
(** ** What a new file changes for the walk *)

(** Two steps of a walk that differ at most by the file [name], which the
    second lists last. *)
Definition visit_sim (name : pystr) (v v' : visit) : Prop :=
  visit_dir v' = visit_dir v
  /\ visit_subdirs v' = visit_subdirs v
  /\ (visit_files v' = visit_files v
      \/ visit_files v' = visit_files v ++ [name]).

(** The walk below what a path holds, if anything. *)
Definition walk_from (top : pystr) (o : option node) : list visit :=
  match o with
  | Some n => walk top n
  | None => []
  end.

(* ================================================================== *)
(** ** Pickles that are up to date *)

(** The pickle of a folder is current when it holds the index of the
    folder as the files are. *)
Definition current (pickle_dumps : CorpusIndex -> bytes)
           (folder_dir fname : pystr) (fs : filesystem) : Prop :=
  exists index,
    flacpath_transcription_id fs (join folder_dir fname) = Ok index
    /\ read_file fs (join (join folder_dir fname) (py "master.pkl"))
       = Ok (pickle_dumps index).

(* ================================================================== *)
(** ** Computations that differ in what they print only *)



(* ================================================================== *)
(** ** Trees that only grow *)

(** Nothing was removed from [r] to [r']: what was a directory is one, and
    what was there is there. *)
Definition grows (r r' : node) : Prop :=
  forall q,
    (is_dir_at r q = true -> is_dir_at r' q = true)
    /\ (lookup r q <> None -> lookup r' q <> None).

(** The same, for the files of a world. *)
Definition fs_grows (fs fs' : filesystem) : Prop :=
  cwd fs' = cwd fs /\ grows (root fs) (root fs').

(** A computation that removes nothing, however it ends. *)
Definition only_grows {A} (m : M A) : Prop :=
  forall w r w', m w = (r, w') -> fs_grows (files w) (files w').

(* ================================================================== *)
(** ** The loop of [_maybe_download_and_extract] *)

Section DownloadBody.

Variable http_get : pystr -> option bytes.
Variable untar : bytes -> option (list member).

Open Scope world_scope.

(** The body of the loop over the folder names. *)
Definition download_body (folder_dir : pystr) (verbose : bool)
           (fname : pystr) : M unit :=
  found <- ask (fun fs => exists_ fs (join folder_dir fname)) ;;
  if negb found then
    let tar_file_name := fname ++ py ".tar.gz" in
    let tar_file_path := join folder_dir tar_file_name in
    let url := LIBRISPEECH_URL_BASE tar_file_name in
    when verbose
         (print (fname ++ py " not found. Downloading " ++ tar_file_name)) ;;;
    (if verbose then
       print url ;;;
       urlretrieve http_get url tar_file_path ;;;
       print [] ;;;
       print (py "Download complete. Extracting " ++ tar_file_path)
     else
       urlretrieve http_get url tar_file_path) ;;;
    extractall untar tar_file_path (join folder_dir (py ".."))
  else
    when verbose (print (fname ++ py " found. Skipping download...")).

Close Scope world_scope.

End DownloadBody.

(** A machine with an empty disk. *)
Definition empty_world : world := mkWorld (mkFS (Dir []) []) [].

(* ================================================================== *)
(** ** Computations that find nothing to do *)

(** On the files [fs], the computation returns, changes no file and starts
    no download and no extraction. *)
Definition idle_on (fs : filesystem) (m : M unit) : Prop :=
  forall w,
    files w = fs ->
    exists w',
      m w = (Ok tt, w')
      /\ files w' = fs
      /\ downloads (trace w') = downloads (trace w)
      /\ extractions (trace w') = extractions (trace w).

(* ================================================================== *)
(** ** Trees that only shrink *)

(** From [fs] to [fs'] files were removed at most: the directories are the
    same, and every path holds what it held or nothing. *)
Definition shrinks (fs fs' : filesystem) : Prop :=
  cwd fs' = cwd fs
  /\ (forall q, is_dir_at (root fs') q = is_dir_at (root fs) q)
  /\ (forall q, kind_at (root fs') q = kind_at (root fs) q
                \/ kind_at (root fs') q = None).


(* ================================================================== *)
(** ** The download progress callback *)

From Stdlib Require Import ZArith SpecFloat.

(** [_print_download_progress] is the report hook handed to
    [urlretrieve], which calls it with three ints: the number of blocks
    read so far, the block size and the total size ([-1] when the server
    gives none).  Python ints are unbounded ([Z]); Python floats are the
    IEEE 754 binary64 numbers, here [spec_float] at precision 53 with the
    operations of [SpecFloat]. *)
Module Progress.

Local Open Scope Z_scope.

Definition prec : Z := 53.
Definition emax : Z := 1024.

(** The two exceptions of float arithmetic. *)
Inductive error : Type :=
| OverflowError
| ZeroDivisionError.

Inductive outcome (A : Type) : Type :=
| Returns (a : A)
| Raises (e : error).

Arguments Returns {A} a.
Arguments Raises {A} e.

(** [float(n)] for an int [n], also the conversion of an int operand of a
    float operation: the nearest double, ties to even; "int too large to
    convert to float" beyond the doubles. *)
Definition float_of_int (n : Z) : outcome spec_float :=
  match binary_normalize prec emax n 0 false with
  | S754_infinity _ => Raises OverflowError
  | S754_nan => Raises OverflowError
  | x => Returns x
  end.

(** [x / n] for a float [x] and an int [n]: the int is converted first,
    then a zero divisor raises "float division by zero". *)
Definition truediv (x : spec_float) (n : Z) : outcome spec_float :=
  match float_of_int n with
  | Raises e => Raises e
  | Returns (S754_zero _) => Raises ZeroDivisionError
  | Returns y => Returns (SFdiv prec emax x y)
  end.

(** [str(n)] for an int [n >= 0]. *)
Fixpoint digits_of (u : Decimal.uint) : pystr :=
  match u with
  | Decimal.Nil => []
  | Decimal.D0 u => 48%N :: digits_of u
  | Decimal.D1 u => 49%N :: digits_of u
  | Decimal.D2 u => 50%N :: digits_of u
  | Decimal.D3 u => 51%N :: digits_of u
  | Decimal.D4 u => 52%N :: digits_of u
  | Decimal.D5 u => 53%N :: digits_of u
  | Decimal.D6 u => 54%N :: digits_of u
  | Decimal.D7 u => 55%N :: digits_of u
  | Decimal.D8 u => 56%N :: digits_of u
  | Decimal.D9 u => 57%N :: digits_of u
  end.

Definition str_of_int (n : Z) : pystr := digits_of (N.to_uint (Z.to_N n)).

(** The integer nearest to [num / den], for [den > 0]; a tie goes to the
    even one. *)
Definition round_half_even (num den : Z) : Z :=
  let (q, r) := Z.div_eucl num den in
  match 2 * r ?= den with
  | Lt => q
  | Gt => q + 1
  | Eq => if Z.even q then q else q + 1
  end.

(** The number of tenths in [m * 2 ^ e], correctly rounded. *)
Definition tenths (m : positive) (e : Z) : Z :=
  match e with
  | Zneg p => round_half_even (10 * Zpos m) (2 ^ Zpos p)
  | _ => 10 * Zpos m * 2 ^ e
  end.

Definition sign (s : bool) : pystr := if s then py "-" else [].

Definition hundred : spec_float :=
  Eval cbv in binary_normalize prec emax 100 0 false.

(** ["{0:.1%}".format(x)]: the float is multiplied by 100, written with
    one digit after the point and followed by a percent sign. *)
Definition format_percent (x : spec_float) : pystr :=
  match SFmul prec emax x hundred with
  | S754_nan => py "nan%"
  | S754_infinity s => sign s ++ py "inf%"
  | S754_zero s => sign s ++ py "0.0%"
  | S754_finite s m e =>
      let t := tenths m e in
      sign s ++ str_of_int (t / 10) ++ py "." ++ str_of_int (t mod 10)
           ++ py "%"
  end.

Definition CR : N := 13%N.

(** The callback, on the text written to [sys.stdout] so far. *)
Definition _print_download_progress (count block_size total_size : Z)
           (stdout : pystr) : outcome unit * pystr :=
  match float_of_int (count * block_size) with
  | Raises e => (Raises e, stdout)
  | Returns x =>
      match truediv x total_size with
      | Raises e => (Raises e, stdout)
      | Returns pct_complete =>
          let msg :=
            CR :: py "- Download progress: " ++ format_percent pct_complete in
          (Returns tt, stdout ++ msg)
      end
  end.

End Progress.

(* ================================================================== *)
(** ** The directories of [SimUGANSpeech/definitions.py] *)

(** Every constant of the module is built from the absolute path of the
    module's own file, [os.path.abspath(__file__)], here [file]. *)
Module Definitions.

Definition SRC_DIR (file : pystr) : pystr := dirname file.
Definition ROOT_DIR (file : pystr) : pystr := join (SRC_DIR file) (py "..").
Definition DATA_DIR (file : pystr) : pystr := join (ROOT_DIR file) (py "data").
Definition LIBRISPEECH_DIR (file : pystr) : pystr :=
  join (DATA_DIR file) (py "LibriSpeech").
Definition SYNTHETIC_DIR (file : pystr) : pystr :=
  join (DATA_DIR file) (py "synthetic_samples").
Definition TENSORFLOW_DIR (file : pystr) : pystr :=
  join (DATA_DIR file) (py "tensorflow_models").
Definition TF_LOGS_DIR (file : pystr) : pystr :=
  join (DATA_DIR file) (py "tensorflow_logs").
Definition KERAS_DIR (file : pystr) : pystr :=
  join (DATA_DIR file) (py "keras_models").

(** The five directories that hold data, with the names they are given. *)
Definition data_dirs (file : pystr) : list (pystr * pystr) :=
  [ (LIBRISPEECH_DIR file, py "LibriSpeech");
    (SYNTHETIC_DIR file, py "synthetic_samples");
    (TENSORFLOW_DIR file, py "tensorflow_models");
    (TF_LOGS_DIR file, py "tensorflow_logs");
    (KERAS_DIR file, py "keras_models") ].

End Definitions.

(** A checkout of the repository, with its data directory. *)
Module Layout.

Definition repo : filesystem :=
  mkFS (Dir [(py "repo",
              Dir [(py "src",
                    Dir [(py "SimUGANSpeech",
                          Dir [(py "definitions.py", File [])]);
                         (py "data", Dir [])])])])
       [].

Definition definitions_py : pystr :=
  py "/repo/src/SimUGANSpeech/definitions.py".

End Layout.
(* ================================================================== *)
(** * Properties *)

Unset Implicit Arguments.

(** ** The library functions on small inputs *)

Example dirname_of_file :
  dirname (py "/corpus/1234/1234.trans.txt") = py "/corpus/1234".
Proof. vm_compute. reflexivity. Qed.

Example dirname_keeps_root : dirname (py "/corpus") = py "/".
Proof. vm_compute. reflexivity. Qed.

Example basename_of_dir : basename (py "/data/dev-clean/19/198") = py "198".
Proof. vm_compute. reflexivity. Qed.

Example basename_after_slash : basename (py "/data/dev-clean/") = [].
Proof. vm_compute. reflexivity. Qed.

Example join_adds_slash : join (py "/a/b") (py "c.flac") = py "/a/b/c.flac".
Proof. vm_compute. reflexivity. Qed.

Example join_after_slash : join (py "/a/b/") (py "c") = py "/a/b/c".
Proof. vm_compute. reflexivity. Qed.

Example join_absolute : join (py "/a/b") (py "/c") = py "/c".
Proof. vm_compute. reflexivity. Qed.

Example split_two_spaces :
  re_split_space (py "a  b") = [py "a"; []; py "b"].
Proof. vm_compute. reflexivity. Qed.

Example split_empty : re_split_space [] = [[]].
Proof. reflexivity. Qed.

Example readlines_keeps_ends :
  readlines (py "ab" ++ [10; 10] ++ py "c")%N
  = [py "ab" ++ [10]; [10]; py "c"]%N.
Proof. vm_compute. reflexivity. Qed.

Example strip_both_sides : strip ([9; 32] ++ py "a b" ++ [32; 13; 10])%N
                           = py "a b".
Proof. vm_compute. reflexivity. Qed.

(** U+20AC, the euro sign, in three bytes. *)
Example decode_three_bytes : utf8_decode [226; 130; 172]%N = Some [8364%N].
Proof. vm_compute. reflexivity. Qed.

(** An overlong form and a surrogate are refused. *)
Example decode_refuses :
  utf8_decode [192; 128]%N = None /\ utf8_decode [237; 160; 128]%N = None.
Proof. split; vm_compute; reflexivity. Qed.

Example canon_goes_up :
  canon Sample.corpus (py "/data/dev-clean/19/../20/A/")
  = Some [py "data"; py "dev-clean"; py "20"; py "A"].
Proof. vm_compute. reflexivity. Qed.

Example canon_needs_directories :
  canon Sample.corpus (py "/data/nothing/..") = None.
Proof. vm_compute. reflexivity. Qed.

Example walk_corpus :
  map fst (map fst (os_walk Sample.corpus Sample.corpus_root))
  = [py "/data/dev-clean"; py "/data/dev-clean/19"; py "/data/dev-clean/19/A";
     py "/data/dev-clean/19/B"; py "/data/dev-clean/20";
     py "/data/dev-clean/20/A"].
Proof. vm_compute. reflexivity. Qed.

(** ** Strings *)

Lemma str_eqb_eq (a b : pystr) : str_eqb a b = true <-> a = b.
Proof.
  revert b. induction a as [|x a IH]; intros [|y b]; simpl;
    try (split; congruence).
  rewrite andb_true_iff, N.eqb_eq, IH. split.
  - now intros [-> ->].
  - intros H. injection H as -> ->. now split.
Qed.

Lemma str_eqb_refl (a : pystr) : str_eqb a a = true.
Proof. now apply str_eqb_eq. Qed.

Lemma str_eqb_neq (a b : pystr) : str_eqb a b = false <-> a <> b.
Proof.
  rewrite <- str_eqb_eq. destruct (str_eqb a b); split; congruence.
Qed.

Lemma str_eqb_sym (a b : pystr) : str_eqb a b = str_eqb b a.
Proof.
  destruct (str_eqb b a) eqn:H.
  - apply str_eqb_eq in H. subst. apply str_eqb_refl.
  - apply str_eqb_neq. apply str_eqb_neq in H. congruence.
Qed.

Lemma split_char_nonempty (sep : N) (s : pystr) : split_char sep s <> [].
Proof.
  destruct s as [|c s]; simpl; [discriminate|].
  destruct (c =? sep)%N; [discriminate|].
  destruct (split_char sep s); discriminate.
Qed.

Lemma split_char_app_sep (sep : N) (a b : pystr) :
  ~ In sep a -> split_char sep (a ++ sep :: b) = a :: split_char sep b.
Proof.
  induction a as [|c a IH]; intros Hnot; simpl.
  - now rewrite N.eqb_refl.
  - destruct (N.eqb_spec c sep) as [->|_].
    + exfalso. apply Hnot. now left.
    + rewrite IH; [reflexivity|]. intros Hin. apply Hnot. now right.
Qed.

Lemma str_join_split_char (sep : N) (s : pystr) :
  str_join [sep] (split_char sep s) = s.
Proof.
  induction s as [|c s IH]; simpl; [reflexivity|].
  pose proof (split_char_nonempty sep s) as Hne.
  destruct (N.eqb_spec c sep) as [->|_].
  - destruct (split_char sep s) as [|w ws]; [contradiction|].
    simpl in *. now rewrite IH.
  - destruct (split_char sep s) as [|w ws]; [contradiction|].
    simpl in *. destruct ws; simpl in *; now rewrite <- IH.
Qed.

(** A line [id text] with no space in [id] is cut into [id] and [text]. *)
Lemma transcription_of_id_text (id text : pystr) :
  ~ In SPACE id -> transcription_of (id ++ SPACE :: text) = text.
Proof.
  intros Hid. unfold transcription_of, re_split_space.
  rewrite split_char_app_sep by assumption. simpl.
  apply (str_join_split_char SPACE).
Qed.

Lemma flac_of_id_text (parent id text : pystr) :
  ~ In SPACE id ->
  flac_of parent (id ++ SPACE :: text) = join parent (id ++ py ".flac").
Proof.
  intros Hid. unfold flac_of, re_split_space.
  now rewrite split_char_app_sep by assumption.
Qed.

Lemma Forall_decodableb (l : list bytes) :
  forallb decodableb l = true -> Forall decodable l.
Proof.
  rewrite forallb_forall, Forall_forall. intros H raw Hin.
  specialize (H raw Hin). unfold decodableb, decodable in *.
  destruct (utf8_decode raw); congruence.
Qed.

Lemma not_In_existsb (c : N) (s : pystr) :
  existsb (N.eqb c) s = false -> ~ In c s.
Proof.
  intros H Hin. assert (existsb (N.eqb c) s = true); [|congruence].
  apply existsb_exists. exists c. split; [assumption|apply N.eqb_refl].
Qed.

(** ** Results and loops *)

Lemma map_result_Forall2 {A B} (f : A -> result B) (xs : list A) (ys : list B) :
  map_result f xs = Ok ys <-> Forall2 (fun x y => f x = Ok y) xs ys.
Proof.
  revert ys. induction xs as [|x xs IH]; intros ys; simpl.
  - split; intros H; [injection H as <-; constructor|now inversion H].
  - split.
    + destruct (f x) as [y|e] eqn:Hfx; simpl; [|discriminate].
      destruct (map_result f xs) as [ys'|e] eqn:Hm; simpl; [|discriminate].
      intros H. injection H as <-. constructor; [assumption|now apply IH].
    + intros H. inversion H as [|x' y xs' ys' Hxy Hrest]; subst.
      rewrite Hxy. simpl. apply IH in Hrest. now rewrite Hrest.
Qed.

Lemma map_result_total {A B} (f : A -> result B) (xs : list A) :
  (forall x, In x xs -> exists y, f x = Ok y) ->
  exists ys, map_result f xs = Ok ys.
Proof.
  induction xs as [|x xs IH]; intros Hall; simpl.
  - now exists [].
  - destruct (Hall x (or_introl eq_refl)) as [y Hy]. rewrite Hy. simpl.
    destruct IH as [ys Hys]; [intros; apply Hall; now right|].
    rewrite Hys. simpl. now exists (y :: ys).
Qed.

Lemma Forall2_nth_error {A B} (R : A -> B -> Prop) xs ys k x :
  Forall2 R xs ys -> nth_error xs k = Some x ->
  exists y, nth_error ys k = Some y /\ R x y.
Proof.
  intros H. revert k. induction H as [|x' y' xs ys Hxy _ IH]; intros k Hk.
  - destruct k; discriminate.
  - destruct k as [|k]; simpl in *.
    + injection Hk as ->. now exists y'.
    + now apply IH.
Qed.

(** ** The parser *)

Lemma for_each_line_body (parent : pystr) (lines ts fl : list pystr) :
  for_each lines (line_body parent) (ts, fl)
  = Ok (ts ++ map transcription_of lines, fl ++ map (flac_of parent) lines).
Proof.
  revert ts fl. induction lines as [|line lines IH]; intros ts fl; simpl.
  - now rewrite !app_nil_r.
  - unfold transcription_of, flac_of.
    pose proof (split_char_nonempty SPACE line) as Hne.
    unfold re_split_space in *.
    destruct (split_char SPACE line) as [|file_name rest] eqn:Hs;
      [contradiction|].
    simpl. rewrite IH. unfold transcription_of, flac_of, re_split_space.
    now rewrite <- !app_assoc.
Qed.

(** The parser, as a read, a decoding and two maps. *)
Lemma transcriptions_and_flac_eq (fs : filesystem) (txt_file_path : pystr) :
  _transcriptions_and_flac fs txt_file_path
  = rbind (read_file fs txt_file_path) (fun content =>
      rbind (map_result decode_strip (readlines content)) (fun lines =>
        Ok (map transcription_of lines,
            map (flac_of (dirname txt_file_path)) lines))).
Proof.
  unfold _transcriptions_and_flac.
  destruct (read_file fs txt_file_path) as [content|e]; simpl; [|reflexivity].
  destruct (map_result decode_strip (readlines content)) as [lines|e]; simpl;
    [|reflexivity].
  now rewrite for_each_line_body.
Qed.

Lemma transcriptions_and_flac_inv fs txt_file_path ts flacs :
  _transcriptions_and_flac fs txt_file_path = Ok (ts, flacs) ->
  exists content lines,
    read_file fs txt_file_path = Ok content
    /\ Forall2 (fun x y => decode_strip x = Ok y) (readlines content) lines
    /\ ts = map transcription_of lines
    /\ flacs = map (flac_of (dirname txt_file_path)) lines.
Proof.
  rewrite transcriptions_and_flac_eq.
  destruct (read_file fs txt_file_path) as [content|e]; simpl; [|discriminate].
  destruct (map_result decode_strip (readlines content)) as [lines|e] eqn:Hm;
    simpl; [|discriminate].
  intros H. injection H as <- <-.
  exists content, lines. repeat split; try reflexivity.
  now apply map_result_Forall2.
Qed.

Lemma transcriptions_and_flac_length fs txt_file_path ts flacs :
  _transcriptions_and_flac fs txt_file_path = Ok (ts, flacs) ->
  List.length ts = List.length flacs.
Proof.
  intros H. apply transcriptions_and_flac_inv in H.
  destruct H as (content & lines & _ & _ & -> & ->).
  now rewrite !length_map.
Qed.

Lemma decodable_lines (content : bytes) :
  Forall decodable (readlines content) ->
  exists lines,
    map_result decode_strip (readlines content) = Ok lines
    /\ Forall2 (fun x y => decode_strip x = Ok y) (readlines content) lines.
Proof.
  intros Hall.
  destruct (map_result_total decode_strip (readlines content)) as [lines Hl].
  - intros raw Hin. rewrite Forall_forall in Hall. specialize (Hall raw Hin).
    unfold decode_strip, decodable in *.
    destruct (utf8_decode raw) as [s|]; [now exists (strip s)|contradiction].
  - exists lines. split; [assumption|now apply map_result_Forall2].
Qed.

(** A file that can be read and decoded is parsed, line by line. *)
Lemma transcriptions_and_flac_returns fs path content :
  read_file fs path = Ok content ->
  Forall decodable (readlines content) ->
  exists lines,
    Forall2 (fun x y => decode_strip x = Ok y) (readlines content) lines
    /\ _transcriptions_and_flac fs path
       = Ok (map transcription_of lines, map (flac_of (dirname path)) lines).
Proof.
  intros Hread Hdec.
  destruct (decodable_lines content Hdec) as (lines & Hm & HF).
  exists lines. split; [assumption|].
  rewrite transcriptions_and_flac_eq, Hread. simpl. now rewrite Hm.
Qed.

Lemma decode_strip_Some raw decoded :
  utf8_decode raw = Some decoded -> decode_strip raw = Ok (strip decoded).
Proof. intros H. unfold decode_strip. now rewrite H. Qed.

(** C2. A transcript line that reads [<utterance-id> <text>] once decoded
    and stripped, with no space inside the utterance id, yields at its own
    position the transcription [<text>] and the audio path made of the
    directory of the transcript file joined with [<utterance-id>.flac]. *)
Theorem parse_line_id_text :
  forall (fs : filesystem) (path : pystr) (content : bytes) (k : nat)
         (raw : bytes) (decoded id text : pystr),
    read_file fs path = Ok content ->
    Forall decodable (readlines content) ->
    nth_error (readlines content) k = Some raw ->
    utf8_decode raw = Some decoded ->
    strip decoded = id ++ SPACE :: text ->
    ~ In SPACE id ->
    exists ts flacs,
      _transcriptions_and_flac fs path = Ok (ts, flacs)
      /\ nth_error ts k = Some text
      /\ nth_error flacs k = Some (join (dirname path) (id ++ py ".flac")).
Proof.
  intros fs path content k raw decoded id text Hread Hdec Hk Hraw Hline Hid.
  destruct (transcriptions_and_flac_returns fs path content Hread Hdec)
    as (lines & HF & Hparse).
  destruct (Forall2_nth_error _ _ _ k raw HF Hk) as (line & Hline_k & Hds).
  rewrite (decode_strip_Some raw decoded Hraw), Hline in Hds. injection Hds as <-.
  exists (map transcription_of lines), (map (flac_of (dirname path)) lines).
  split; [assumption|].
  rewrite !nth_error_map, Hline_k. simpl.
  now rewrite transcription_of_id_text, flac_of_id_text.
Qed.

Lemma parse_line_id_text_witness :
  exists ts flacs,
    _transcriptions_and_flac Sample.hello_fs Sample.hello_path = Ok (ts, flacs)
    /\ nth_error ts 0 = Some (py "HELLO WORLD")
    /\ nth_error flacs 0 = Some (py "/corpus/1234/1234-0001.flac").
Proof.
  assert (H1 : read_file Sample.hello_fs Sample.hello_path
               = Ok Sample.hello_txt)
    by (vm_compute; reflexivity).
  assert (H2 : Forall decodable (readlines Sample.hello_txt))
    by (apply Forall_decodableb; vm_compute; reflexivity).
  assert (H3 : nth_error (readlines Sample.hello_txt) 0
               = Some (py "1234-0001 HELLO WORLD" ++ [Sample.NL]))
    by (vm_compute; reflexivity).
  assert (H4 : utf8_decode (py "1234-0001 HELLO WORLD" ++ [Sample.NL])
               = Some (py "1234-0001 HELLO WORLD" ++ [Sample.NL]))
    by (vm_compute; reflexivity).
  assert (H5 : strip (py "1234-0001 HELLO WORLD" ++ [Sample.NL])
               = py "1234-0001" ++ SPACE :: py "HELLO WORLD")
    by (vm_compute; reflexivity).
  assert (H6 : ~ In SPACE (py "1234-0001"))
    by (apply not_In_existsb; vm_compute; reflexivity).
  pose proof (parse_line_id_text _ _ _ _ _ _ _ _ H1 H2 H3 H4 H5 H6) as W.
  vm_compute in W. vm_compute. exact W.
Defined.

(** The claim that a line which is empty once stripped contributes nothing
    fails: the second line of [gap_txt] is empty, and the parser returns
    three entries, the second one with an empty transcription and the path
    of a file called [.flac]. *)
Lemma blank_line_counterexample :
  map decode_strip (readlines Sample.gap_txt)
  = [Ok (py "5678-0001 FOO"); Ok []; Ok (py "5678-0002 BAR BAZ")]
  /\ _transcriptions_and_flac Sample.gap_fs Sample.gap_path
     = Ok ([py "FOO"; []; py "BAR BAZ"],
           [py "/corpus/5678/5678-0001.flac";
            py "/corpus/5678/.flac";
            py "/corpus/5678/5678-0002.flac"]).
Proof. split; vm_compute; reflexivity. Qed.

Lemma transcription_of_empty : transcription_of [] = [].
Proof. reflexivity. Qed.

Lemma flac_of_empty (parent : pystr) :
  flac_of parent [] = join parent (py ".flac").
Proof. reflexivity. Qed.

(** C3, as the code has it.  A transcript that can be read and decoded
    yields exactly one entry per line, in file order, whether or not the
    line is empty once stripped: the two output lists are as long as the
    file has lines, every line fills its own position, and an empty line
    fills it with the empty transcription and the path [D/.flac]. *)
Theorem one_entry_per_line :
  forall (fs : filesystem) (path : pystr) (content : bytes),
    read_file fs path = Ok content ->
    Forall decodable (readlines content) ->
    exists ts flacs,
      _transcriptions_and_flac fs path = Ok (ts, flacs)
      /\ List.length ts = List.length (readlines content)
      /\ List.length flacs = List.length (readlines content)
      /\ (forall k raw decoded,
             nth_error (readlines content) k = Some raw ->
             utf8_decode raw = Some decoded ->
             nth_error ts k = Some (transcription_of (strip decoded))
             /\ nth_error flacs k
                = Some (flac_of (dirname path) (strip decoded)))
      /\ (forall k raw decoded,
             nth_error (readlines content) k = Some raw ->
             utf8_decode raw = Some decoded ->
             strip decoded = [] ->
             nth_error ts k = Some []
             /\ nth_error flacs k = Some (join (dirname path) (py ".flac"))).
Proof.
  intros fs path content Hread Hdec.
  destruct (transcriptions_and_flac_returns fs path content Hread Hdec)
    as (lines & HF & Hparse).
  exists (map transcription_of lines), (map (flac_of (dirname path)) lines).
  assert (Hlen : List.length lines = List.length (readlines content))
    by (symmetry; exact (Forall2_length HF)).
  assert (Hat : forall k raw decoded,
             nth_error (readlines content) k = Some raw ->
             utf8_decode raw = Some decoded ->
             nth_error lines k = Some (strip decoded)).
  { intros k raw decoded Hk Hraw.
    destruct (Forall2_nth_error _ _ _ k raw HF Hk) as (line & Hl & Hds).
    rewrite (decode_strip_Some raw decoded Hraw) in Hds.
    injection Hds as <-. exact Hl. }
  repeat split.
  - exact Hparse.
  - now rewrite length_map.
  - now rewrite length_map.
  - rewrite nth_error_map, (Hat k raw decoded H H0). reflexivity.
  - rewrite nth_error_map, (Hat k raw decoded H H0). reflexivity.
  - rewrite nth_error_map, (Hat k raw decoded H H0), H1. reflexivity.
  - rewrite nth_error_map, (Hat k raw decoded H H0), H1. reflexivity.
Qed.

Lemma one_entry_per_line_witness :
  exists ts flacs,
    _transcriptions_and_flac Sample.gap_fs Sample.gap_path = Ok (ts, flacs)
    /\ List.length ts = 3 /\ List.length flacs = 3.
Proof.
  assert (H1 : read_file Sample.gap_fs Sample.gap_path = Ok Sample.gap_txt)
    by (vm_compute; reflexivity).
  assert (H2 : Forall decodable (readlines Sample.gap_txt))
    by (apply Forall_decodableb; vm_compute; reflexivity).
  destruct (one_entry_per_line Sample.gap_fs Sample.gap_path Sample.gap_txt
              H1 H2) as (ts & flacs & Hp & Hts & Hfl & _).
  exists ts, flacs. repeat split; assumption.
Defined.

(** The claim that a line without any token makes the parser fail is
    false: the only line of [spaces_txt] consists of spaces, and the parser
    returns, with one entry for it. *)
Lemma no_token_counterexample :
  map decode_strip (readlines Sample.spaces_txt) = [Ok []]
  /\ _transcriptions_and_flac Sample.spaces_fs Sample.spaces_path
     = Ok ([[]], [py "/corpus/42/.flac"]).
Proof. split; vm_compute; reflexivity. Qed.

(** A path that names nothing is missing, or goes through a regular
    file. *)
Lemma lookup_error_cases (r : node) (cs : list pystr) :
  forall cur,
    lookup_error r cur cs = FileNotFoundError
    \/ lookup_error r cur cs = NotADirectoryError.
Proof.
  induction cs as [|c cs IH]; intros cur; simpl; [now left|].
  destruct (lookup r cur) as [[data|es]|]; [now right|apply IH|now left].
Qed.

Lemma absent_cases (fs : filesystem) (p : pystr) :
  absent fs p = FileNotFoundError \/ absent fs p = NotADirectoryError.
Proof.
  unfold absent. destruct p as [|a p]; [now left|apply lookup_error_cases].
Qed.

(** What the parser can raise comes from opening the file and from
    decoding it, never from the shape of a line. *)
Lemma transcriptions_and_flac_raises fs path e :
  _transcriptions_and_flac fs path = Raise e ->
  e = FileNotFoundError \/ e = NotADirectoryError
  \/ e = IsADirectoryError \/ e = UnicodeDecodeError.
Proof.
  rewrite transcriptions_and_flac_eq. unfold read_file.
  destruct (stat fs path) as [[data|es]|]; simpl;
    try (intros H; injection H as <-; tauto).
  2: { intros H. injection H as <-.
       destruct (absent_cases fs path) as [-> | ->]; tauto. }
  destruct (map_result decode_strip (readlines data)) as [lines|e'] eqn:Hm;
    simpl; [discriminate|].
  intros H. injection H as <-. right. right. right.
  revert Hm. generalize (readlines data) as l.
  induction l as [|x l IH]; simpl; [discriminate|].
  unfold decode_strip at 1. destruct (utf8_decode x); simpl.
  - destruct (map_result decode_strip l); simpl; [discriminate|].
    intros H. injection H as <-. now apply IH.
  - intros H. now injection H as <-.
Qed.

(** C4, as the code has it.  A line without any token (empty once stripped)
    does not make the parser fail: whatever the parser raises is an error of
    opening the file (the path names nothing, goes through a regular file
    or names a directory) or of decoding it, and a transcript that can be
    read and decoded is parsed, the token-less line being kept as an entry
    with the empty transcription and the path [D/.flac]. *)
Theorem no_token_line_is_kept :
  forall (fs : filesystem) (path : pystr),
    (forall e, _transcriptions_and_flac fs path = Raise e ->
               e = FileNotFoundError \/ e = NotADirectoryError
               \/ e = IsADirectoryError \/ e = UnicodeDecodeError)
    /\ (forall content k raw decoded,
           read_file fs path = Ok content ->
           Forall decodable (readlines content) ->
           nth_error (readlines content) k = Some raw ->
           utf8_decode raw = Some decoded ->
           strip decoded = [] ->
           exists ts flacs,
             _transcriptions_and_flac fs path = Ok (ts, flacs)
             /\ nth_error ts k = Some []
             /\ nth_error flacs k = Some (join (dirname path) (py ".flac"))).
Proof.
  intros fs path. split.
  - intros e. apply transcriptions_and_flac_raises.
  - intros content k raw decoded Hread Hdec Hk Hraw Hempty.
    destruct (transcriptions_and_flac_returns fs path content Hread Hdec)
      as (lines & HF & Hparse).
    destruct (Forall2_nth_error _ _ _ k raw HF Hk) as (line & Hl & Hds).
    rewrite (decode_strip_Some raw decoded Hraw), Hempty in Hds.
    injection Hds as <-.
    exists (map transcription_of lines), (map (flac_of (dirname path)) lines).
    split; [exact Hparse|]. now rewrite !nth_error_map, Hl.
Qed.

Lemma no_token_line_is_kept_witness :
  exists ts flacs,
    _transcriptions_and_flac Sample.spaces_fs Sample.spaces_path
    = Ok (ts, flacs)
    /\ nth_error ts 0 = Some []
    /\ nth_error flacs 0 = Some (py "/corpus/42/.flac").
Proof.
  assert (H1 : read_file Sample.spaces_fs Sample.spaces_path
               = Ok Sample.spaces_txt)
    by (vm_compute; reflexivity).
  assert (H2 : Forall decodable (readlines Sample.spaces_txt))
    by (apply Forall_decodableb; vm_compute; reflexivity).
  assert (H3 : nth_error (readlines Sample.spaces_txt) 0
               = Some Sample.spaces_txt)
    by (vm_compute; reflexivity).
  assert (H4 : utf8_decode Sample.spaces_txt = Some Sample.spaces_txt)
    by (vm_compute; reflexivity).
  assert (H5 : strip Sample.spaces_txt = [])
    by (vm_compute; reflexivity).
  pose proof (proj2 (no_token_line_is_kept Sample.spaces_fs
                       Sample.spaces_path)
                _ _ _ _ H1 H2 H3 H4 H5) as W.
  vm_compute in W. vm_compute. exact W.
Defined.

(** ** Loops *)

Lemma for_each_app {A S} (body : A -> S -> result S) (xs ys : list A) (st : S) :
  for_each (xs ++ ys) body st = rbind (for_each xs body st) (for_each ys body).
Proof.
  revert st. induction xs as [|x xs IH]; intros st; simpl; [reflexivity|].
  destruct (body x st) as [st'|e]; simpl; [apply IH|reflexivity].
Qed.

Lemma for_each_invariant {A S} (P : S -> Prop) (body : A -> S -> result S)
      (xs : list A) :
  (forall x st st', In x xs -> P st -> body x st = Ok st' -> P st') ->
  forall st st', P st -> for_each xs body st = Ok st' -> P st'.
Proof.
  induction xs as [|x xs IH]; intros Hstep st st' HP Hrun; simpl in Hrun.
  - now injection Hrun as <-.
  - destruct (body x st) as [st1|e] eqn:Hb; simpl in Hrun; [|discriminate].
    apply (IH (fun y s s' Hy => Hstep y s s' (or_intror Hy)) st1 st').
    + exact (Hstep x st st1 (or_introl eq_refl) HP Hb).
    + exact Hrun.
Qed.

Lemma for_each_ext {A S} (f g : A -> S -> result S) (xs : list A) (st : S) :
  (forall x s, In x xs -> f x s = g x s) ->
  for_each xs f st = for_each xs g st.
Proof.
  revert st. induction xs as [|x xs IH]; intros st Hfg; simpl; [reflexivity|].
  rewrite (Hfg x st (or_introl eq_refl)).
  destruct (g x st) as [st'|e]; simpl; [|reflexivity].
  apply IH. intros y s Hy. apply Hfg. now right.
Qed.

(** A loop whose body leaves the state alone outside a filter is the loop
    over the filtered list. *)
Lemma for_each_filter {A S} (keep : A -> bool) (body : A -> S -> result S)
      (xs : list A) (st : S) :
  (forall x s, keep x = false -> body x s = Ok s) ->
  for_each xs body st = for_each (filter keep xs) body st.
Proof.
  intros Hskip. revert st. induction xs as [|x xs IH]; intros st; simpl;
    [reflexivity|].
  destruct (keep x) eqn:Hk; simpl.
  - destruct (body x st) as [st'|e]; simpl; [apply IH|reflexivity].
  - rewrite (Hskip x st Hk). simpl. apply IH.
Qed.

(** ** Dictionaries *)

Lemma mem_get {V} (k : pystr) (d : Dict.t V) :
  Dict.mem k d = true <-> exists v, Dict.get k d = Some v.
Proof.
  unfold Dict.mem. destruct (Dict.get k d) as [v|]; split;
    try congruence; try (intros [v' H]; congruence).
  intros _. now exists v.
Qed.

Lemma mem_keys {V} (k : pystr) (d : Dict.t V) :
  Dict.mem k d = existsb (str_eqb k) (Dict.keys d).
Proof.
  unfold Dict.mem. induction d as [|[k' v] d IH]; simpl; [reflexivity|].
  destruct (str_eqb k' k) eqn:Hk.
  - apply str_eqb_eq in Hk. subst. now rewrite str_eqb_refl.
  - apply str_eqb_neq in Hk.
    assert (str_eqb k k' = false) as -> by (apply str_eqb_neq; congruence).
    exact IH.
Qed.

Lemma get_set {V} (k k' : pystr) (v : V) (d : Dict.t V) :
  Dict.get k' (Dict.set k v d)
  = if str_eqb k k' then Some v else Dict.get k' d.
Proof.
  induction d as [|[k0 v0] d IH]; simpl.
  - reflexivity.
  - destruct (str_eqb k0 k) eqn:Hk0; simpl.
    + apply str_eqb_eq in Hk0. subst k0.
      destruct (str_eqb k k'); reflexivity.
    + destruct (str_eqb k0 k') eqn:Hk0'; [|exact IH].
      apply str_eqb_eq in Hk0'. subst k0.
      now rewrite (str_eqb_sym k k'), Hk0.
Qed.

Lemma keys_set {V} (k : pystr) (v : V) (d : Dict.t V) :
  Dict.keys (Dict.set k v d)
  = if Dict.mem k d then Dict.keys d else Dict.keys d ++ [k].
Proof.
  unfold Dict.mem. induction d as [|[k0 v0] d IH]; simpl; [reflexivity|].
  destruct (str_eqb k0 k) eqn:Hk0; simpl; [reflexivity|].
  rewrite IH. now destruct (Dict.get k d).
Qed.

Lemma values_of_voice_add (k v k' : pystr) (d : Dict.t (list pystr)) :
  values_of k' (voice_add k v d)
  = if str_eqb k k' then values_of k d ++ [v] else values_of k' d.
Proof.
  unfold voice_add, values_of at 1.
  destruct (Dict.mem k d) eqn:Hm; rewrite get_set.
  - destruct (str_eqb k k'); reflexivity.
  - destruct (str_eqb k k') eqn:Hk; [|reflexivity].
    unfold values_of, Dict.mem in *. now destruct (Dict.get k d).
Qed.

Lemma keys_voice_add (k v : pystr) (d : Dict.t (list pystr)) :
  Dict.keys (voice_add k v d)
  = if Dict.mem k d then Dict.keys d else Dict.keys d ++ [k].
Proof.
  unfold voice_add. destruct (Dict.mem k d) eqn:Hm; rewrite keys_set, Hm;
    reflexivity.
Qed.

Lemma mem_voice_add (k v k' : pystr) (d : Dict.t (list pystr)) :
  Dict.mem k' (voice_add k v d) = str_eqb k k' || Dict.mem k' d.
Proof.
  unfold Dict.mem at 1. unfold voice_add.
  destruct (Dict.mem k d) eqn:Hm; rewrite get_set;
    destruct (str_eqb k k') eqn:Hk; try reflexivity.
Qed.

(** ** The walker *)

Lemma walk_body_eq (v : visit) (d : Dict.t (list pystr)) :
  walk_body v d = if is_leaf v then leaf_body v d else Ok d.
Proof.
  destruct v as [[dir_name subs] files].
  unfold walk_body, is_leaf, leaf_body, select_txt, voice_id_of, visit_subdirs,
    visit_dir, visit_files, ends_txt. simpl.
  destruct (List.length subs =? 0)%nat; [|reflexivity].
  destruct (filter _ _) as [|txt_file rest]; simpl; [reflexivity|].
  unfold voice_add, values_of.
  destruct (Dict.mem (basename dir_name) d) eqn:Hm; simpl; [|reflexivity].
  apply mem_get in Hm. destruct Hm as [l Hl]. now rewrite Hl.
Qed.

Lemma voice_txt_dict_from_path_eq (fs : filesystem) (folder_path : pystr) :
  _voice_txt_dict_from_path fs folder_path
  = for_each (leaves fs folder_path) leaf_body [].
Proof.
  unfold _voice_txt_dict_from_path, leaves.
  rewrite (for_each_filter is_leaf walk_body).
  - apply for_each_ext. intros v d Hin. apply filter_In in Hin.
    rewrite walk_body_eq. now destruct Hin as [_ ->].
  - intros v d Hv. now rewrite walk_body_eq, Hv.
Qed.

(** A leaf without a match stops the loop with [IndexError]. *)
Lemma leaf_loop_raises (ls : list visit) (d0 : Dict.t (list pystr)) :
  (exists v, In v ls /\ select_txt v = None) ->
  for_each ls leaf_body d0 = Raise IndexError.
Proof.
  revert d0. induction ls as [|v ls IH]; intros d0 [bad [Hin Hbad]];
    [destruct Hin|].
  simpl. unfold leaf_body at 1. destruct (select_txt v) as [t|] eqn:Hs; simpl.
  - apply IH. exists bad. split; [|exact Hbad].
    destruct Hin as [->|Hin]; [congruence|exact Hin].
  - reflexivity.
Qed.

Lemma leaf_loop_only_raises (ls : list visit) (d0 : Dict.t (list pystr)) e :
  for_each ls leaf_body d0 = Raise e ->
  e = IndexError /\ exists v, In v ls /\ select_txt v = None.
Proof.
  revert d0. induction ls as [|v ls IH]; intros d0; simpl; [discriminate|].
  unfold leaf_body at 1. destruct (select_txt v) as [t|] eqn:Hs; simpl.
  - intros H. destruct (IH _ H) as [-> (bad & Hin & Hbad)].
    split; [reflexivity|]. exists bad. split; [now right|exact Hbad].
  - intros H. injection H as <-. split; [reflexivity|].
    exists v. split; [now left|exact Hs].
Qed.

(** When the loop returns, every leaf had a match, and the dictionary is
    the one obtained by adding the matches in the order of the leaves. *)
Lemma leaf_loop_returns (ls : list visit) (d0 d : Dict.t (list pystr)) :
  for_each ls leaf_body d0 = Ok d ->
  exists sel,
    Forall2 (fun v t => select_txt v = Some t) ls sel
    /\ d = add_all (combine (map voice_id_of ls) sel) d0.
Proof.
  revert d0. induction ls as [|v ls IH]; intros d0; simpl.
  - intros H. injection H as <-. exists []. split; [constructor|reflexivity].
  - unfold leaf_body at 1. destruct (select_txt v) as [t|] eqn:Hs; simpl;
      [|discriminate].
    intros H. destruct (IH _ H) as (sel & HF & ->).
    exists (t :: sel). split; [now constructor|reflexivity].
Qed.

Lemma leaf_loop_total (ls : list visit) (d0 : Dict.t (list pystr)) :
  (forall v, In v ls -> select_txt v <> None) ->
  exists d, for_each ls leaf_body d0 = Ok d.
Proof.
  intros Hall. destruct (for_each ls leaf_body d0) as [d|e] eqn:Hrun.
  - now exists d.
  - destruct (leaf_loop_only_raises ls d0 e Hrun) as [_ (bad & Hin & Hbad)].
    now destruct (Hall bad Hin).
Qed.

(** The first match of a filter. *)
Lemma hd_error_filter {A} (p : A -> bool) (l : list A) (x : A) :
  hd_error (filter p l) = Some x <->
  exists pre post,
    l = pre ++ x :: post /\ p x = true /\ Forall (fun y => p y = false) pre.
Proof.
  induction l as [|a l IH]; simpl.
  - split; [discriminate|]. intros (pre & post & H & _).
    destruct pre; discriminate.
  - destruct (p a) eqn:Hpa; simpl.
    + split.
      * intros H. injection H as <-. exists [], l. now repeat split.
      * intros (pre & post & Hl & Hpx & Hpre). destruct pre as [|b pre].
        -- simpl in Hl. now injection Hl as ->.
        -- simpl in Hl. injection Hl as -> _. inversion Hpre; congruence.
    + rewrite IH. split.
      * intros (pre & post & -> & Hpx & Hpre). exists (a :: pre), post.
        repeat split; [assumption|now constructor].
      * intros (pre & post & Hl & Hpx & Hpre). destruct pre as [|b pre].
        -- simpl in Hl. injection Hl as -> _. congruence.
        -- simpl in Hl. injection Hl as -> ->. exists pre, post.
           inversion Hpre. now repeat split.
Qed.

Lemma hd_error_filter_None {A} (p : A -> bool) (l : list A) :
  hd_error (filter p l) = None <-> forall y, In y l -> p y = false.
Proof.
  induction l as [|a l IH]; simpl; [tauto|].
  destruct (p a) eqn:Hpa; simpl.
  - split; [discriminate|]. intros H. specialize (H a (or_introl eq_refl)).
    congruence.
  - rewrite IH. split.
    + intros H y [<-|Hy]; [assumption|now apply H].
    + intros H y Hy. apply H. now right.
Qed.

(** The file the walker takes in a leaf is the first of the listing whose
    joined path ends in [txt]. *)
Lemma select_txt_Some (v : visit) (t : pystr) :
  select_txt v = Some t <->
  exists pre f post,
    visit_files v = pre ++ f :: post
    /\ t = join (visit_dir v) f
    /\ ends_txt t = true
    /\ Forall (fun g => ends_txt (join (visit_dir v) g) = false) pre.
Proof.
  unfold select_txt. rewrite hd_error_filter. split.
  - intros (pre & post & Hl & Ht & Hpre).
    apply map_eq_app in Hl. destruct Hl as (pre' & rest & Hfiles & <- & Hrest).
    apply map_eq_cons in Hrest.
    destruct Hrest as (f & post' & -> & <- & <-).
    exists pre', f, post'. repeat split; try assumption.
    now rewrite Forall_map in Hpre.
  - intros (pre & f & post & Hfiles & -> & Ht & Hpre).
    exists (map (fun x => join (visit_dir v) x) pre),
           (map (fun x => join (visit_dir v) x) post).
    rewrite Hfiles, map_app. simpl. repeat split; try assumption.
    now rewrite Forall_map.
Qed.

Lemma select_txt_None (v : visit) :
  select_txt v = None <->
  forall f, In f (visit_files v) -> ends_txt (join (visit_dir v) f) = false.
Proof.
  unfold select_txt. rewrite hd_error_filter_None. split.
  - intros H f Hf. apply H. now apply in_map.
  - intros H y Hy. apply in_map_iff in Hy. destruct Hy as (f & <- & Hf).
    now apply H.
Qed.

(** ** Grouping by key *)

Lemma add_all_cons (k v : pystr) (kvs : list (pystr * pystr))
      (d : Dict.t (list pystr)) :
  add_all ((k, v) :: kvs) d = add_all kvs (voice_add k v d).
Proof. reflexivity. Qed.

Lemma values_of_add_all (k : pystr) (kvs : list (pystr * pystr))
      (d0 : Dict.t (list pystr)) :
  values_of k (add_all kvs d0) = values_of k d0 ++ files_under k kvs.
Proof.
  revert d0. induction kvs as [|[k1 v1] kvs IH]; intros d0.
  - unfold files_under. simpl. now rewrite app_nil_r.
  - rewrite add_all_cons, IH, values_of_voice_add. unfold files_under. simpl.
    destruct (str_eqb k1 k) eqn:Hk; simpl.
    + apply str_eqb_eq in Hk. subst. now rewrite <- app_assoc.
    + reflexivity.
Qed.

Lemma mem_add_all (k : pystr) (kvs : list (pystr * pystr))
      (d0 : Dict.t (list pystr)) :
  Dict.mem k (add_all kvs d0)
  = Dict.mem k d0 || existsb (fun kv => str_eqb (fst kv) k) kvs.
Proof.
  revert d0. induction kvs as [|[k1 v1] kvs IH]; intros d0.
  - simpl. now rewrite orb_false_r.
  - rewrite add_all_cons, IH, mem_voice_add. simpl.
    destruct (str_eqb k1 k), (Dict.mem k d0); reflexivity.
Qed.

Lemma keys_add_all (kvs : list (pystr * pystr)) (d0 : Dict.t (list pystr)) :
  Dict.keys (add_all kvs d0)
  = Dict.keys d0 ++ firsts (Dict.keys d0) (map fst kvs).
Proof.
  revert d0. induction kvs as [|[k1 v1] kvs IH]; intros d0.
  - simpl. now rewrite app_nil_r.
  - rewrite add_all_cons, IH, keys_voice_add. simpl.
    rewrite <- mem_keys. destruct (Dict.mem k1 d0); [reflexivity|].
    now rewrite <- app_assoc.
Qed.

Lemma existsb_filter_nil {A} (p : A -> bool) (l : list A) :
  existsb p l = false <-> filter p l = [].
Proof.
  induction l as [|a l IH]; simpl; [tauto|].
  destruct (p a); simpl; [split; discriminate|exact IH].
Qed.

(** The dictionary built from nothing holds, under each key, the files
    added under it, in the order they were added. *)
Lemma get_add_all (k : pystr) (kvs : list (pystr * pystr)) :
  Dict.get k (add_all kvs [])
  = match files_under k kvs with [] => None | l => Some l end.
Proof.
  pose proof (values_of_add_all k kvs []) as Hv.
  pose proof (mem_add_all k kvs []) as Hm.
  unfold values_of, Dict.mem in *. simpl in *.
  destruct (Dict.get k (add_all kvs [])) as [l|].
  - subst l. destruct (files_under k kvs) eqn:Hf; [|reflexivity].
    symmetry in Hm. apply existsb_exists in Hm. destruct Hm as (kv & Hin & Hk).
    unfold files_under in Hf. apply map_eq_nil in Hf.
    assert (In kv (filter (fun kv => str_eqb (fst kv) k) kvs))
      by (apply filter_In; now split).
    rewrite Hf in H. destruct H.
  - symmetry in Hm. apply existsb_filter_nil in Hm.
    unfold files_under. now rewrite Hm.
Qed.

Lemma firsts_spec (seen l : list pystr) (x : pystr) :
  In x (firsts seen l) <-> In x l /\ ~ In x seen.
Proof.
  revert seen. induction l as [|a l IH]; intros seen; simpl; [tauto|].
  destruct (existsb (str_eqb a) seen) eqn:Ha.
  - rewrite IH. apply existsb_exists in Ha. destruct Ha as (y & Hy & Hay).
    apply str_eqb_eq in Hay. subst y. split; [tauto|].
    intros [[->|Hx] Hns]; [contradiction|tauto].
  - assert (Hna : ~ In a seen).
    { intros Hin. assert (existsb (str_eqb a) seen = true); [|congruence].
      apply existsb_exists. exists a. split; [assumption|apply str_eqb_refl]. }
    simpl. rewrite IH, in_app_iff. simpl. split.
    + intros [<-|[Hx Hns]]; [tauto|]. split; [tauto|]. tauto.
    + intros [[->|Hx] Hns]; [tauto|].
      destruct (list_eq_dec N.eq_dec a x) as [->|Hne]; [tauto|].
      right. split; [assumption|]. intros [H|[H|[]]]; [tauto|congruence].
Qed.

Lemma firsts_NoDup (seen l : list pystr) : NoDup (firsts seen l).
Proof.
  revert seen. induction l as [|a l IH]; intros seen; simpl; [constructor|].
  destruct (existsb (str_eqb a) seen); [apply IH|].
  constructor; [|apply IH].
  rewrite firsts_spec, in_app_iff. simpl. tauto.
Qed.

Lemma before_cons {A} (x a b : A) (l : list A) :
  before a b l -> before a b (x :: l).
Proof. intros (l1 & l2 & l3 & ->). now exists (x :: l1), l2, l3. Qed.

(** A key whose first occurrence comes before every occurrence of another
    key stands before it among the first occurrences. *)
Lemma firsts_before (seen l1 l2 : list pystr) (a b : pystr) :
  ~ In a seen -> ~ In b seen -> ~ In a l1 -> ~ In b l1 -> a <> b ->
  In b l2 ->
  before a b (firsts seen (l1 ++ a :: l2)).
Proof.
  revert seen. induction l1 as [|x l1 IH]; intros seen Has Hbs Ha1 Hb1 Hab Hb2.
  - simpl.
    assert (existsb (str_eqb a) seen = false) as ->.
    { destruct (existsb (str_eqb a) seen) eqn:He; [|reflexivity].
      apply existsb_exists in He. destruct He as (y & Hy & Hay).
      apply str_eqb_eq in Hay. subst y. contradiction. }
    assert (Hin : In b (firsts (seen ++ [a]) l2)).
    { apply firsts_spec. split; [exact Hb2|].
      rewrite in_app_iff. simpl. intros [H|[H|[]]]; [contradiction|].
      now apply Hab. }
    apply in_split in Hin. destruct Hin as (l2' & l3 & ->).
    now exists [], l2', l3.
  - simpl. simpl in Ha1, Hb1.
    destruct (existsb (str_eqb x) seen).
    + apply IH; tauto.
    + apply before_cons. apply IH; try tauto.
      * rewrite in_app_iff. simpl. intros [H|[H|[]]]; [tauto|].
        apply Ha1. now left.
      * rewrite in_app_iff. simpl. intros [H|[H|[]]]; [tauto|].
        apply Hb1. now left.
Qed.

Lemma keys_add_all_NoDup (kvs : list (pystr * pystr)) :
  NoDup (Dict.keys (add_all kvs [])).
Proof. rewrite keys_add_all. simpl. apply firsts_NoDup. Qed.

(** What the walker returns, in terms of the leaves it met. *)
Lemma voice_txt_dict_returns fs folder_path d :
  _voice_txt_dict_from_path fs folder_path = Ok d ->
  exists sel,
    Forall2 (fun v t => select_txt v = Some t) (leaves fs folder_path) sel
    /\ d = add_all (combine (map voice_id_of (leaves fs folder_path)) sel) [].
Proof.
  rewrite voice_txt_dict_from_path_eq. apply leaf_loop_returns.
Qed.

Lemma map_fst_combine {A B} (l : list A) (l' : list B) :
  List.length l = List.length l' -> map fst (combine l l') = l.
Proof.
  revert l'. induction l as [|a l IH]; intros [|b l'] H; simpl in *;
    try discriminate; [reflexivity|].
  f_equal. apply IH. now injection H.
Qed.

(** The claim that a leaf without a [.txt] file makes the walker fail is
    false as stated: the only file of the leaf [/corpus/7] of [dotless_fs]
    does not end in [.txt], and the walker returns, having taken it. *)
Lemma dotless_counterexample :
  os_walk Sample.dotless_fs (py "/corpus")
  = [(py "/corpus", [py "7"], []); (py "/corpus/7", [], [py "notes_txt"])]
  /\ endswith (py "notes_txt") (py ".txt") = false
  /\ _voice_txt_dict_from_path Sample.dotless_fs (py "/corpus")
     = Ok [(py "7", [py "/corpus/7/notes_txt"])].
Proof. repeat split; vm_compute; reflexivity. Qed.

(** C5, as the code has it.  When some directory that [os.walk] reaches
    below the folder has no subdirectory and no file whose joined path ends
    in [txt] (the test has no dot), the walker does not return a dictionary:
    indexing the empty list of matches raises [IndexError]. *)
Theorem leaf_without_txt_raises :
  forall (fs : filesystem) (folder_path : pystr) (v : visit),
    In v (os_walk fs folder_path) ->
    visit_subdirs v = [] ->
    (forall f, In f (visit_files v) ->
               endswith (join (visit_dir v) f) (py "txt") = false) ->
    _voice_txt_dict_from_path fs folder_path = Raise IndexError.
Proof.
  intros fs folder_path v Hin Hleaf Hfiles.
  rewrite voice_txt_dict_from_path_eq. apply leaf_loop_raises.
  exists v. split.
  - unfold leaves. apply filter_In. split; [exact Hin|].
    unfold is_leaf. now rewrite Hleaf.
  - apply select_txt_None. exact Hfiles.
Qed.

Lemma leaf_without_txt_raises_witness :
  _voice_txt_dict_from_path Sample.audio_only_fs (py "/corpus")
  = Raise IndexError.
Proof.
  apply (leaf_without_txt_raises Sample.audio_only_fs (py "/corpus")
           (py "/corpus/7", [], [py "7-0001.flac"])).
  - vm_compute. right. left. reflexivity.
  - reflexivity.
  - intros f [<-|[]]. vm_compute. reflexivity.
Defined.

(** The claim that the file taken in a leaf is the first one ending in
    [.txt] is false as stated: in [two_fs] the leaf lists [notes_txt]
    before [7.trans.txt], and the walker takes [notes_txt]. *)
Lemma first_dot_txt_counterexample :
  os_walk Sample.two_fs (py "/corpus")
  = [(py "/corpus", [py "7"], []);
     (py "/corpus/7", [], [py "notes_txt"; py "7.trans.txt"])]
  /\ filter (fun f => endswith f (py ".txt")) [py "notes_txt"; py "7.trans.txt"]
     = [py "7.trans.txt"]
  /\ _voice_txt_dict_from_path Sample.two_fs (py "/corpus")
     = Ok [(py "7", [py "/corpus/7/notes_txt"])].
Proof. repeat split; vm_compute; reflexivity. Qed.

(** C8, as the code has it.  When the walker returns, every leaf it reached
    gave exactly one file: the first of its listing whose joined path ends
    in [txt] (no dot is asked for), the later ones being ignored.  The
    basename of the leaf is the key: under each key the dictionary holds
    the files taken in the leaves of that basename, in the order the leaves
    were reached, and the keys stand in the order of their first leaf. *)
Theorem walker_takes_first_txt :
  forall (fs : filesystem) (folder_path : pystr) (d : Dict.t (list pystr)),
    _voice_txt_dict_from_path fs folder_path = Ok d ->
    exists sel : list pystr,
      Forall2
        (fun v t =>
           exists pre f post,
             visit_files v = pre ++ f :: post
             /\ t = join (visit_dir v) f
             /\ endswith t (py "txt") = true
             /\ Forall (fun g => endswith (join (visit_dir v) g) (py "txt")
                                 = false) pre)
        (leaves fs folder_path) sel
      /\ (forall k,
             Dict.get k d
             = match files_under
                       k (combine (map (fun v => basename (visit_dir v))
                                       (leaves fs folder_path)) sel)
               with
               | [] => None
               | l => Some l
               end)
      /\ Dict.keys d
         = firsts [] (map (fun v => basename (visit_dir v))
                          (leaves fs folder_path)).
Proof.
  intros fs folder_path d Hrun.
  destruct (voice_txt_dict_returns fs folder_path d Hrun) as (sel & HF & ->).
  exists sel. repeat split.
  - revert HF. apply Forall2_impl. intros v t Hs.
    now apply select_txt_Some in Hs.
  - intros k. apply get_add_all.
  - rewrite keys_add_all. simpl. f_equal. apply map_fst_combine.
    rewrite length_map. exact (Forall2_length HF).
Qed.

Lemma walker_takes_first_txt_witness :
  exists sel : list pystr,
    sel = [py "/data/dev-clean/19/A/19-A.trans.txt";
           py "/data/dev-clean/19/B/19-B.trans.txt";
           py "/data/dev-clean/20/A/20-A.trans.txt"]
    /\ Dict.get (py "A")
                [(py "A", [py "/data/dev-clean/19/A/19-A.trans.txt";
                           py "/data/dev-clean/20/A/20-A.trans.txt"]);
                 (py "B", [py "/data/dev-clean/19/B/19-B.trans.txt"])]
       = match files_under
                 (py "A")
                 (combine (map (fun v => basename (visit_dir v))
                               (leaves Sample.corpus Sample.corpus_root)) sel)
         with
         | [] => None
         | l => Some l
         end.
Proof.
  assert (H : _voice_txt_dict_from_path Sample.corpus Sample.corpus_root
              = Ok [(py "A", [py "/data/dev-clean/19/A/19-A.trans.txt";
                              py "/data/dev-clean/20/A/20-A.trans.txt"]);
                    (py "B", [py "/data/dev-clean/19/B/19-B.trans.txt"])])
    by (vm_compute; reflexivity).
  destruct (walker_takes_first_txt Sample.corpus Sample.corpus_root _ H)
    as (sel & HF & Hget & Hkeys).
  exists sel. split; [|apply Hget].
  assert (Hl : leaves Sample.corpus Sample.corpus_root
               = [(py "/data/dev-clean/19/A", [],
                   [py "19-A-0001.flac"; py "19-A.trans.txt";
                    py "19-A-0002.flac"]);
                  (py "/data/dev-clean/19/B", [], [py "19-B.trans.txt"]);
                  (py "/data/dev-clean/20/A", [], [py "20-A.trans.txt"])])
    by (vm_compute; reflexivity).
  rewrite Hl in HF. clear - HF.
  assert (Hsel : forall v t,
             (exists pre f post,
                 visit_files v = pre ++ f :: post
                 /\ t = join (visit_dir v) f
                 /\ endswith t (py "txt") = true
                 /\ Forall (fun g => endswith (join (visit_dir v) g) (py "txt")
                                     = false) pre) ->
             select_txt v = Some t)
    by (intros v t Hs; now apply select_txt_Some).
  inversion HF as [|v1 t1 l1 s1 H1 HF1]; subst.
  inversion HF1 as [|v2 t2 l2 s2 H2 HF2]; subst.
  inversion HF2 as [|v3 t3 l3 s3 H3 HF3]; subst.
  inversion HF3; subst.
  apply Hsel in H1, H2, H3. vm_compute in H1, H2, H3.
  injection H1 as <-. injection H2 as <-. injection H3 as <-.
  vm_compute. reflexivity.
Defined.

(** ** The index builder *)

Lemma txt_file_body_aligned fs voice_id txt_file acc acc' :
  aligned acc -> txt_file_body fs voice_id txt_file acc = Ok acc' ->
  aligned acc'.
Proof.
  destruct acc as [[F T] I]. unfold txt_file_body, aligned.
  intros [HFT HTI].
  destruct (_transcriptions_and_flac fs txt_file) as [[t flacs]|e] eqn:Hp;
    simpl; [|discriminate].
  intros H. injection H as <-.
  apply transcriptions_and_flac_length in Hp.
  rewrite !length_app, repeat_length. lia.
Qed.

Lemma voice_id_body_aligned fs d voice_id acc acc' :
  aligned acc -> voice_id_body fs d voice_id acc = Ok acc' -> aligned acc'.
Proof.
  unfold voice_id_body. destruct (Dict.get voice_id d) as [txt_files|];
    [|discriminate].
  intros Hacc. revert acc acc' Hacc.
  apply (for_each_invariant aligned).
  intros f st st' _. apply txt_file_body_aligned.
Qed.

(** C1. Whatever folder the index is built for, the three lists of the
    index that [flacpath_transcription_id] returns have the same length. *)
Theorem index_lists_same_length :
  forall (fs : filesystem) (folder_path : pystr) (index : CorpusIndex),
    flacpath_transcription_id fs folder_path = Ok index ->
    List.length (paths index) = List.length (transcriptions index)
    /\ List.length (transcriptions index) = List.length (ids index).
Proof.
  intros fs folder_path index. unfold flacpath_transcription_id.
  destruct (_voice_txt_dict_from_path fs folder_path) as [d|e]; simpl;
    [|discriminate].
  destruct (for_each (Dict.keys d) (voice_id_body fs d) ([], [], []))
    as [[[F T] I]|e] eqn:Hloop; simpl; [|discriminate].
  intros H. injection H as <-. simpl.
  apply (for_each_invariant aligned (voice_id_body fs d) (Dict.keys d)
           (fun k st st' _ => voice_id_body_aligned fs d k st st')
           ([], [], []) (F, T, I)).
  - split; reflexivity.
  - exact Hloop.
Qed.

Lemma index_lists_same_length_witness :
  exists index,
    flacpath_transcription_id Sample.corpus Sample.corpus_root = Ok index
    /\ List.length (paths index) = 4
    /\ List.length (transcriptions index) = 4
    /\ List.length (ids index) = 4.
Proof.
  destruct (flacpath_transcription_id Sample.corpus Sample.corpus_root)
    as [index|e] eqn:Hrun; [|vm_compute in Hrun; discriminate].
  exists index.
  destruct (index_lists_same_length Sample.corpus Sample.corpus_root index
              Hrun) as [H1 H2].
  assert (H4 : List.length (paths index) = 4).
  { vm_compute in Hrun. injection Hrun as <-. reflexivity. }
  repeat split; lia.
Defined.

Lemma NoDup_keys_get {V} (d : Dict.t V) (k : pystr) (v : V) :
  NoDup (Dict.keys d) -> In (k, v) d -> Dict.get k d = Some v.
Proof.
  induction d as [|[k0 v0] d IH]; intros Hnd Hin; [destruct Hin|].
  simpl in *. inversion Hnd as [|? ? Hnotin Hnd']; subst.
  destruct Hin as [Heq|Hin].
  - injection Heq as -> ->. now rewrite str_eqb_refl.
  - destruct (str_eqb k0 k) eqn:Hk; [|now apply IH].
    apply str_eqb_eq in Hk. subst k0. exfalso. apply Hnotin.
    unfold Dict.keys. apply in_map_iff. now exists (k, v).
Qed.

(** The loop over the files of one key: every file is parsed, its lists are
    appended as they are, and the key is repeated once per path. *)
Lemma txt_files_loop fs voice_id (files : list pystr) F T I F' T' I' :
  for_each files (txt_file_body fs voice_id) (F, T, I) = Ok (F', T', I') ->
  exists segs,
    parsed fs files segs
    /\ F' = F ++ group_paths segs
    /\ T' = T ++ group_transcriptions segs
    /\ I' = I ++ repeat voice_id (List.length (group_paths segs)).
Proof.
  revert F T I. induction files as [|f files IH]; intros F T I; simpl.
  - intros H. injection H as <- <- <-. exists []. simpl.
    rewrite !app_nil_r. repeat split. constructor.
  - destruct (_transcriptions_and_flac fs f) as [[t flacs]|e] eqn:Hp; simpl;
      [|discriminate].
    intros H. destruct (IH _ _ _ H) as (segs & Hsegs & -> & -> & ->).
    exists ((t, flacs) :: segs). unfold group_paths, group_transcriptions.
    simpl. rewrite length_app, repeat_app, <- !app_assoc.
    repeat split. now constructor.
Qed.

(** The loop over the keys. *)
Lemma voice_ids_loop fs (d0 d : Dict.t (list pystr)) F T I F' T' I' :
  (forall k files, In (k, files) d -> Dict.get k d0 = Some files) ->
  for_each (Dict.keys d) (voice_id_body fs d0) (F, T, I) = Ok (F', T', I') ->
  exists groups,
    Forall2 (fun kv segs => parsed fs (snd kv) segs) d groups
    /\ F' = F ++ flat_paths groups
    /\ T' = T ++ flat_transcriptions groups
    /\ I' = I ++ flat_ids (Dict.keys d) groups.
Proof.
  revert F T I. induction d as [|[k files] d IH]; intros F T I Hget; simpl.
  - intros H. injection H as <- <- <-. exists []. unfold flat_ids. simpl.
    rewrite !app_nil_r. repeat split. constructor.
  - unfold voice_id_body at 1. rewrite (Hget k files (or_introl eq_refl)).
    destruct (for_each files (txt_file_body fs k) (F, T, I))
      as [[[F1 T1] I1]|e] eqn:Hin; simpl; [|discriminate].
    intros H.
    destruct (txt_files_loop fs k files F T I F1 T1 I1 Hin)
      as (segs & Hsegs & -> & -> & ->).
    destruct (IH _ _ _ (fun k' f' Hk => Hget k' f' (or_intror Hk)) H)
      as (groups & Hgroups & -> & -> & ->).
    exists (segs :: groups).
    unfold flat_paths, flat_transcriptions, flat_ids. simpl.
    rewrite <- !app_assoc. repeat split. now constructor.
Qed.

Lemma In_flat_ids (keys : list pystr) (groups : list (list segment)) x :
  In x (flat_ids keys groups) -> In x keys.
Proof.
  revert groups. induction keys as [|k keys IH]; intros [|g groups];
    unfold flat_ids; simpl; try tauto.
  rewrite in_app_iff. intros [H|H].
  - apply repeat_spec in H. now left.
  - right. exact (IH groups H).
Qed.

Lemma nth_error_repeat_Some {A} (a x : A) (n i : nat) :
  nth_error (repeat a n) i = Some x -> x = a.
Proof. intros H. apply nth_error_In in H. exact (repeat_spec n a x H). Qed.

(** In the list of ids the keys follow each other as in the dictionary. *)
Lemma flat_ids_order (keys : list pystr) (groups : list (list segment))
      (a b : pystr) (i j : nat) :
  NoDup keys -> before a b keys ->
  nth_error (flat_ids keys groups) i = Some a ->
  nth_error (flat_ids keys groups) j = Some b ->
  i < j.
Proof.
  revert groups i j. induction keys as [|k keys IH];
    intros groups i j Hnd (l1 & l2 & l3 & Hl) Hi Hj.
  - destruct l1; discriminate.
  - destruct groups as [|g groups];
      [unfold flat_ids in Hi; simpl in Hi; destruct i; discriminate|].
    inversion Hnd as [|? ? Hnotin Hnd']; subst.
    unfold flat_ids in Hi, Hj. simpl in Hi, Hj.
    fold (flat_ids keys groups) in Hi, Hj.
    set (n := List.length (group_paths g)) in *.
    assert (Hlen : List.length (repeat k n) = n) by apply repeat_length.
    destruct l1 as [|k' l1]; simpl in Hl; injection Hl as Hk Hkeys.
    + (* the first key is [a] *)
      subst k. assert (Hb : In b keys)
        by (rewrite Hkeys, in_app_iff; right; now left).
      assert (Hab : a <> b) by (intros ->; contradiction).
      destruct (Nat.lt_ge_cases j n) as [Hjn|Hjn].
      * rewrite nth_error_app1 in Hj by lia.
        apply nth_error_repeat_Some in Hj. congruence.
      * destruct (Nat.lt_ge_cases i n) as [Hin|Hin]; [lia|].
        rewrite nth_error_app2 in Hi by lia.
        apply nth_error_In, In_flat_ids in Hi. contradiction.
    + (* both keys come later *)
      subst k'.
      assert (Ha : In a keys)
        by (rewrite Hkeys, in_app_iff; right; now left).
      assert (Hb : In b keys)
        by (rewrite Hkeys; apply in_or_app; right; right;
            apply in_or_app; right; now left).
      destruct (Nat.lt_ge_cases i n) as [Hin|Hin].
      { rewrite nth_error_app1 in Hi by lia.
        apply nth_error_repeat_Some in Hi. congruence. }
      destruct (Nat.lt_ge_cases j n) as [Hjn|Hjn].
      { rewrite nth_error_app1 in Hj by lia.
        apply nth_error_repeat_Some in Hj. congruence. }
      rewrite nth_error_app2 in Hi, Hj by lia. rewrite Hlen in Hi, Hj.
      assert (i - n < j - n); [|lia].
      apply (IH groups (i - n) (j - n) Hnd'); try assumption.
      now exists l1, l2, l3.
Qed.

(** C7. The index follows the order of insertion.  When the builder
    returns, the dictionary of the walker has its keys in the order in which
    their first leaf was reached; the three lists of the index are the
    concatenation, key after key in that order and file after file in the
    order of discovery, of what the parser returned for each file, so the
    utterances of one transcript stand together, in the order of its lines;
    and when the key [a] stands before the key [b], that is, when a leaf of
    basename [a] is reached before any leaf of basename [b], every id [a]
    stands before every id [b]. *)
Theorem index_in_insertion_order :
  forall (fs : filesystem) (folder_path : pystr) (index : CorpusIndex),
    flacpath_transcription_id fs folder_path = Ok index ->
    exists (d : Dict.t (list pystr)) (groups : list (list segment)),
      _voice_txt_dict_from_path fs folder_path = Ok d
      /\ Dict.keys d
         = firsts [] (map (fun v => basename (visit_dir v))
                          (leaves fs folder_path))
      /\ Forall2
           (fun kv segs =>
              Forall2
                (fun f seg =>
                   exists content lines,
                     read_file fs f = Ok content
                     /\ Forall2 (fun x y => decode_strip x = Ok y)
                                (readlines content) lines
                     /\ seg = (map transcription_of lines,
                               map (flac_of (dirname f)) lines))
                (snd kv) segs)
           d groups
      /\ paths index = flat_paths groups
      /\ transcriptions index = flat_transcriptions groups
      /\ ids index = flat_ids (Dict.keys d) groups
      /\ (forall a b i j,
             before a b (Dict.keys d) ->
             nth_error (ids index) i = Some a ->
             nth_error (ids index) j = Some b ->
             i < j)
      /\ (forall a b l1 l2 i j,
             map (fun v => basename (visit_dir v)) (leaves fs folder_path)
             = l1 ++ a :: l2 ->
             ~ In a l1 -> ~ In b l1 -> a <> b ->
             nth_error (ids index) i = Some a ->
             nth_error (ids index) j = Some b ->
             i < j).
Proof.
  intros fs folder_path index. unfold flacpath_transcription_id.
  destruct (_voice_txt_dict_from_path fs folder_path) as [d|e] eqn:Hwalk;
    simpl; [|discriminate].
  destruct (for_each (Dict.keys d) (voice_id_body fs d) ([], [], []))
    as [[[F T] I]|e] eqn:Hloop; simpl; [|discriminate].
  intros H. injection H as <-. simpl.
  destruct (voice_txt_dict_returns fs folder_path d Hwalk) as (sel & HF & Hd).
  assert (Hnd : NoDup (Dict.keys d)) by (subst d; apply keys_add_all_NoDup).
  destruct (voice_ids_loop fs d d [] [] [] F T I
              (fun k files Hin => NoDup_keys_get d k files Hnd Hin) Hloop)
    as (groups & Hgroups & -> & -> & ->).
  assert (Hkeys : Dict.keys d
                  = firsts [] (map (fun v => basename (visit_dir v))
                                   (leaves fs folder_path))).
  { rewrite Hd, keys_add_all. simpl. f_equal. apply map_fst_combine.
    rewrite length_map. exact (Forall2_length HF). }
  exists d, groups. simpl.
  split; [reflexivity|]. split; [exact Hkeys|]. split.
  { revert Hgroups. apply Forall2_impl. intros kv segs.
    apply Forall2_impl. intros f [ts flacs] Hp.
    destruct (transcriptions_and_flac_inv fs f ts flacs Hp)
      as (content & lines & Hread & Hlines & -> & ->).
    now exists content, lines. }
  repeat split.
  - intros a b i j. now apply flat_ids_order.
  - intros a b l1 l2 i j Hleaves Ha1 Hb1 Hab Hi Hj.
    apply (flat_ids_order (Dict.keys d) groups a b i j Hnd); try assumption.
    assert (Hb : In b (l1 ++ a :: l2)).
    { rewrite <- Hleaves. apply nth_error_In, In_flat_ids in Hj.
      rewrite Hkeys in Hj. now apply firsts_spec in Hj. }
    rewrite Hkeys, Hleaves. apply firsts_before; try assumption; auto.
    apply in_app_iff in Hb. destruct Hb as [Hb|[Hb|Hb]];
      [contradiction|congruence|exact Hb].
Qed.

Lemma index_in_insertion_order_witness :
  exists index,
    flacpath_transcription_id Sample.corpus Sample.corpus_root = Ok index
    /\ ids index = [py "A"; py "A"; py "A"; py "B"]
    /\ (forall i j,
           nth_error (ids index) i = Some (py "A") ->
           nth_error (ids index) j = Some (py "B") ->
           i < j).
Proof.
  destruct (flacpath_transcription_id Sample.corpus Sample.corpus_root)
    as [index|e] eqn:Hrun; [|vm_compute in Hrun; discriminate].
  exists index.
  destruct (index_in_insertion_order Sample.corpus Sample.corpus_root index
              Hrun) as (d & groups & Hwalk & _ & _ & _ & _ & _ & Horder & _).
  split; [reflexivity|]. split.
  - vm_compute in Hrun. injection Hrun as <-. reflexivity.
  - intros i j. apply Horder.
    vm_compute in Hwalk. injection Hwalk as <-.
    exists [], [], []. reflexivity.
Defined.

(** ** Computations in the world *)

Lemma bind_Ok_inv {A B} (m : M A) (k : A -> M B) w b w' :
  bind m k w = (Ok b, w') ->
  exists a w1, m w = (Ok a, w1) /\ k a w1 = (Ok b, w').
Proof.
  unfold bind. destruct (m w) as [[a|e] w1]; [|discriminate].
  intros H. now exists a, w1.
Qed.

Lemma fetches_ret {A} (a : A) : fetches (ret a) 0 0.
Proof. intros w a' w' H. injection H as _ <-. lia. Qed.

Lemma fetches_raise {A} (e : exn) nd ne : fetches (@raise A e) nd ne.
Proof. intros w a w' H. discriminate. Qed.

Lemma fetches_bind {A B} (m : M A) (k : A -> M B) n1 e1 n2 e2 :
  fetches m n1 e1 -> (forall a, fetches (k a) n2 e2) ->
  fetches (bind m k) (n1 + n2) (e1 + e2).
Proof.
  intros Hm Hk w b w' H. apply bind_Ok_inv in H.
  destruct H as (a & w1 & H1 & H2).
  destruct (Hm _ _ _ H1), (Hk a _ _ _ H2). lia.
Qed.

Lemma fetches_ask {A} (f : filesystem -> A) : fetches (ask f) 0 0.
Proof. intros w a w' H. injection H as _ <-. lia. Qed.

Lemma fetches_try_read {A} (f : filesystem -> result A) :
  fetches (try_read f) 0 0.
Proof. intros w a w' H. unfold try_read in H. injection H as _ <-. lia. Qed.

Lemma fetches_syscall (f : filesystem -> result filesystem) :
  fetches (syscall f) 0 0.
Proof.
  intros w a w' H. unfold syscall in H.
  destruct (f (files w)); injection H as _ <-; simpl; lia.
Qed.

Lemma downloads_app (t t' : list event) :
  downloads (t ++ t') = downloads t + downloads t'.
Proof. unfold downloads. now rewrite filter_app, length_app. Qed.

Lemma extractions_app (t t' : list event) :
  extractions (t ++ t') = extractions t + extractions t'.
Proof. unfold extractions. now rewrite filter_app, length_app. Qed.

Lemma fetches_emit (e : event) :
  fetches (emit e) (if is_download e then 1 else 0)
          (if is_extract e then 1 else 0).
Proof.
  intros w a w' H. injection H as _ <-. simpl.
  rewrite downloads_app, extractions_app. unfold downloads, extractions.
  simpl. destruct (is_download e), (is_extract e); simpl; lia.
Qed.

Lemma fetches_print (line : pystr) : fetches (print line) 0 0.
Proof. exact (fetches_emit (Print line)). Qed.

Lemma fetches_when (b : bool) (m : M unit) :
  fetches m 0 0 -> fetches (when b m) 0 0.
Proof. intros Hm. destruct b; [exact Hm|apply fetches_ret]. Qed.

Lemma fetches_for {A} (xs : list A) (body : A -> M unit) :
  (forall x, fetches (body x) 0 0) -> fetches (for_ xs body) 0 0.
Proof.
  intros Hb. induction xs as [|x xs IH]; simpl; [apply fetches_ret|].
  exact (fetches_bind _ _ 0 0 0 0 (Hb x) (fun _ => IH)).
Qed.

Lemma keeps_files_ret {A} (a : A) : keeps_files (ret a).
Proof. intros w r w' H. now injection H as _ <-. Qed.

Lemma keeps_files_raise {A} (e : exn) : keeps_files (@raise A e).
Proof. intros w r w' H. now injection H as _ <-. Qed.

Lemma keeps_files_bind {A B} (m : M A) (k : A -> M B) :
  keeps_files m -> (forall a, keeps_files (k a)) -> keeps_files (bind m k).
Proof.
  intros Hm Hk w r w' H. unfold bind in H.
  destruct (m w) as [[a|e] w1] eqn:Hmw.
  - rewrite (Hk a _ _ _ H). exact (Hm _ _ _ Hmw).
  - injection H as _ <-. exact (Hm _ _ _ Hmw).
Qed.

Lemma keeps_files_ask {A} (f : filesystem -> A) : keeps_files (ask f).
Proof. intros w r w' H. now injection H as _ <-. Qed.

Lemma keeps_files_try_read {A} (f : filesystem -> result A) :
  keeps_files (try_read f).
Proof. intros w r w' H. unfold try_read in H. now injection H as _ <-. Qed.

Lemma keeps_files_emit (e : event) : keeps_files (emit e).
Proof. intros w r w' H. now injection H as _ <-. Qed.

Lemma keeps_files_print (line : pystr) : keeps_files (print line).
Proof. exact (keeps_files_emit (Print line)). Qed.

Lemma keeps_files_when (b : bool) (m : M unit) :
  keeps_files m -> keeps_files (when b m).
Proof. intros Hm. destruct b; [exact Hm|apply keeps_files_ret]. Qed.

Lemma keeps_files_for {A} (xs : list A) (body : A -> M unit) :
  (forall x, In x xs -> keeps_files (body x)) -> keeps_files (for_ xs body).
Proof.
  induction xs as [|x xs IH]; intros Hb; simpl; [apply keeps_files_ret|].
  apply keeps_files_bind; [apply Hb; now left|].
  intros _. apply IH. intros y Hy. apply Hb. now right.
Qed.

Lemma preserves_keeps {A} (P : filesystem -> Prop) (m : M A) :
  keeps_files m -> preserves P m.
Proof. intros Hk w r w' HP Hrun. now rewrite (Hk w r w' Hrun). Qed.

Lemma preserves_bind {A B} (P : filesystem -> Prop) (m : M A) (k : A -> M B) :
  preserves P m -> (forall a, preserves P (k a)) -> preserves P (bind m k).
Proof.
  intros Hm Hk w r w' HP Hrun. unfold bind in Hrun.
  destruct (m w) as [[a|e] w1] eqn:Hmw.
  - exact (Hk a w1 r w' (Hm w (Ok a) w1 HP Hmw) Hrun).
  - injection Hrun as _ <-. exact (Hm w (Raise e) w1 HP Hmw).
Qed.

Lemma preserves_for {A} (P : filesystem -> Prop) (xs : list A)
      (body : A -> M unit) :
  (forall x, In x xs -> preserves P (body x)) -> preserves P (for_ xs body).
Proof.
  induction xs as [|x xs IH]; intros Hb; simpl.
  - apply preserves_keeps, keeps_files_ret.
  - apply preserves_bind; [apply Hb; now left|].
    intros _. apply IH. intros y Hy. apply Hb. now right.
Qed.

Lemma preserves_syscall (P : filesystem -> Prop)
      (f : filesystem -> result filesystem) :
  (forall fs fs', P fs -> f fs = Ok fs' -> P fs') -> preserves P (syscall f).
Proof.
  intros Hf w r w' HP Hrun. unfold syscall in Hrun.
  destruct (f (files w)) as [fs'|e] eqn:Hfs; injection Hrun as _ <-.
  - exact (Hf _ _ HP Hfs).
  - exact HP.
Qed.

Lemma bind_ask {A B} (f : filesystem -> A) (k : A -> M B) (w : world) :
  bind (ask f) k w = k (f (files w)) w.
Proof. reflexivity. Qed.

Lemma only_prints_nil (verbose : bool) : only_prints verbose [].
Proof. destruct verbose; [constructor|reflexivity]. Qed.

Lemma only_prints_app (verbose : bool) (t t' : list event) :
  only_prints verbose t -> only_prints verbose t' ->
  only_prints verbose (t ++ t').
Proof.
  destruct verbose; simpl.
  - intros H H'. apply Forall_app. now split.
  - now intros -> ->.
Qed.

Lemma only_prints_counts (verbose : bool) (t : list event) :
  only_prints verbose t -> downloads t = 0 /\ extractions t = 0.
Proof.
  destruct verbose; simpl; [|now intros ->].
  unfold downloads, extractions.
  induction 1 as [|e t He _ IH]; simpl; [now split|].
  destruct e; simpl in *; try discriminate. exact IH.
Qed.

Lemma world_eta (w : world) : mkWorld (files w) (trace w ++ []) = w.
Proof. destruct w. simpl. now rewrite app_nil_r. Qed.

(** A loop whose body, on the files as they are, only prints. *)
Lemma for_only_prints {A} (verbose : bool) (xs : list A) (body : A -> M unit)
      (fs : filesystem) :
  (forall x w, In x xs -> files w = fs ->
               exists t, body x w = (Ok tt, mkWorld fs (trace w ++ t))
                         /\ only_prints verbose t) ->
  forall w, files w = fs ->
            exists t, for_ xs body w = (Ok tt, mkWorld fs (trace w ++ t))
                      /\ only_prints verbose t.
Proof.
  induction xs as [|x xs IH]; intros Hbody w Hw; simpl.
  - exists []. split; [|apply only_prints_nil].
    unfold ret. now rewrite <- Hw, world_eta.
  - destruct (Hbody x w (or_introl eq_refl) Hw) as (t1 & H1 & Hp1).
    unfold bind. rewrite H1.
    destruct (IH (fun y w' Hy => Hbody y w' (or_intror Hy))
                 (mkWorld fs (trace w ++ t1)) eq_refl) as (t2 & H2 & Hp2).
    rewrite H2. simpl. exists (t1 ++ t2).
    split; [now rewrite app_assoc|now apply only_prints_app].
Qed.

Section Fetching.

Variable http_get : pystr -> option bytes.
Variable untar : bytes -> option (list member).

Lemma fetches_urlretrieve (url filename : pystr) :
  fetches (urlretrieve http_get url filename) 1 0.
Proof.
  unfold urlretrieve.
  apply (fetches_bind _ _ 1 0 0 0 (fetches_emit (Download url filename))).
  intros _. destruct (http_get url);
    [apply fetches_syscall|apply fetches_raise].
Qed.

Lemma fetches_extractall (tar_file_path dest : pystr) :
  fetches (extractall untar tar_file_path dest) 0 1.
Proof.
  unfold extractall.
  apply (fetches_bind _ _ 0 1 0 0 (fetches_emit (Extract tar_file_path dest))).
  intros _.
  apply (fetches_bind _ _ 0 0 0 0 (fetches_try_read _)).
  intros content. destruct (untar content) as [members|];
    [|apply fetches_raise].
  apply fetches_for. intros m. apply fetches_syscall.
Qed.

(** With the folder and every selected dataset in place, nothing is
    fetched and the files stay as they are. *)
Lemma maybe_download_skips (folder_dir : pystr) (folder_names : list pystr)
      (verbose : bool) (w : world) :
  exists_ (files w) folder_dir = true ->
  (forall fname, In fname folder_names ->
                 exists_ (files w) (join folder_dir fname) = true) ->
  exists t,
    _maybe_download_and_extract http_get untar folder_dir folder_names
                                verbose w
    = (Ok tt, mkWorld (files w) (trace w ++ t))
    /\ only_prints verbose t.
Proof.
  intros Hdir Hall. unfold _maybe_download_and_extract.
  rewrite bind_ask, Hdir. simpl negb. unfold when at 1.
  change (bind (ret tt) ?k w) with (k tt w). cbv beta.
  apply (for_only_prints verbose folder_names _ (files w)); [|reflexivity].
  intros fname w1 Hin Hw1. rewrite bind_ask, Hw1, (Hall fname Hin).
  simpl negb. cbv iota. destruct verbose; simpl.
  - unfold print, emit. rewrite Hw1. eexists. split; [reflexivity|].
    repeat constructor.
  - exists []. split; [|reflexivity]. unfold ret.
    now rewrite <- Hw1, world_eta.
Qed.

(** A dataset that is missing is fetched once. *)
Lemma maybe_download_fetches_once (folder_dir fname : pystr) (verbose : bool)
      (w w1 : world) :
  exists_ (files w) folder_dir = true ->
  exists_ (files w) (join folder_dir fname) = false ->
  _maybe_download_and_extract http_get untar folder_dir [fname] verbose w
  = (Ok tt, w1) ->
  downloads (trace w1) = downloads (trace w) + 1
  /\ extractions (trace w1) = extractions (trace w) + 1.
Proof.
  intros Hdir Hmiss. unfold _maybe_download_and_extract.
  rewrite bind_ask, Hdir. simpl negb. unfold when at 1.
  change (bind (ret tt) ?k w) with (k tt w). cbv beta.
  simpl for_. intros Hrun. apply bind_Ok_inv in Hrun.
  destruct Hrun as ([] & w' & Hbody & Hret). injection Hret as ->.
  rewrite bind_ask, Hmiss in Hbody. simpl negb in Hbody. cbv iota in Hbody.
  revert Hbody.
  match goal with
  | |- ?m w = _ -> _ => assert (Hf : fetches m 1 1)
  end.
  { apply (fetches_bind _ _ 0 0 1 1).
    - apply fetches_when, fetches_print.
    - intros _. apply (fetches_bind _ _ 1 0 0 1).
      + destruct verbose; [|apply fetches_urlretrieve].
        apply (fetches_bind _ _ 0 0 1 0 (fetches_print _)). intros _.
        apply (fetches_bind _ _ 1 0 0 0 (fetches_urlretrieve _ _)). intros _.
        apply (fetches_bind _ _ 0 0 0 0 (fetches_print _)). intros _.
        apply fetches_print.
      + intros _. apply fetches_extractall. }
  intros Hbody. exact (Hf w tt w1 Hbody).
Qed.

End Fetching.

(** ** The file system *)

Lemma find_entry_set_entry (c m : pystr) (new : node) es :
  find_entry m (set_entry c new es)
  = if str_eqb c m then Some new else find_entry m es.
Proof.
  induction es as [|[k n] es IH]; simpl.
  - reflexivity.
  - destruct (str_eqb k c) eqn:Hkc; simpl.
    + apply str_eqb_eq in Hkc. subst k. destruct (str_eqb c m); reflexivity.
    + destruct (str_eqb k m) eqn:Hkm; [|exact IH].
      apply str_eqb_eq in Hkm. subst k.
      now rewrite (str_eqb_sym c m), Hkc.
Qed.

Lemma find_entry_remove_entry (c m : pystr) es :
  find_entry m (remove_entry c es)
  = if str_eqb c m then None else find_entry m es.
Proof.
  unfold remove_entry. induction es as [|[k n] es IH]; simpl.
  - now destruct (str_eqb c m).
  - destruct (str_eqb k c) eqn:Hkc; simpl.
    + apply str_eqb_eq in Hkc. subst k. rewrite IH.
      destruct (str_eqb c m); reflexivity.
    + rewrite IH. destruct (str_eqb k m) eqn:Hkm; [|reflexivity].
      apply str_eqb_eq in Hkm. subst k.
      now rewrite (str_eqb_sym c m), Hkc.
Qed.

Lemma local_edit_set_entry (name : pystr) (new : node) :
  local_edit name (set_entry name new).
Proof.
  intros es m Hm. rewrite find_entry_set_entry.
  assert (str_eqb name m = false) as ->
      by (apply str_eqb_neq; congruence).
  reflexivity.
Qed.

Lemma local_edit_remove_entry (name : pystr) :
  local_edit name (remove_entry name).
Proof.
  intros es m Hm. rewrite find_entry_remove_entry.
  assert (str_eqb name m = false) as ->
      by (apply str_eqb_neq; congruence).
  reflexivity.
Qed.

Lemma find_entry_In (m : pystr) es (n : node) :
  find_entry m es = Some n -> In (m, n) es.
Proof.
  induction es as [|[k n'] es IH]; simpl; [discriminate|].
  destruct (str_eqb k m) eqn:Hk.
  - apply str_eqb_eq in Hk. subst k. intros H. injection H as ->. now left.
  - intros H. right. now apply IH.
Qed.

Lemma In_find_entry (m : pystr) es :
  In m (entry_names es) -> exists n, find_entry m es = Some n.
Proof.
  unfold entry_names. induction es as [|[k n'] es IH]; simpl; [tauto|].
  destruct (str_eqb k m) eqn:Hk; [now exists n'|].
  intros [->|Hin]; [|now apply IH].
  now rewrite str_eqb_refl in Hk.
Qed.

Lemma lookup_app (r : node) (p q : list pystr) :
  lookup r (p ++ q)
  = match lookup r p with Some n => lookup n q | None => None end.
Proof.
  revert r. induction p as [|c p IH]; intros r; simpl; [reflexivity|].
  destruct r as [data|es]; [reflexivity|].
  destruct (find_entry c es) as [child|]; [apply IH|reflexivity].
Qed.

Lemma lookup_snoc (r : node) (p : list pystr) (name : pystr) es :
  lookup r p = Some (Dir es) -> lookup r (p ++ [name]) = find_entry name es.
Proof.
  intros H. rewrite lookup_app, H. simpl.
  now destruct (find_entry name es).
Qed.

Lemma lookup_file_below (data : bytes) (q : list pystr) :
  q <> [] -> lookup (File data) q = None.
Proof. destruct q; [congruence|reflexivity]. Qed.

(** Below an entry that is no directory there is nothing. *)
Lemma lookup_below_not_dir (o : option node) (rest : list pystr) :
  not_dir o -> rest <> [] ->
  match o with Some n => lookup n rest | None => None end = None.
Proof.
  destruct o as [[data|es]|]; simpl; try tauto.
  intros _ Hrest. now apply lookup_file_below.
Qed.

(** Editing one entry of the directory at [p], when the entry is no
    directory before and after, changes nothing at any other path. *)
Lemma kind_at_update_dir (f : list (pystr * node) -> list (pystr * node))
      (name : pystr) :
  local_edit name f ->
  forall (p : list pystr) (r : node) es (q : list pystr),
    lookup r p = Some (Dir es) ->
    not_dir (find_entry name es) ->
    not_dir (find_entry name (f es)) ->
    q <> p ++ [name] ->
    kind_at (update_dir f p r) q = kind_at r q.
Proof.
  intros Hf. induction p as [|c p IH]; intros r es q Hl Hold Hnew Hq.
  - simpl in Hl. injection Hl as ->. simpl.
    destruct q as [|m rest]; [reflexivity|].
    unfold kind_at. simpl.
    destruct (str_eqb m name) eqn:Hm.
    + apply str_eqb_eq in Hm. subst m.
      assert (Hrest : rest <> []) by (intros ->; now apply Hq).
      now rewrite (lookup_below_not_dir _ rest Hold Hrest),
        (lookup_below_not_dir _ rest Hnew Hrest).
    + apply str_eqb_neq in Hm. now rewrite (Hf es m Hm).
  - simpl in Hl. destruct r as [data|es0]; [discriminate|].
    destruct (find_entry c es0) as [child|] eqn:Hc; [|discriminate].
    simpl. rewrite Hc.
    destruct q as [|m rest]; [reflexivity|].
    unfold kind_at. simpl. rewrite find_entry_set_entry.
    destruct (str_eqb c m) eqn:Hcm.
    + apply str_eqb_eq in Hcm. subst m. rewrite Hc.
      apply (IH child es rest Hl Hold Hnew).
      intros ->. now apply Hq.
    + reflexivity.
Qed.

Lemma lookup_update_dir_at (f : list (pystr * node) -> list (pystr * node))
      (name : pystr) (p : list pystr) (r : node) es :
  lookup r p = Some (Dir es) ->
  lookup (update_dir f p r) (p ++ [name]) = find_entry name (f es).
Proof.
  revert r. induction p as [|c p IH]; intros r Hl.
  - simpl in Hl. injection Hl as ->. simpl.
    now destruct (find_entry name (f es)).
  - simpl in Hl. destruct r as [data|es0]; [discriminate|].
    destruct (find_entry c es0) as [child|] eqn:Hc; [|discriminate].
    simpl. rewrite Hc. simpl.
    rewrite find_entry_set_entry, str_eqb_refl. now apply IH.
Qed.

Lemma is_dir_at_kind (r : node) (q : list pystr) :
  is_dir_at r q = match kind_at r q with Some KDir => true | _ => false end.
Proof.
  unfold is_dir_at, kind_at. now destruct (lookup r q) as [[data|es]|].
Qed.

Lemma not_dir_is_dir_at (r : node) (q : list pystr) :
  not_dir (lookup r q) -> is_dir_at r q = false.
Proof. unfold is_dir_at. now destruct (lookup r q) as [[data|es]|]. Qed.

(** Such an edit creates and removes no directory. *)
Lemma is_dir_at_update_dir (f : list (pystr * node) -> list (pystr * node))
      (name : pystr) (p : list pystr) (r : node) es (q : list pystr) :
  local_edit name f ->
  lookup r p = Some (Dir es) ->
  not_dir (find_entry name es) ->
  not_dir (find_entry name (f es)) ->
  is_dir_at (update_dir f p r) q = is_dir_at r q.
Proof.
  intros Hf Hl Hold Hnew.
  destruct (list_eq_dec (list_eq_dec N.eq_dec) q (p ++ [name])) as [->|Hq].
  - rewrite !not_dir_is_dir_at; [reflexivity| |].
    + now rewrite (lookup_snoc r p name es Hl).
    + now rewrite (lookup_update_dir_at f name p r es Hl).
  - rewrite !is_dir_at_kind.
    now rewrite (kind_at_update_dir f name Hf p r es q Hl Hold Hnew Hq).
Qed.

Lemma fold_left_ext {A B} (f g : A -> B -> A) (l : list B) (a : A) :
  (forall x y, f x y = g x y) -> fold_left f l a = fold_left g l a.
Proof.
  intros H. revert a. induction l as [|b l IH]; intros a; simpl;
    [reflexivity|]. now rewrite H, IH.
Qed.

(** Resolving a path looks at the tree only to ask which paths are
    directories. *)
Lemma canon_ext (fs fs' : filesystem) (p : pystr) :
  cwd fs' = cwd fs ->
  (forall q, is_dir_at (root fs') q = is_dir_at (root fs) q) ->
  canon fs' p = canon fs p.
Proof.
  intros Hcwd Hdirs. unfold canon. destruct p as [|c p]; [reflexivity|].
  rewrite Hcwd. apply fold_left_ext. intros [cur|] comp; simpl; [|reflexivity].
  now rewrite Hdirs.
Qed.

Lemma removelast_last_eq (cp : list pystr) :
  cp <> [] -> cp = parent cp ++ [leaf_name cp].
Proof. intros H. now apply app_removelast_last. Qed.

Lemma fold_resolve_None (r : node) (l : list pystr) :
  fold_left (resolve_step r) l None = None.
Proof. induction l as [|c l IH]; simpl; [reflexivity|exact IH]. Qed.

Lemma resolve_step_not_dir (r : node) (cur : list pystr) (c : pystr) :
  is_dir_at r cur = false -> resolve_step r (Some cur) c = None.
Proof. intros H. unfold resolve_step. now rewrite H. Qed.

(** Resolution starts in a directory. *)
Lemma resolve_starts_in_dir (r : node) (l : list pystr)
      (start cp : list pystr) :
  l <> [] -> fold_left (resolve_step r) l (Some start) = Some cp ->
  is_dir_at r start = true.
Proof.
  destruct l as [|c l]; [congruence|]. intros _ H.
  destruct (is_dir_at r start) eqn:Hd; [reflexivity|].
  cbn [fold_left] in H.
  now rewrite (resolve_step_not_dir r start c Hd), fold_resolve_None in H.
Qed.

Lemma is_dir_at_root (r : node) (q : list pystr) :
  is_dir_at r q = true -> is_dir r = true.
Proof.
  unfold is_dir_at. destruct q as [|c q]; simpl.
  - now destruct r.
  - destruct r; [discriminate|reflexivity].
Qed.

Lemma canon_Some_root_dir (fs : filesystem) (p : pystr) (cp : list pystr) :
  canon fs p = Some cp -> is_dir (root fs) = true.
Proof.
  unfold canon. destruct p as [|c p]; [discriminate|]. intros H.
  apply resolve_starts_in_dir in H; [|apply split_char_nonempty].
  exact (is_dir_at_root _ _ H).
Qed.

(** What a successful [os.remove] did. *)
Lemma remove_Ok (fs fs' : filesystem) (p : pystr) :
  remove fs p = Ok fs' ->
  exists d name data es,
    canon fs p = Some (d ++ [name])
    /\ lookup (root fs) d = Some (Dir es)
    /\ find_entry name es = Some (File data)
    /\ fs' = with_root fs (update_dir (remove_entry name) d (root fs)).
Proof.
  unfold remove. destruct (canon fs p) as [cp|] eqn:Hc; [|discriminate].
  destruct (lookup (root fs) cp) as [[data|es']|] eqn:Hl; try discriminate.
  intros H. injection H as <-.
  assert (Hcp : cp <> []).
  { intros ->. simpl in Hl. apply canon_Some_root_dir in Hc.
    assert (Hroot : root fs = File data) by congruence.
    rewrite Hroot in Hc. discriminate. }
  rewrite (removelast_last_eq cp Hcp), lookup_app in Hl.
  destruct (lookup (root fs) (parent cp)) as [[d0|es]|] eqn:Hp;
    try discriminate.
  exists (parent cp), (leaf_name cp), data, es.
  split; [now rewrite <- (removelast_last_eq cp Hcp)|].
  split; [exact Hp|]. split; [|reflexivity].
  simpl in Hl. now destruct (find_entry (leaf_name cp) es).
Qed.

(** What a successful write did. *)
Lemma write_file_Ok (fs fs' : filesystem) (p : pystr) (data : bytes) :
  write_file fs p data = Ok fs' ->
  exists d name es,
    canon fs p = Some (d ++ [name])
    /\ lookup (root fs) d = Some (Dir es)
    /\ not_dir (find_entry name es)
    /\ fs' = with_root fs (update_dir (set_entry name (File data)) d
                                      (root fs)).
Proof.
  unfold write_file. destruct (canon fs p) as [cp|] eqn:Hc; [|discriminate].
  intros H.
  assert (Hnd : not_dir (lookup (root fs) cp)
                /\ is_dir_at (root fs) (parent cp) = true
                /\ fs' = with_root fs
                           (update_dir (set_entry (leaf_name cp) (File data))
                                       (parent cp) (root fs))).
  { destruct (lookup (root fs) cp) as [[d0|es']|]; try discriminate;
      destruct (is_dir_at (root fs) (parent cp)); try discriminate;
      injection H as <-; simpl; auto. }
  clear H. destruct Hnd as (Hnd & Hpar & ->).
  assert (Hcp : cp <> []).
  { intros ->. unfold parent in Hpar. simpl in Hpar. unfold is_dir_at in Hpar.
    simpl in *. now destruct (root fs). }
  unfold is_dir_at in Hpar.
  destruct (lookup (root fs) (parent cp)) as [[d0|es]|] eqn:Hp;
    try discriminate.
  exists (parent cp), (leaf_name cp), es.
  split; [now rewrite <- (removelast_last_eq cp Hcp)|].
  split; [exact Hp|]. split; [|reflexivity].
  rewrite (removelast_last_eq cp Hcp), (lookup_snoc _ _ _ es Hp) in Hnd.
  exact Hnd.
Qed.

(** A file that was written can be read back under the same path. *)
Lemma read_after_write (fs fs' : filesystem) (p : pystr) (data : bytes) :
  write_file fs p data = Ok fs' -> read_file fs' p = Ok data.
Proof.
  intros H. destruct (write_file_Ok fs fs' p data H)
    as (d & name & es & Hc & Hd & Hold & ->).
  set (r' := update_dir (set_entry name (File data)) d (root fs)).
  assert (Hcanon : canon (with_root fs r') p = canon fs p).
  { apply canon_ext; [reflexivity|]. intros q. simpl.
    apply (is_dir_at_update_dir _ name d (root fs) es q
             (local_edit_set_entry name (File data)) Hd Hold).
    now rewrite find_entry_set_entry, str_eqb_refl. }
  unfold read_file, stat. rewrite Hcanon, Hc. simpl. unfold r'.
  rewrite (lookup_update_dir_at _ name d (root fs) es Hd).
  now rewrite find_entry_set_entry, str_eqb_refl.
Qed.

(** A write changes nothing at any other place. *)
Lemma write_file_frame (fs fs' : filesystem) (p : pystr) (data : bytes)
      (cp : list pystr) :
  write_file fs p data = Ok fs' -> canon fs p = Some cp ->
  forall q, q <> cp -> kind_at (root fs') q = kind_at (root fs) q.
Proof.
  intros H Hcp q Hq. destruct (write_file_Ok fs fs' p data H)
    as (d & name & es & Hc & Hd & Hold & ->).
  rewrite Hc in Hcp. injection Hcp as <-. simpl.
  apply (kind_at_update_dir _ name (local_edit_set_entry name (File data))
           d (root fs) es q Hd Hold); [|exact Hq].
  now rewrite find_entry_set_entry, str_eqb_refl.
Qed.

(** After a write, a file that could be read holds what it held, or what
    was written. *)
Lemma read_after_other_write (fs fs' : filesystem) (p p2 : pystr)
      (data data2 : bytes) :
  write_file fs p2 data2 = Ok fs' ->
  read_file fs p = Ok data ->
  read_file fs' p = Ok data \/ read_file fs' p = Ok data2.
Proof.
  intros Hw Hr.
  destruct (write_file_Ok fs fs' p2 data2 Hw)
    as (d & name & es & Hc2 & Hd & Hold & Hfs').
  assert (Hnew : not_dir (find_entry name (set_entry name (File data2) es)))
    by now rewrite find_entry_set_entry, str_eqb_refl.
  assert (Hcanon : canon fs' p = canon fs p).
  { subst fs'. apply canon_ext; [reflexivity|]. intros q. simpl.
    exact (is_dir_at_update_dir _ name d (root fs) es q
             (local_edit_set_entry name (File data2)) Hd Hold Hnew). }
  unfold read_file, stat in Hr |- *. rewrite Hcanon.
  destruct (canon fs p) as [cp|] eqn:Hcp; [|discriminate].
  destruct (list_eq_dec (list_eq_dec N.eq_dec) cp (d ++ [name])) as [->|Hne].
  - right. subst fs'. simpl.
    rewrite (lookup_update_dir_at _ name d (root fs) es Hd).
    now rewrite find_entry_set_entry, str_eqb_refl.
  - left. pose proof (write_file_frame fs fs' p2 data2 _ Hw Hc2 cp Hne) as Hk.
    unfold kind_at in Hk.
    destruct (lookup (root fs) cp) as [[d0|es0]|]; try discriminate.
    injection Hr as ->.
    destruct (lookup (root fs') cp) as [[d1|es1]|]; simpl in Hk;
      try discriminate.
    now injection Hk as ->.
Qed.

Lemma syscall_Ok_inv (f : filesystem -> result filesystem) (w w' : world) a :
  syscall f w = (Ok a, w') ->
  f (files w) = Ok (files w') /\ trace w' = trace w.
Proof.
  unfold syscall. destruct (f (files w)) as [fs'|e]; [|discriminate].
  intros H. injection H as _ <-. now split.
Qed.

Lemma try_read_Ok_inv {A} (f : filesystem -> result A) (w w' : world) a :
  try_read f w = (Ok a, w') -> f (files w) = Ok a /\ w' = w.
Proof. unfold try_read. intros H. injection H as H <-. now split. Qed.

Section Saving.

Variable pickle_dumps : CorpusIndex -> bytes.

(** One folder: the index is built from the files as they are and written
    to [master.pkl] in the folder. *)
Lemma initialize_body_Ok (folder_dir fname : pystr) (verbose : bool)
      (w w' : world) :
  initialize_body pickle_dumps folder_dir verbose fname w = (Ok tt, w') ->
  exists index,
    exists_ (files w) (join folder_dir fname) = true
    /\ flacpath_transcription_id (files w) (join folder_dir fname) = Ok index
    /\ write_file (files w) (join (join folder_dir fname) (py "master.pkl"))
                  (pickle_dumps index)
       = Ok (files w').
Proof.
  unfold initialize_body. intros Hbody.
  apply bind_Ok_inv in Hbody. destruct Hbody as ([] & w2 & Hprint & Hrest).
  assert (Hw2 : files w2 = files w).
  { exact (keeps_files_when verbose _ (keeps_files_print _) w (Ok tt) w2
                             Hprint). }
  rewrite bind_ask, Hw2 in Hrest.
  destruct (exists_ (files w) (join folder_dir fname)) eqn:Hex;
    simpl negb in Hrest; cbv iota in Hrest; [|discriminate].
  apply bind_Ok_inv in Hrest. destruct Hrest as (index & w3 & Hbuild & Hwrite).
  apply try_read_Ok_inv in Hbuild. destruct Hbuild as [Hbuild ->].
  apply syscall_Ok_inv in Hwrite. destruct Hwrite as [Hwrite _].
  rewrite Hw2 in Hbuild, Hwrite. now exists index.
Qed.

(** A pickle that can be read stays a pickle that can be read: the loop
    writes pickles only. *)
Lemma initialize_keeps_pickles (folder_dir : pystr) (folder_names : list pystr)
      (save_folder : pystr) (verbose : bool) (p : pystr) :
  preserves (fun fs => exists index, read_file fs p = Ok (pickle_dumps index))
            (librispeech_initialize pickle_dumps folder_dir folder_names
                                    save_folder verbose).
Proof.
  unfold librispeech_initialize. apply preserves_for. intros fname _.
  unfold initialize_body. apply preserves_bind.
  { apply preserves_keeps, keeps_files_when, keeps_files_print. }
  intros _. apply preserves_bind.
  { apply preserves_keeps, keeps_files_ask. }
  intros found. destruct (negb found).
  { apply preserves_keeps, keeps_files_raise. }
  apply preserves_bind.
  { apply preserves_keeps, keeps_files_try_read. }
  intros data. apply preserves_syscall.
  intros fs fs' [index Hread] Hwrite.
  destruct (read_after_other_write fs fs' p _ _ _ Hwrite Hread) as [H|H].
  - now exists index.
  - now exists data.
Qed.

(** C10. [save_folder] has no effect.  Two calls that differ in this
    argument only are the same computation.  A call for one folder that
    returns has built the index from [folder_dir/fname] and written its
    pickle to [folder_dir/fname/master.pkl], where it can be read back; no
    other path of the tree has changed.  After a call for several folders
    that returns, [folder_dir/fname/master.pkl] holds the pickle of an
    index for every one of them. *)
Theorem save_folder_is_ignored :
  forall (folder_dir : pystr) (verbose : bool),
    (forall (folder_names : list pystr) (save_folder1 save_folder2 : pystr)
            (w : world),
        librispeech_initialize pickle_dumps folder_dir folder_names
                               save_folder1 verbose w
        = librispeech_initialize pickle_dumps folder_dir folder_names
                                 save_folder2 verbose w)
    /\ (forall (fname save_folder : pystr) (w w' : world),
           librispeech_initialize pickle_dumps folder_dir [fname] save_folder
                                  verbose w = (Ok tt, w') ->
           exists index cp,
             flacpath_transcription_id (files w) (join folder_dir fname)
             = Ok index
             /\ canon (files w)
                      (join (join folder_dir fname) (py "master.pkl"))
                = Some cp
             /\ read_file (files w')
                          (join (join folder_dir fname) (py "master.pkl"))
                = Ok (pickle_dumps index)
             /\ (forall q, q <> cp ->
                           kind_at (root (files w')) q
                           = kind_at (root (files w)) q))
    /\ (forall (folder_names : list pystr) (save_folder : pystr)
               (w w' : world),
           librispeech_initialize pickle_dumps folder_dir folder_names
                                  save_folder verbose w = (Ok tt, w') ->
           forall fname,
             In fname folder_names ->
             exists index,
               read_file (files w')
                         (join (join folder_dir fname) (py "master.pkl"))
               = Ok (pickle_dumps index)).
Proof.
  intros folder_dir verbose. split; [reflexivity|]. split.
  - intros fname save_folder w w' Hrun.
    unfold librispeech_initialize in Hrun. simpl for_ in Hrun.
    apply bind_Ok_inv in Hrun. destruct Hrun as ([] & w1 & Hbody & Hret).
    injection Hret as ->.
    destruct (initialize_body_Ok folder_dir fname verbose w w' Hbody)
      as (index & _ & Hbuild & Hwrite).
    destruct (write_file_Ok _ _ _ _ Hwrite) as (d & name & es & Hc & _).
    exists index, (d ++ [name]). repeat split.
    + exact Hbuild.
    + exact Hc.
    + exact (read_after_write _ _ _ _ Hwrite).
    + exact (write_file_frame _ _ _ _ _ Hwrite Hc).
  - intros folder_names save_folder.
    induction folder_names as [|x xs IH]; intros w w' Hrun fname Hin;
      [destruct Hin|].
    unfold librispeech_initialize in Hrun. simpl for_ in Hrun.
    apply bind_Ok_inv in Hrun. destruct Hrun as ([] & w1 & Hone & Hrest).
    destruct Hin as [<-|Hin]; [|exact (IH w1 w' Hrest fname Hin)].
    destruct (initialize_body_Ok folder_dir x verbose w w1 Hone)
      as (index & _ & _ & Hwrite).
    exact (initialize_keeps_pickles folder_dir xs save_folder verbose _
             w1 (Ok tt) w'
             (ex_intro _ index (read_after_write _ _ _ _ Hwrite)) Hrest).
Qed.

End Saving.

Lemma save_folder_is_ignored_witness :
  exists w' index,
    librispeech_initialize sample_pickle (py "/data") [py "dev-clean"]
                           (py "/somewhere/else") false
                           (mkWorld Sample.corpus [])
    = (Ok tt, w')
    /\ flacpath_transcription_id Sample.corpus (join (py "/data")
                                                     (py "dev-clean"))
       = Ok index
    /\ read_file (files w')
                 (join (join (py "/data") (py "dev-clean")) (py "master.pkl"))
       = Ok (sample_pickle index).
Proof.
  pose (w' := snd (librispeech_initialize
                     sample_pickle (py "/data") [py "dev-clean"]
                     (py "/somewhere/else") false (mkWorld Sample.corpus []))).
  assert (Hrun : librispeech_initialize
                   sample_pickle (py "/data") [py "dev-clean"]
                   (py "/somewhere/else") false (mkWorld Sample.corpus [])
                 = (Ok tt, w'))
    by (vm_compute; reflexivity).
  destruct (proj1 (proj2 (save_folder_is_ignored sample_pickle (py "/data")
                                                 false))
              (py "dev-clean") (py "/somewhere/else")
              (mkWorld Sample.corpus []) w' Hrun)
    as (index & cp & Hbuild & _ & Hread & _).
  exists w', index. repeat split; assumption.
Defined.

(** ** Paths and their components *)

Lemma split_char_app (sep : N) (a b : pystr) :
  split_char sep (a ++ sep :: b) = split_char sep a ++ split_char sep b.
Proof.
  induction a as [|c a IH]; simpl.
  - now rewrite N.eqb_refl.
  - destruct (c =? sep)%N; [now rewrite IH|].
    rewrite IH. pose proof (split_char_nonempty sep a) as Hne.
    destruct (split_char sep a) as [|w ws]; [contradiction|reflexivity].
Qed.

Lemma split_char_no_sep (sep : N) (b : pystr) :
  existsb (N.eqb sep) b = false -> split_char sep b = [b].
Proof.
  induction b as [|c b IH]; simpl; [reflexivity|].
  rewrite orb_false_iff, N.eqb_sym. intros [-> Hb]. now rewrite (IH Hb).
Qed.

Lemma endswith_single (s : pystr) (c : N) :
  endswith s [c] = true -> exists s', s = s' ++ [c].
Proof.
  unfold endswith. simpl. intros H.
  destruct (rev s) as [|x r] eqn:Hr; simpl in H; [discriminate|].
  rewrite andb_true_iff in H. destruct H as [Hx _].
  apply N.eqb_eq in Hx. subst x. exists (rev r).
  rewrite <- (rev_involutive s), Hr. reflexivity.
Qed.

Lemma startswith_app_nonempty (d x : pystr) (c : N) :
  d <> [] -> startswith (d ++ x) [c] = startswith d [c].
Proof. destruct d as [|a d]; [congruence|]. intros _. simpl.
  now destruct (a =? c)%N, (d ++ x), d. Qed.

Lemma valid_name_spec (name : pystr) :
  valid_name name = true ->
  name <> [] /\ existsb (N.eqb SLASH) name = false
  /\ name <> py "." /\ name <> py "..".
Proof.
  unfold valid_name. rewrite !andb_true_iff, !negb_true_iff.
  intros [[[H1 H2] H3] H4]. repeat split; try assumption;
    now apply str_eqb_neq.
Qed.

Lemma valid_name_not_absolute (name : pystr) :
  valid_name name = true -> startswith name [SLASH] = false.
Proof.
  intros H. apply valid_name_spec in H. destruct H as (Hne & Hs & _).
  destruct name as [|c name]; [congruence|]. cbn [existsb] in Hs.
  apply orb_false_iff in Hs. destruct Hs as [Hs _].
  cbn [startswith]. now rewrite N.eqb_sym, Hs.
Qed.

Lemma resolve_step_name (r : node) (cur : list pystr) (name : pystr) :
  is_dir_at r cur = true -> valid_name name = true ->
  resolve_step r (Some cur) name = Some (cur ++ [name]).
Proof.
  intros Hd Hv. apply valid_name_spec in Hv.
  destruct Hv as (H1 & _ & H2 & H3).
  unfold resolve_step. rewrite Hd.
  apply str_eqb_neq in H1, H2, H3. now rewrite H1, H2, H3.
Qed.

Lemma resolve_step_empty (r : node) (acc : option (list pystr))
      (cur : list pystr) :
  resolve_step r acc [] = Some cur -> acc = Some cur.
Proof.
  unfold resolve_step. destruct acc as [c|]; [|discriminate].
  destruct (is_dir_at r c); [|discriminate]. simpl. congruence.
Qed.

(** The path of an entry of a directory resolves to that entry. *)
Lemma canon_join (fs : filesystem) (d name : pystr) (cd : list pystr) :
  canon fs d = Some cd ->
  is_dir_at (root fs) cd = true ->
  valid_name name = true ->
  canon fs (join d name) = Some (cd ++ [name]).
Proof.
  intros Hc Hd Hv.
  assert (Hdne : d <> []) by (intros ->; discriminate).
  pose proof (valid_name_not_absolute name Hv) as Habs.
  pose proof (valid_name_spec name Hv) as (_ & Hslash & _).
  unfold join. rewrite Habs.
  destruct d as [|c0 d0] eqn:Hdeq; [congruence|]. rewrite <- Hdeq in *.
  assert (Hstep : forall body,
             body <> [] ->
             startswith body [SLASH] = startswith d [SLASH] ->
             fold_left (resolve_step (root fs)) (split_char SLASH body)
                       (Some (if startswith d [SLASH] then [] else cwd fs))
             = Some (cd ++ [name]) ->
             canon fs body = Some (cd ++ [name])).
  { intros body Hb Hs Hf. unfold canon.
    destruct body as [|b body']; [congruence|]. now rewrite Hs. }
  assert (Hcd : fold_left (resolve_step (root fs)) (split_char SLASH d)
                          (Some (if startswith d [SLASH] then []
                                 else cwd fs)) = Some cd).
  { unfold canon in Hc. rewrite Hdeq in Hc |- *. exact Hc. }
  destruct (endswith d [SLASH]) eqn:He.
  - destruct (endswith_single d SLASH He) as [d' Hd'].
    apply Hstep.
    + rewrite Hd'. now destruct d'.
    + rewrite Hd', <- app_assoc. simpl.
      destruct d' as [|a d']; [reflexivity|].
      simpl. now destruct (a =? SLASH)%N, (d' ++ SLASH :: name),
               (d' ++ [SLASH]).
    + rewrite Hd' in Hcd |- *. rewrite <- app_assoc. simpl.
      rewrite split_char_app, fold_left_app in Hcd |- *.
      simpl in Hcd. apply resolve_step_empty in Hcd. rewrite Hcd.
      rewrite (split_char_no_sep SLASH name Hslash). simpl.
      now apply resolve_step_name.
  - apply Hstep.
    + now destruct d.
    + now apply startswith_app_nonempty.
    + rewrite split_char_app, fold_left_app, Hcd.
      rewrite (split_char_no_sep SLASH name Hslash). simpl.
      now apply resolve_step_name.
Qed.

(** ** Cleaning *)

Lemma wf_names_entries (r : node) (q : list pystr) es (name : pystr) :
  wf_names r = true -> lookup r q = Some (Dir es) ->
  In name (entry_names es) -> valid_name name = true.
Proof.
  revert r. induction q as [|c q IH]; intros r Hwf Hl Hin.
  - simpl in Hl. injection Hl as ->. simpl in Hwf.
    rewrite forallb_forall in Hwf. unfold entry_names in Hin.
    apply in_map_iff in Hin. destruct Hin as (e & <- & He).
    specialize (Hwf e He). now apply andb_true_iff in Hwf.
  - simpl in Hl. destruct r as [data|es0]; [discriminate|].
    destruct (find_entry c es0) as [child|] eqn:Hc; [|discriminate].
    apply (IH child); try assumption.
    simpl in Hwf. rewrite forallb_forall in Hwf.
    specialize (Hwf (c, child) (find_entry_In c es0 child Hc)).
    now apply andb_true_iff in Hwf.
Qed.

Lemma kind_at_KFile (r : node) (q : list pystr) (data : bytes) :
  kind_at r q = Some (KFile data) -> lookup r q = Some (File data).
Proof.
  unfold kind_at. destruct (lookup r q) as [[d|es]|]; simpl; congruence.
Qed.

Lemma cleaned_refl (fs0 : filesystem) save_dir folder_names :
  cleaned fs0 save_dir folder_names fs0.
Proof. repeat split. intros q. now left. Qed.

(** Removing one [.pkl] entry of a selected folder keeps the files
    [cleaned]. *)
Lemma cleaned_remove (fs0 fs fs' : filesystem) (save_dir fname name : pystr)
      (folder_names : list pystr) (d : list pystr) :
  In fname folder_names ->
  canon fs0 (join save_dir fname) = Some d ->
  is_dir_at (root fs0) d = true ->
  valid_name name = true ->
  endswith name (py ".pkl") = true ->
  cleaned fs0 save_dir folder_names fs ->
  remove fs (join (join save_dir fname) name) = Ok fs' ->
  cleaned fs0 save_dir folder_names fs'.
Proof.
  intros Hin Hd Hdir Hv Hpkl (Hcwd & Hdirs & Hkinds) Hrm.
  destruct (remove_Ok fs fs' _ Hrm) as (d1 & name1 & data & es & Hc & Hl & Hf
                                        & ->).
  rewrite (canon_ext fs0 fs _ Hcwd Hdirs),
    (canon_join fs0 _ name d Hd Hdir Hv) in Hc.
  injection Hc as Hc. apply app_inj_tail in Hc. destruct Hc as [<- <-].
  assert (Hnew : find_entry name (remove_entry name es) = None)
    by now rewrite find_entry_remove_entry, str_eqb_refl.
  assert (Hold : not_dir (find_entry name es)) by now rewrite Hf.
  assert (Hnew' : not_dir (find_entry name (remove_entry name es)))
    by now rewrite Hnew.
  repeat split; simpl.
  - exact Hcwd.
  - intros q. rewrite <- Hdirs.
    exact (is_dir_at_update_dir _ name d (root fs) es q
             (local_edit_remove_entry name) Hl Hold Hnew').
  - intros q.
    destruct (list_eq_dec (list_eq_dec N.eq_dec) q (d ++ [name])) as [->|Hq].
    + right. split.
      * unfold kind_at.
        now rewrite (lookup_update_dir_at _ name d (root fs) es Hl), Hnew.
      * assert (Hk : kind_at (root fs) (d ++ [name]) = Some (KFile data))
          by (unfold kind_at; now rewrite (lookup_snoc _ _ _ es Hl), Hf).
        destruct (Hkinds (d ++ [name])) as [Hsame|[Hnone _]];
          [|congruence].
        rewrite Hk in Hsame. symmetry in Hsame.
        apply kind_at_KFile in Hsame.
        now exists fname, d, name, data.
    + rewrite (kind_at_update_dir _ name (local_edit_remove_entry name)
                 d (root fs) es q Hl Hold Hnew' Hq).
      apply Hkinds.
Qed.

(** A name listed in a directory of [cleaned] files was a valid name of
    the files at the start. *)
Lemma cleaned_listing (fs0 fs : filesystem) (save_dir p : pystr)
      (folder_names names : list pystr) :
  wf_names (root fs0) = true ->
  cleaned fs0 save_dir folder_names fs ->
  listdir fs p = Ok names ->
  exists d,
    canon fs0 p = Some d
    /\ is_dir_at (root fs0) d = true
    /\ (forall name, In name names -> valid_name name = true).
Proof.
  intros Hwf (Hcwd & Hdirs & Hkinds). unfold listdir, stat.
  rewrite (canon_ext fs0 fs p Hcwd Hdirs).
  destruct (canon fs0 p) as [d|] eqn:Hc; [|discriminate].
  destruct (lookup (root fs) d) as [[data|es]|] eqn:Hl; try discriminate.
  intros H. injection H as <-. exists d. split; [reflexivity|].
  assert (Hdir0 : is_dir_at (root fs0) d = true).
  { rewrite <- Hdirs. unfold is_dir_at. now rewrite Hl. }
  split; [exact Hdir0|]. intros name Hin.
  destruct (In_find_entry name es Hin) as [n Hn].
  assert (Hk : kind_at (root fs) (d ++ [name]) = Some (kind_of n))
    by (unfold kind_at; now rewrite (lookup_snoc _ _ _ es Hl), Hn).
  destruct (Hkinds (d ++ [name])) as [Hsame|[Hnone _]]; [|congruence].
  rewrite Hk in Hsame. unfold is_dir_at in Hdir0.
  destruct (lookup (root fs0) d) as [[data0|es0]|] eqn:Hl0;
    try discriminate.
  unfold kind_at in Hsame. rewrite (lookup_snoc _ _ _ es0 Hl0) in Hsame.
  destruct (find_entry name es0) as [n0|] eqn:Hn0; [|discriminate].
  apply find_entry_In in Hn0.
  apply (wf_names_entries (root fs0) d es0 name Hwf Hl0).
  unfold entry_names. apply in_map_iff. now exists (name, n0).
Qed.

(** Whatever [clean] does and however it ends, the files stay [cleaned]. *)
Lemma clean_preserves_cleaned (fs0 : filesystem) (save_dir : pystr)
      (folder_names : list pystr) (verbose : bool) :
  wf_names (root fs0) = true ->
  preserves (cleaned fs0 save_dir folder_names)
            (clean save_dir folder_names verbose).
Proof.
  intros Hwf. unfold clean.
  apply preserves_bind.
  { apply preserves_keeps, keeps_files_when, keeps_files_bind;
      [apply keeps_files_print|intros _; apply keeps_files_print]. }
  intros _. apply preserves_bind.
  2:{ intros _. apply preserves_keeps, keeps_files_when, keeps_files_print. }
  apply preserves_for. intros fname Hin w r w' HP. unfold clean_body.
  rewrite bind_ask.
  destruct (exists_ (files w) (join save_dir fname));
    [|intros H; injection H as _ <-; exact HP].
  unfold bind at 1. unfold try_read at 1.
  destruct (listdir (files w) (join save_dir fname)) as [names|e] eqn:Hls;
    [|intros H; injection H as _ <-; exact HP].
  destruct (cleaned_listing fs0 (files w) save_dir _ folder_names names
              Hwf HP Hls) as (d & Hd & Hdir & Hvalid).
  apply (fun H => preserves_for (cleaned fs0 save_dir folder_names) _ _ H
                                w r w' HP).
  intros f Hf.
  apply in_map_iff in Hf. destruct Hf as (name & <- & Hname).
  apply filter_In in Hname. destruct Hname as [Hname Hpkl].
  apply preserves_bind.
  { apply preserves_keeps, keeps_files_when, keeps_files_print. }
  intros _. apply preserves_syscall. intros fs fs' HPfs Hrm.
  exact (cleaned_remove fs0 fs fs' save_dir fname name folder_names d
           Hin Hd Hdir (Hvalid name Hname) Hpkl HPfs Hrm).
Qed.

(** A folder that is missing, or lists no name ending in [.pkl], is passed
    over. *)
Lemma clean_body_passes (save_dir fname : pystr) (verbose : bool) (w : world) :
  exists_ (files w) (join save_dir fname) = false
  \/ (exists names,
         listdir (files w) (join save_dir fname) = Ok names
         /\ forall f, In f names -> endswith f (py ".pkl") = false) ->
  clean_body save_dir verbose fname w = (Ok tt, w).
Proof.
  intros H. unfold clean_body. rewrite bind_ask.
  destruct (exists_ (files w) (join save_dir fname)) eqn:Hex; [|reflexivity].
  destruct H as [H|(names & Hls & Hnone)]; [discriminate|].
  unfold bind at 1. unfold try_read at 1. rewrite Hls.
  assert (Hf : filter (fun f => endswith f (py ".pkl")) names = []).
  { clear Hls. induction names as [|n names IH]; [reflexivity|]. simpl.
    rewrite (Hnone n (or_introl eq_refl)). apply IH.
    intros f Hf. apply Hnone. now right. }
  now rewrite Hf.
Qed.

Lemma clean_passes (save_dir : pystr) (folder_names : list pystr)
      (verbose : bool) (w : world) :
  (forall fname, In fname folder_names ->
     exists_ (files w) (join save_dir fname) = false
     \/ (exists names,
            listdir (files w) (join save_dir fname) = Ok names
            /\ forall f, In f names -> endswith f (py ".pkl") = false)) ->
  exists t,
    clean save_dir folder_names verbose w
    = (Ok tt, mkWorld (files w) (trace w ++ t))
    /\ only_prints verbose t.
Proof.
  intros Hall.
  assert (Hloop : forall w1, files w1 = files w ->
             for_ folder_names (clean_body save_dir verbose) w1 = (Ok tt, w1)).
  { clear - Hall. induction folder_names as [|fname names IH]; intros w1 Hw1;
      [reflexivity|].
    simpl. unfold bind. rewrite clean_body_passes.
    - apply IH; [|exact Hw1]. intros f Hf. apply Hall. now right.
    - rewrite Hw1. apply Hall. now left. }
  unfold clean. destruct verbose; simpl when.
  - unfold bind, print, emit. cbn [files trace]. rewrite Hloop by reflexivity.
    cbn [files trace]. eexists. split.
    + rewrite <- !app_assoc. reflexivity.
    + repeat constructor.
  - unfold bind, ret. rewrite (Hloop w eq_refl). exists [].
    split; [now rewrite world_eta|reflexivity].
Qed.

(** C9. [clean] deletes pickles only.  Started on files whose names are
    valid, and however it ends, every path of the tree holds what it held
    before, except paths that are gone and that held a file whose name ends
    in [.pkl], directly in the directory [save_dir/fname] of a selected
    folder; in particular a file whose name does not end in [.pkl] keeps
    its content.  When every selected folder is missing or lists no name
    ending in [.pkl], [clean] returns without raising and leaves the files
    as they are. *)
Theorem clean_deletes_only_pickles :
  forall (save_dir : pystr) (folder_names : list pystr) (verbose : bool),
    (forall (w w' : world) (r : result unit),
        wf_names (root (files w)) = true ->
        clean save_dir folder_names verbose w = (r, w') ->
        (forall q,
            kind_at (root (files w')) q = kind_at (root (files w)) q
            \/ (kind_at (root (files w')) q = None
                /\ exists fname d name data,
                     In fname folder_names
                     /\ canon (files w) (join save_dir fname) = Some d
                     /\ q = d ++ [name]
                     /\ endswith name (py ".pkl") = true
                     /\ lookup (root (files w)) q = Some (File data)))
        /\ (forall q name,
               endswith name (py ".pkl") = false ->
               kind_at (root (files w')) (q ++ [name])
               = kind_at (root (files w)) (q ++ [name])))
    /\ (forall (w : world),
           (forall fname, In fname folder_names ->
              exists_ (files w) (join save_dir fname) = false
              \/ (exists names,
                     listdir (files w) (join save_dir fname) = Ok names
                     /\ forall f, In f names ->
                                  endswith f (py ".pkl") = false)) ->
           exists w',
             clean save_dir folder_names verbose w = (Ok tt, w')
             /\ files w' = files w).
Proof.
  intros save_dir folder_names verbose. split.
  - intros w w' r Hwf Hrun.
    destruct (clean_preserves_cleaned (files w) save_dir folder_names verbose
                Hwf w r w' (cleaned_refl _ _ _) Hrun) as (_ & _ & Hkinds).
    split; [exact Hkinds|].
    intros q name Hname.
    destruct (Hkinds (q ++ [name]))
      as [Hsame|(_ & fname & d & name' & data & _ & _ & Hq & Hpkl & _)];
      [exact Hsame|].
    apply app_inj_tail in Hq. destruct Hq as [_ <-]. congruence.
  - intros w Hall.
    destruct (clean_passes save_dir folder_names verbose w Hall)
      as (t & Hrun & _).
    now exists (mkWorld (files w) (trace w ++ t)).
Qed.

Lemma clean_deletes_only_pickles_witness :
  (exists w',
      clean sample_dir [py "dev-clean"; py "dev-other"] false pickled_world
      = (Ok tt, w')
      /\ kind_at (root (files w'))
                 ([py "data"; py "LibriSpeech"; py "dev-clean"; py "19"]
                  ++ [py "19.trans.txt"])
         = kind_at (root (files pickled_world))
                   ([py "data"; py "LibriSpeech"; py "dev-clean"; py "19"]
                    ++ [py "19.trans.txt"])
      /\ kind_at (root (files w'))
                 [py "data"; py "LibriSpeech"; py "dev-clean"; py "master.pkl"]
         = None)
  /\ (exists w',
         clean sample_dir [py "dev-clean"] false fresh_world = (Ok tt, w')
         /\ files w' = files fresh_world).
Proof.
  split.
  - pose (w' := snd (clean sample_dir [py "dev-clean"; py "dev-other"] false
                           pickled_world)).
    assert (Hrun : clean sample_dir [py "dev-clean"; py "dev-other"] false
                         pickled_world = (Ok tt, w'))
      by (vm_compute; reflexivity).
    assert (Hwf : wf_names (root (files pickled_world)) = true)
      by (vm_compute; reflexivity).
    destruct (proj1 (clean_deletes_only_pickles
                       sample_dir [py "dev-clean"; py "dev-other"] false)
                pickled_world w' (Ok tt) Hwf Hrun) as [_ Hkeep].
    exists w'. split; [exact Hrun|]. split.
    + apply Hkeep. vm_compute. reflexivity.
    + vm_compute. reflexivity.
  - apply (proj2 (clean_deletes_only_pickles sample_dir [py "dev-clean"]
                    false)).
    intros fname [<-|[]]. left. vm_compute. reflexivity.
Defined.

(* ================================================================== *)
(** * Further properties *)

(** ** Trees as a file system has them *)

Lemma node_induction (P : node -> Prop) :
  (forall data, P (File data)) ->
  (forall es, Forall (fun e => P (snd e)) es -> P (Dir es)) ->
  forall n, P n.
Proof.
  intros HF HD. fix IH 1. intros [data|es]; [apply HF|]. apply HD.
  induction es as [|[k c] es IHes]; constructor; [apply IH|exact IHes].
Qed.

Lemma distinct_find_entry (k : pystr) (n : node) es :
  distinct (entry_names es) = true -> In (k, n) es -> find_entry k es = Some n.
Proof.
  induction es as [|[k0 n0] es IH]; simpl; [tauto|].
  rewrite andb_true_iff, negb_true_iff. intros [Hnot Hd] [Heq|Hin].
  - injection Heq as -> ->. now rewrite str_eqb_refl.
  - destruct (str_eqb k0 k) eqn:Hk; [|now apply IH].
    apply str_eqb_eq in Hk. subst k0. exfalso.
    assert (existsb (str_eqb k) (entry_names es) = true); [|congruence].
    apply existsb_exists. exists k. split; [|apply str_eqb_refl].
    unfold entry_names. apply in_map_iff. now exists (k, n).
Qed.

Lemma unique_names_lookup (r : node) (q : list pystr) (n : node) :
  unique_names r = true -> lookup r q = Some n -> unique_names n = true.
Proof.
  revert r. induction q as [|c q IH]; intros r Hu Hl; simpl in Hl.
  - now injection Hl as <-.
  - destruct r as [data|es]; [discriminate|].
    destruct (find_entry c es) as [child|] eqn:Hc; [|discriminate].
    apply (IH child); [|exact Hl]. simpl in Hu.
    apply andb_true_iff in Hu. destruct Hu as [_ Hu].
    rewrite forallb_forall in Hu.
    exact (Hu (c, child) (find_entry_In c es child Hc)).
Qed.

Lemma wf_names_lookup (r : node) (q : list pystr) (n : node) :
  wf_names r = true -> lookup r q = Some n -> wf_names n = true.
Proof.
  revert r. induction q as [|c q IH]; intros r Hu Hl; simpl in Hl.
  - now injection Hl as <-.
  - destruct r as [data|es]; [discriminate|].
    destruct (find_entry c es) as [child|] eqn:Hc; [|discriminate].
    apply (IH child); [|exact Hl]. simpl in Hu.
    rewrite forallb_forall in Hu.
    specialize (Hu (c, child) (find_entry_In c es child Hc)).
    now apply andb_true_iff in Hu.
Qed.

(** Every step of the walk is a directory of the tree, under the path
    made of [top] and the names that lead to it. *)
Lemma walk_visits (n : node) :
  forall (top : pystr) (v : visit),
    unique_names n = true -> In v (walk top n) ->
    exists rel es,
      lookup n rel = Some (Dir es)
      /\ v = (walk_path top rel, dirnames es, filenames es).
Proof.
  induction n as [data|es IH] using node_induction; intros top v Hu Hin;
    [destruct Hin|].
  simpl in Hin. destruct Hin as [<-|Hin].
  - exists [], es. now split.
  - apply in_flat_map in Hin. destruct Hin as ([k child] & He & Hv).
    simpl in Hv. simpl in Hu. apply andb_true_iff in Hu.
    destruct Hu as [Hd Hu]. rewrite forallb_forall in Hu.
    rewrite Forall_forall in IH.
    destruct (IH (k, child) He (join top k) v (Hu (k, child) He) Hv)
      as (rel & es' & Hl & ->).
    exists (k :: rel), es'. split; [|reflexivity].
    simpl. now rewrite (distinct_find_entry k child es Hd He).
Qed.

(** The path of such a step resolves to the directory. *)
Lemma walk_path_resolves (fs : filesystem) (rel : list pystr) :
  forall (top : pystr) (ctop : list pystr) (n : node) es,
    canon fs top = Some ctop ->
    lookup (root fs) ctop = Some n ->
    wf_names n = true ->
    lookup n rel = Some (Dir es) ->
    canon fs (walk_path top rel) = Some (ctop ++ rel).
Proof.
  induction rel as [|k rel IH]; intros top ctop n es Hc Hn Hwf Hl.
  - simpl. now rewrite app_nil_r.
  - simpl in Hl. destruct n as [data|es0]; [discriminate|].
    destruct (find_entry k es0) as [child|] eqn:Hk; [|discriminate].
    assert (Hin : In (k, child) es0) by now apply find_entry_In.
    assert (Hv : valid_name k = true /\ wf_names child = true).
    { simpl in Hwf. rewrite forallb_forall in Hwf.
      specialize (Hwf (k, child) Hin). now apply andb_true_iff in Hwf. }
    destruct Hv as [Hv Hwfc].
    assert (Hdir : is_dir_at (root fs) ctop = true)
      by (unfold is_dir_at; now rewrite Hn).
    unfold walk_path. simpl fold_left.
    replace (ctop ++ k :: rel) with ((ctop ++ [k]) ++ rel)
      by now rewrite <- app_assoc.
    apply (IH (join top k) (ctop ++ [k]) child es).
    + now apply canon_join.
    + now rewrite (lookup_snoc _ _ _ es0 Hn).
    + exact Hwfc.
    + exact Hl.
Qed.

Lemma well_formed_spec (fs : filesystem) :
  well_formed fs = true ->
  wf_names (root fs) = true /\ unique_names (root fs) = true.
Proof. unfold well_formed. now rewrite andb_true_iff. Qed.

(** On a well-formed tree, every step of [os.walk] names a directory by a
    path that resolves to it, and lists its entries. *)
Lemma os_walk_visit (fs : filesystem) (top : pystr) (v : visit) :
  well_formed fs = true -> In v (os_walk fs top) ->
  exists cd es,
    canon fs (visit_dir v) = Some cd
    /\ lookup (root fs) cd = Some (Dir es)
    /\ visit_subdirs v = dirnames es
    /\ visit_files v = filenames es.
Proof.
  intros Hwf Hin. apply well_formed_spec in Hwf. destruct Hwf as [Hwf Hu].
  unfold os_walk, stat in Hin.
  destruct (canon fs top) as [ctop|] eqn:Hc; [|destruct Hin].
  destruct (lookup (root fs) ctop) as [[data|es0]|] eqn:Hl;
    [destruct Hin| |destruct Hin].
  pose proof (unique_names_lookup _ _ _ Hu Hl) as Hu0.
  pose proof (wf_names_lookup _ _ _ Hwf Hl) as Hwf0.
  destruct (walk_visits (Dir es0) top v Hu0 Hin) as (rel & es & Hrel & ->).
  exists (ctop ++ rel), es. repeat split.
  - exact (walk_path_resolves fs rel top ctop (Dir es0) es Hc Hl Hwf0 Hrel).
  - now rewrite lookup_app, Hl.
Qed.

Lemma In_filenames (f : pystr) es :
  In f (filenames es) -> exists n, In (f, n) es /\ is_dir n = false.
Proof.
  unfold filenames, entry_names. rewrite in_map_iff.
  intros ([k n] & <- & Hin). apply filter_In in Hin. destruct Hin as [Hin Hd].
  exists n. split; [exact Hin|]. simpl in Hd. now apply negb_true_iff in Hd.
Qed.

(** A file that [os.walk] lists can be read under the joined path. *)
Lemma listed_file_readable (fs : filesystem) (top : pystr) (v : visit)
      (f : pystr) :
  well_formed fs = true -> In v (os_walk fs top) -> In f (visit_files v) ->
  exists data, read_file fs (join (visit_dir v) f) = Ok data.
Proof.
  intros Hwf Hin Hf.
  destruct (os_walk_visit fs top v Hwf Hin) as (cd & es & Hc & Hl & _ & Hfiles).
  apply well_formed_spec in Hwf. destruct Hwf as [Hwf Hu].
  rewrite Hfiles in Hf. apply In_filenames in Hf.
  destruct Hf as (n & Hn & Hnd).
  pose proof (unique_names_lookup _ _ _ Hu Hl) as Hu0. simpl in Hu0.
  apply andb_true_iff in Hu0. destruct Hu0 as [Hd _].
  pose proof (distinct_find_entry f n es Hd Hn) as Hfind.
  assert (Hv : valid_name f = true).
  { apply (wf_names_entries (root fs) cd es f Hwf Hl).
    unfold entry_names. apply in_map_iff. now exists (f, n). }
  assert (Hdir : is_dir_at (root fs) cd = true)
    by (unfold is_dir_at; now rewrite Hl).
  unfold read_file, stat.
  rewrite (canon_join fs (visit_dir v) f cd Hc Hdir Hv).
  rewrite (lookup_snoc _ _ _ es Hl), Hfind.
  destruct n as [data|es']; [now exists data|discriminate].
Qed.

(** ** Which error, and where *)

Lemma for_each_raises {A S} (body : A -> S -> result S) (xs : list A)
      (st : S) (e : exn) :
  for_each xs body st = Raise e ->
  exists x st', In x xs /\ body x st' = Raise e.
Proof.
  revert st. induction xs as [|x xs IH]; intros st; simpl; [discriminate|].
  destruct (body x st) as [st1|e1] eqn:Hb; simpl.
  - intros H. destruct (IH _ H) as (y & st' & Hy & Hby).
    exists y, st'. split; [now right|exact Hby].
  - intros H. injection H as <-. exists x, st. split; [now left|exact Hb].
Qed.

Lemma for_each_total {A S} (body : A -> S -> result S) (xs : list A) (st : S) :
  (forall x st', In x xs -> exists st'', body x st' = Ok st'') ->
  exists st', for_each xs body st = Ok st'.
Proof.
  intros Hall. destruct (for_each xs body st) as [st'|e] eqn:Hrun;
    [now exists st'|].
  destruct (for_each_raises body xs st e Hrun) as (x & st' & Hx & Hb).
  destruct (Hall x st' Hx) as [st'' Hok]. congruence.
Qed.

Lemma map_result_raises {A B} (f : A -> result B) (xs : list A) (e : exn) :
  map_result f xs = Raise e -> exists x, In x xs /\ f x = Raise e.
Proof.
  induction xs as [|x xs IH]; simpl; [discriminate|].
  destruct (f x) as [y|e1] eqn:Hfx; simpl.
  - destruct (map_result f xs) as [ys|e2]; simpl; [discriminate|].
    intros H. injection H as <-. destruct (IH eq_refl) as (x' & Hin & Hx').
    exists x'. split; [now right|exact Hx'].
  - intros H. injection H as <-. exists x. split; [now left|exact Hfx].
Qed.

Lemma map_result_stops {A B} (f : A -> result B) (xs : list A) (x : A)
      (e : exn) :
  In x xs -> f x = Raise e -> (forall y e', f y = Raise e' -> e' = e) ->
  map_result f xs = Raise e.
Proof.
  intros Hin Hx Hone. induction xs as [|a xs IH]; [destruct Hin|]. simpl.
  destruct (f a) as [y|e1] eqn:Hfa; simpl.
  - destruct Hin as [->|Hin]; [congruence|]. now rewrite (IH Hin).
  - now rewrite (Hone a e1 Hfa).
Qed.

Lemma decode_strip_raises (raw : bytes) (e : exn) :
  decode_strip raw = Raise e -> e = UnicodeDecodeError /\ utf8_decode raw = None.
Proof.
  unfold decode_strip. destruct (utf8_decode raw); [discriminate|].
  intros H. injection H as <-. now split.
Qed.

(** An error of the parser for a file that can be read is a line that is
    no UTF-8. *)
Lemma parser_raises_readable (fs : filesystem) (path : pystr)
      (content : bytes) (e : exn) :
  read_file fs path = Ok content ->
  _transcriptions_and_flac fs path = Raise e ->
  e = UnicodeDecodeError
  /\ exists raw, In raw (readlines content) /\ utf8_decode raw = None.
Proof.
  intros Hread. rewrite transcriptions_and_flac_eq, Hread. simpl.
  destruct (map_result decode_strip (readlines content)) as [lines|e1] eqn:Hm;
    simpl; [discriminate|].
  intros H. injection H as <-.
  destruct (map_result_raises _ _ _ Hm) as (raw & Hin & Hraw).
  apply decode_strip_raises in Hraw. destruct Hraw as [-> Hraw].
  split; [reflexivity|]. now exists raw.
Qed.

(** When every place on the way is a directory, the last name is the one
    that is missing. *)
Lemma lookup_error_resolved (r : node) (cs : list pystr) :
  forall cur cp,
    fold_left (resolve_step r) cs (Some cur) = Some cp ->
    lookup_error r cur cs = FileNotFoundError.
Proof.
  induction cs as [|c cs IH]; intros cur cp Hres; [reflexivity|].
  cbn [fold_left] in Hres. cbn [lookup_error].
  unfold resolve_step in Hres at 2. unfold is_dir_at in Hres.
  destruct (lookup r cur) as [[data|es]|];
    try (now rewrite fold_resolve_None in Hres).
  destruct (str_eqb c [] || str_eqb c (py "."));
    [|destruct (str_eqb c (py ".."))]; exact (IH _ cp Hres).
Qed.

(** The components that resolve are passed over. *)
Lemma lookup_error_app (r : node) (cs1 cs2 : list pystr) :
  forall cur cp,
    fold_left (resolve_step r) cs1 (Some cur) = Some cp ->
    lookup_error r cur (cs1 ++ cs2) = lookup_error r cp cs2.
Proof.
  induction cs1 as [|c cs1 IH]; intros cur cp Hres.
  - simpl in Hres. now injection Hres as ->.
  - cbn [fold_left] in Hres. cbn [app lookup_error].
    unfold resolve_step in Hres at 2. unfold is_dir_at in Hres.
    destruct (lookup r cur) as [[data|es]|];
      try (now rewrite fold_resolve_None in Hres).
    destruct (str_eqb c [] || str_eqb c (py "."));
      [|destruct (str_eqb c (py ".."))]; exact (IH _ cp Hres).
Qed.

(** A path whose directories are there and whose last name is missing. *)
Lemma absent_last_missing (fs : filesystem) (p : pystr) (cp : list pystr) :
  canon fs p = Some cp -> absent fs p = FileNotFoundError.
Proof.
  unfold canon, absent. destruct p as [|a p]; [discriminate|].
  apply lookup_error_resolved.
Qed.

(** A path that goes on after a regular file. *)
Lemma through_a_file (fs : filesystem) (file rest : pystr) (data : bytes) :
  stat fs file = Some (File data) ->
  stat fs (file ++ SLASH :: rest) = None
  /\ absent fs (file ++ SLASH :: rest) = NotADirectoryError.
Proof.
  unfold stat. destruct (canon fs file) as [cp|] eqn:Hc; [|discriminate].
  intros Hl.
  assert (Hne : file <> []) by (intros ->; discriminate).
  destruct (file ++ SLASH :: rest) as [|a q] eqn:Hq;
    [now destruct file|].
  rewrite <- Hq. clear a q Hq.
  assert (Hfold : fold_left (resolve_step (root fs)) (split_char SLASH file)
                            (Some (if startswith file [SLASH] then []
                                   else cwd fs)) = Some cp).
  { revert Hc. unfold canon. destruct file; [congruence|trivial]. }
  destruct (split_char SLASH rest) as [|c cs] eqn:Hs;
    [now apply split_char_nonempty in Hs|].
  split.
  - assert (Hcanon : canon fs (file ++ SLASH :: rest) = None).
    { unfold canon. destruct (file ++ SLASH :: rest) as [|a q] eqn:Hq;
        [reflexivity|]. rewrite <- Hq.
      rewrite (startswith_app_nonempty file (SLASH :: rest) SLASH Hne).
      rewrite split_char_app, fold_left_app, Hfold, Hs. cbn [fold_left].
      rewrite resolve_step_not_dir; [apply fold_resolve_None|].
      unfold is_dir_at. now rewrite Hl. }
    now rewrite Hcanon.
  - unfold absent. destruct (file ++ SLASH :: rest) as [|a q] eqn:Hq;
      [now destruct file|]. rewrite <- Hq.
    rewrite (startswith_app_nonempty file (SLASH :: rest) SLASH Hne).
    rewrite split_char_app, (lookup_error_app _ _ _ _ cp Hfold), Hs.
    cbn [lookup_error]. now rewrite Hl.
Qed.

(** X1. The errors of the parser.  A path whose directories are there and
    whose last name is missing raises [FileNotFoundError], a path that goes
    on after a regular file raises [NotADirectoryError], a directory raises
    [IsADirectoryError], and a file one of whose lines is no UTF-8 raises
    [UnicodeDecodeError], whatever the other lines hold: the lines are
    decoded before any is split. *)
Theorem transcript_errors :
  forall (fs : filesystem) (path : pystr),
    (forall cp,
        canon fs path = Some cp -> lookup (root fs) cp = None ->
        _transcriptions_and_flac fs path = Raise FileNotFoundError)
    /\ (forall file rest data,
           stat fs file = Some (File data) ->
           path = file ++ SLASH :: rest ->
           _transcriptions_and_flac fs path = Raise NotADirectoryError)
    /\ (forall es,
           stat fs path = Some (Dir es) ->
           _transcriptions_and_flac fs path = Raise IsADirectoryError)
    /\ (forall content raw,
           stat fs path = Some (File content) ->
           In raw (readlines content) ->
           utf8_decode raw = None ->
           _transcriptions_and_flac fs path = Raise UnicodeDecodeError).
Proof.
  intros fs path. rewrite transcriptions_and_flac_eq. unfold read_file.
  split; [|split; [|split]].
  - intros cp Hc Hl. rewrite (absent_last_missing fs path cp Hc).
    unfold stat. now rewrite Hc, Hl.
  - intros file rest data Hfile ->.
    destruct (through_a_file fs file rest data Hfile) as [-> ->].
    reflexivity.
  - now intros es ->.
  - intros content raw -> Hin Hraw. simpl.
    rewrite (map_result_stops decode_strip (readlines content) raw
               UnicodeDecodeError Hin).
    + reflexivity.
    + unfold decode_strip. now rewrite Hraw.
    + intros y e' Hy. now apply decode_strip_raises in Hy.
Qed.

Lemma transcript_errors_witness :
  _transcriptions_and_flac Cases.latin1_fs Cases.latin1_path
  = Raise UnicodeDecodeError
  /\ _transcriptions_and_flac Cases.latin1_fs (py "/corpus/9/none.txt")
     = Raise FileNotFoundError
  /\ _transcriptions_and_flac Cases.latin1_fs
                              (Cases.latin1_path ++ SLASH :: py "x")
     = Raise NotADirectoryError
  /\ _transcriptions_and_flac Cases.latin1_fs (py "/corpus/9")
     = Raise IsADirectoryError.
Proof.
  split; [|split; [|split]].
  - apply (proj2 (proj2 (proj2 (transcript_errors Cases.latin1_fs
                                                   Cases.latin1_path)))
             Cases.latin1_txt [57; 45; 48; 48; 48; 50; 32; 233; 10]%N).
    + vm_compute. reflexivity.
    + vm_compute. tauto.
    + vm_compute. reflexivity.
  - apply (proj1 (transcript_errors Cases.latin1_fs (py "/corpus/9/none.txt"))
             [py "corpus"; py "9"; py "none.txt"]).
    + vm_compute. reflexivity.
    + vm_compute. reflexivity.
  - apply (proj1 (proj2 (transcript_errors
                           Cases.latin1_fs
                           (Cases.latin1_path ++ SLASH :: py "x")))
             Cases.latin1_path (py "x") Cases.latin1_txt).
    + vm_compute. reflexivity.
    + reflexivity.
  - apply (proj1 (proj2 (proj2 (transcript_errors Cases.latin1_fs
                                                   (py "/corpus/9"))))
             [(py "9.trans.txt", File Cases.latin1_txt)]).
    vm_compute. reflexivity.
Defined.

(** ** The index builder, from the leaves to the lists *)

Lemma is_leaf_spec (v : visit) : is_leaf v = true <-> visit_subdirs v = [].
Proof.
  unfold is_leaf. destruct (visit_subdirs v); simpl; split;
    congruence.
Qed.

Lemma In_leaves (fs : filesystem) (top : pystr) (v : visit) :
  In v (leaves fs top) <-> In v (os_walk fs top) /\ visit_subdirs v = [].
Proof. unfold leaves. now rewrite filter_In, is_leaf_spec. Qed.

Lemma get_of_key {V} (k : pystr) (d : Dict.t V) :
  In k (Dict.keys d) -> exists v, Dict.get k d = Some v /\ In (k, v) d.
Proof.
  induction d as [|[k0 v0] d IH]; simpl; [tauto|].
  destruct (str_eqb k0 k) eqn:Hk.
  - apply str_eqb_eq in Hk. subst k0. intros _. exists v0. split; auto.
  - intros [->|Hin]; [now rewrite str_eqb_refl in Hk|].
    destruct (IH Hin) as (v & Hv & Hvin). exists v. split; auto.
Qed.

(** Every file of the dictionary was taken in a leaf. *)
Lemma selected_files (fs : filesystem) (top : pystr) (d : Dict.t (list pystr))
      (k f : pystr) (files : list pystr) :
  _voice_txt_dict_from_path fs top = Ok d ->
  In (k, files) d -> In f files ->
  exists v, In v (leaves fs top) /\ select_txt v = Some f.
Proof.
  intros Hd Hin Hf.
  destruct (voice_txt_dict_returns fs top d Hd) as (sel & Hsel & ->).
  set (kvs := combine (map voice_id_of (leaves fs top)) sel) in *.
  pose proof (NoDup_keys_get _ k files (keys_add_all_NoDup kvs) Hin) as Hget.
  rewrite get_add_all in Hget.
  assert (Hfu : files = files_under k kvs)
    by (destruct (files_under k kvs); [discriminate|now injection Hget]).
  subst files. unfold files_under in Hf. apply in_map_iff in Hf.
  destruct Hf as ([k' f'] & Hf' & Hkv). simpl in Hf'. subst f'.
  apply filter_In in Hkv. destruct Hkv as [Hkv _].
  unfold kvs in Hkv. apply in_combine_r in Hkv.
  clear - Hsel Hkv. induction Hsel as [|v t ls sel Hvt _ IH];
    [destruct Hkv|].
  destruct Hkv as [->|Hkv].
  - exists v. split; [now left|exact Hvt].
  - destruct (IH Hkv) as (v' & Hv' & Hs). exists v'. split; [now right|exact Hs].
Qed.

(** Where an error of the index builder comes from: a leaf without a match,
    or the parser on a file taken in a leaf. *)
Lemma index_raises (fs : filesystem) (top : pystr) (e : exn) :
  flacpath_transcription_id fs top = Raise e ->
  (e = IndexError /\ exists v, In v (leaves fs top) /\ select_txt v = None)
  \/ (exists v f, In v (leaves fs top) /\ select_txt v = Some f
                  /\ _transcriptions_and_flac fs f = Raise e).
Proof.
  unfold flacpath_transcription_id.
  destruct (_voice_txt_dict_from_path fs top) as [d|e1] eqn:Hd; simpl.
  - destruct (for_each (Dict.keys d) (voice_id_body fs d) ([], [], []))
      as [[[F T] I]|e2] eqn:Hloop; simpl; [discriminate|].
    intros H. injection H as <-. right.
    destruct (for_each_raises _ _ _ _ Hloop) as (k & acc & Hk & Hbody).
    unfold voice_id_body in Hbody.
    destruct (get_of_key k d Hk) as (files & Hget & Hin).
    rewrite Hget in Hbody.
    destruct (for_each_raises _ _ _ _ Hbody) as (f & acc' & Hf & Hfb).
    destruct (selected_files fs top d k f files Hd Hin Hf) as (v & Hv & Hs).
    exists v, f. repeat split; try assumption.
    unfold txt_file_body in Hfb. destruct acc' as [[F T] I].
    destruct (_transcriptions_and_flac fs f) as [[t flacs]|e3]; simpl in Hfb;
      [discriminate|congruence].
  - intros H. injection H as <-. left.
    rewrite voice_txt_dict_from_path_eq in Hd.
    exact (leaf_loop_only_raises _ _ _ Hd).
Qed.

(** X2. A folder that is no directory (a path that names nothing, or a
    file) gives the empty index and no error: [os.walk] yields nothing for
    it. *)
Theorem index_of_no_directory :
  forall (fs : filesystem) (folder_path : pystr),
    (forall es, stat fs folder_path <> Some (Dir es)) ->
    flacpath_transcription_id fs folder_path = Ok (mkIndex [] [] []).
Proof.
  intros fs folder_path Hno.
  unfold flacpath_transcription_id, _voice_txt_dict_from_path, os_walk.
  destruct (stat fs folder_path) as [[data|es]|]; try reflexivity.
  now destruct (Hno es).
Qed.

Lemma index_of_no_directory_witness :
  flacpath_transcription_id Sample.corpus (py "/data/dev-other")
  = Ok (mkIndex [] [] [])
  /\ flacpath_transcription_id Sample.corpus
       (py "/data/dev-clean/19/A/19-A.trans.txt")
     = Ok (mkIndex [] [] []).
Proof.
  split; apply index_of_no_directory; intros es; vm_compute; discriminate.
Defined.

(** X3. The errors of the index builder on a well-formed tree.  It raises
    [IndexError] for a directory without subdirectories none of whose files
    has a path ending in [txt], and [UnicodeDecodeError] for a line that is
    no UTF-8 in a file of such a directory; it raises nothing else (the
    files [os.walk] lists can be opened, and every key the loop looks up is
    in the dictionary). *)
Theorem index_errors :
  forall (fs : filesystem) (folder_path : pystr) (e : exn),
    well_formed fs = true ->
    flacpath_transcription_id fs folder_path = Raise e ->
    (e = IndexError
     /\ exists v,
          In v (os_walk fs folder_path) /\ visit_subdirs v = []
          /\ forall f, In f (visit_files v) ->
                       endswith (join (visit_dir v) f) (py "txt") = false)
    \/ (e = UnicodeDecodeError
        /\ exists v f content raw,
             In v (os_walk fs folder_path) /\ visit_subdirs v = []
             /\ In f (visit_files v)
             /\ endswith (join (visit_dir v) f) (py "txt") = true
             /\ read_file fs (join (visit_dir v) f) = Ok content
             /\ In raw (readlines content)
             /\ utf8_decode raw = None).
Proof.
  intros fs folder_path e Hwf Hrun.
  destruct (index_raises fs folder_path e Hrun)
    as [[-> (v & Hv & Hnone)]|(v & t & Hv & Hsel & Hparse)].
  - left. split; [reflexivity|]. apply In_leaves in Hv. destruct Hv as [Hv Hl].
    exists v. repeat split; try assumption.
    now apply select_txt_None.
  - right. apply In_leaves in Hv. destruct Hv as [Hv Hl].
    apply select_txt_Some in Hsel.
    destruct Hsel as (pre & f & post & Hfiles & -> & Hends & _).
    assert (Hf : In f (visit_files v))
      by (rewrite Hfiles; apply in_or_app; right; now left).
    destruct (listed_file_readable fs folder_path v f Hwf Hv Hf)
      as [content Hread].
    destruct (parser_raises_readable fs _ content e Hread Hparse)
      as [-> (raw & Hraw & Hdec)].
    split; [reflexivity|]. now exists v, f, content, raw.
Qed.

Lemma index_errors_witness :
  (UnicodeDecodeError = IndexError
   /\ exists v,
        In v (os_walk Cases.latin1_fs (py "/corpus")) /\ visit_subdirs v = []
        /\ forall f, In f (visit_files v) ->
                     endswith (join (visit_dir v) f) (py "txt") = false)
  \/ (UnicodeDecodeError = UnicodeDecodeError
      /\ exists v f content raw,
           In v (os_walk Cases.latin1_fs (py "/corpus"))
           /\ visit_subdirs v = []
           /\ In f (visit_files v)
           /\ endswith (join (visit_dir v) f) (py "txt") = true
           /\ read_file Cases.latin1_fs (join (visit_dir v) f) = Ok content
           /\ In raw (readlines content)
           /\ utf8_decode raw = None).
Proof.
  apply (index_errors Cases.latin1_fs (py "/corpus") UnicodeDecodeError);
    vm_compute; reflexivity.
Defined.

(** X4. When the index builder returns.  On a well-formed tree where every
    directory without subdirectories below the folder lists a file whose
    path ends in [txt], and every line of such files is UTF-8, the builder
    returns an index. *)
Theorem index_returns :
  forall (fs : filesystem) (folder_path : pystr),
    well_formed fs = true ->
    (forall v, In v (os_walk fs folder_path) -> visit_subdirs v = [] ->
               exists f, In f (visit_files v)
                         /\ endswith (join (visit_dir v) f) (py "txt") = true) ->
    (forall v f content,
        In v (os_walk fs folder_path) -> visit_subdirs v = [] ->
        In f (visit_files v) ->
        endswith (join (visit_dir v) f) (py "txt") = true ->
        read_file fs (join (visit_dir v) f) = Ok content ->
        Forall decodable (readlines content)) ->
    exists index, flacpath_transcription_id fs folder_path = Ok index.
Proof.
  intros fs folder_path Hwf Htxt Hdec.
  destruct (flacpath_transcription_id fs folder_path) as [index|e] eqn:Hrun;
    [now exists index|exfalso].
  destruct (index_raises fs folder_path e Hrun)
    as [[-> (v & Hv & Hnone)]|(v & t & Hv & Hsel & Hparse)];
    apply In_leaves in Hv; destruct Hv as [Hv Hl].
  - destruct (Htxt v Hv Hl) as (f & Hf & Hends).
    rewrite select_txt_None in Hnone. specialize (Hnone f Hf).
    unfold ends_txt in Hnone. congruence.
  - apply select_txt_Some in Hsel.
    destruct Hsel as (pre & f & post & Hfiles & -> & Hends & _).
    assert (Hf : In f (visit_files v))
      by (rewrite Hfiles; apply in_or_app; right; now left).
    destruct (listed_file_readable fs folder_path v f Hwf Hv Hf)
      as [content Hread].
    destruct (parser_raises_readable fs _ content e Hread Hparse)
      as [_ (raw & Hraw & Hnot)].
    pose proof (Hdec v f content Hv Hl Hf Hends Hread) as Hall.
    rewrite Forall_forall in Hall. exact (Hall raw Hraw Hnot).
Qed.

(** The two conditions, as tests that can be run on a tree. *)
Lemma leaves_have_txt_test (fs : filesystem) (top : pystr) :
  forallb (fun v => negb (is_leaf v)
                    || existsb (fun f => ends_txt (join (visit_dir v) f))
                               (visit_files v))
          (os_walk fs top) = true ->
  forall v, In v (os_walk fs top) -> visit_subdirs v = [] ->
            exists f, In f (visit_files v)
                      /\ endswith (join (visit_dir v) f) (py "txt") = true.
Proof.
  rewrite forallb_forall. intros H v Hv Hl. specialize (H v Hv).
  apply is_leaf_spec in Hl. rewrite Hl in H. simpl in H.
  apply existsb_exists in H. exact H.
Qed.

Lemma transcripts_decodable_test (fs : filesystem) (top : pystr) :
  forallb (fun v =>
             forallb (fun f =>
                        match read_file fs (join (visit_dir v) f) with
                        | Ok content => forallb decodableb (readlines content)
                        | Raise _ => true
                        end)
                     (visit_files v))
          (os_walk fs top) = true ->
  forall v f content,
    In v (os_walk fs top) -> visit_subdirs v = [] ->
    In f (visit_files v) ->
    endswith (join (visit_dir v) f) (py "txt") = true ->
    read_file fs (join (visit_dir v) f) = Ok content ->
    Forall decodable (readlines content).
Proof.
  rewrite forallb_forall. intros H v f content Hv _ Hf _ Hread.
  specialize (H v Hv). rewrite forallb_forall in H. specialize (H f Hf).
  rewrite Hread in H. now apply Forall_decodableb.
Qed.

Lemma index_returns_witness :
  exists index,
    flacpath_transcription_id Sample.corpus Sample.corpus_root = Ok index.
Proof.
  apply index_returns.
  - vm_compute. reflexivity.
  - apply leaves_have_txt_test. vm_compute. reflexivity.
  - apply transcripts_decodable_test. vm_compute. reflexivity.
Defined.

(** ** The paths of the index *)

Lemma startswith_app (s t p : pystr) :
  startswith s p = true -> startswith (s ++ t) p = true.
Proof.
  revert s. induction p as [|c p IH]; intros s; [reflexivity|].
  destruct s as [|a s]; simpl; [discriminate|].
  rewrite !andb_true_iff. intros [Ha Hs]. split; [exact Ha|now apply IH].
Qed.

Lemma endswith_app (a b s : pystr) :
  endswith b s = true -> endswith (a ++ b) s = true.
Proof. unfold endswith. rewrite rev_app_distr. apply startswith_app. Qed.

Lemma endswith_refl (s : pystr) : endswith s s = true.
Proof.
  unfold endswith. induction (rev s) as [|c r IH]; simpl; [reflexivity|].
  now rewrite N.eqb_refl.
Qed.

(** A joined path ends as its last part ends. *)
Lemma endswith_join (a b s : pystr) :
  endswith b s = true -> endswith (join a b) s = true.
Proof.
  intros H. unfold join. destruct (startswith b [SLASH]); [exact H|].
  destruct a as [|c a]; [exact H|].
  destruct (endswith (c :: a) [SLASH]).
  - now apply endswith_app.
  - replace ((c :: a) ++ SLASH :: b) with (((c :: a) ++ [SLASH]) ++ b)
      by now rewrite <- app_assoc.
    now apply endswith_app.
Qed.

Lemma flac_of_ends (parent line : pystr) :
  endswith (flac_of parent line) (py ".flac") = true.
Proof.
  unfold flac_of. apply endswith_join, endswith_app, endswith_refl.
Qed.

Lemma txt_file_body_flac fs voice_id txt_file F T I F' T' I' :
  Forall (fun p => endswith p (py ".flac") = true) F ->
  txt_file_body fs voice_id txt_file (F, T, I) = Ok (F', T', I') ->
  Forall (fun p => endswith p (py ".flac") = true) F'.
Proof.
  unfold txt_file_body. intros HF.
  destruct (_transcriptions_and_flac fs txt_file) as [[t flacs]|e] eqn:Hp;
    simpl; [|discriminate].
  intros H. injection H as <- _ _.
  apply transcriptions_and_flac_inv in Hp.
  destruct Hp as (content & lines & _ & _ & _ & ->).
  apply Forall_app. split; [exact HF|].
  apply Forall_map, Forall_forall. intros line _. apply flac_of_ends.
Qed.

(** X5. Every path of the index ends in [.flac], whatever the transcripts
    hold (the builder does not look for the audio files). *)
Theorem index_paths_end_in_flac :
  forall (fs : filesystem) (folder_path : pystr) (index : CorpusIndex),
    flacpath_transcription_id fs folder_path = Ok index ->
    Forall (fun p => endswith p (py ".flac") = true) (paths index).
Proof.
  intros fs folder_path index. unfold flacpath_transcription_id.
  destruct (_voice_txt_dict_from_path fs folder_path) as [d|e]; simpl;
    [|discriminate].
  destruct (for_each (Dict.keys d) (voice_id_body fs d) ([], [], []))
    as [[[F T] I]|e] eqn:Hloop; simpl; [|discriminate].
  intros H. injection H as <-. simpl.
  apply (for_each_invariant
           (fun acc : build_acc =>
              Forall (fun p => endswith p (py ".flac") = true)
                     (fst (fst acc)))
           (voice_id_body fs d) (Dict.keys d)) with (st := ([], [], []))
                                                    (st' := (F, T, I));
    [|constructor|exact Hloop].
  intros k acc acc' _ Hacc. unfold voice_id_body.
  destruct (Dict.get k d) as [files|]; [|discriminate].
  revert acc acc' Hacc.
  apply (for_each_invariant
           (fun acc : build_acc =>
              Forall (fun p => endswith p (py ".flac") = true)
                     (fst (fst acc)))).
  intros f [[F0 T0] I0] [[F1 T1] I1] _. simpl. apply txt_file_body_flac.
Qed.

Lemma index_paths_end_in_flac_witness :
  exists index,
    flacpath_transcription_id Sample.corpus Sample.corpus_root = Ok index
    /\ Forall (fun p => endswith p (py ".flac") = true) (paths index).
Proof.
  eexists. split; [vm_compute; reflexivity|].
  apply (index_paths_end_in_flac Sample.corpus Sample.corpus_root).
  vm_compute. reflexivity.
Defined.

(** ** What a new file changes for the walk *)

Lemma visit_sim_refl (name : pystr) (v : visit) : visit_sim name v v.
Proof. repeat split. now left. Qed.

Lemma Forall2_refl {A} (R : A -> A -> Prop) (l : list A) :
  (forall x, R x x) -> Forall2 R l l.
Proof. intros H. induction l; constructor; auto. Qed.

Lemma os_walk_walk_from (fs : filesystem) (top : pystr) :
  os_walk fs top = walk_from top (stat fs top).
Proof. unfold os_walk, walk_from. now destruct (stat fs top) as [[data|es]|]. Qed.

Lemma set_entry_is_dir (name : pystr) (new : node) es :
  (forall old, find_entry name es = Some old -> is_dir old = is_dir new) ->
  (find_entry name es = None -> is_dir new = false) ->
  dirnames (set_entry name new es) = dirnames es.
Proof.
  unfold dirnames, entry_names.
  induction es as [|[k n] es IH]; intros Hsome Hnone; simpl.
  - now rewrite (Hnone eq_refl).
  - simpl in Hsome, Hnone. destruct (str_eqb k name) eqn:Hk; simpl in *.
    + rewrite <- (Hsome n eq_refl). now destruct (is_dir n).
    + destruct (is_dir n); simpl; [f_equal|]; now apply IH.
Qed.

Lemma filenames_set_entry_dir (name : pystr) (new old : node) es :
  find_entry name es = Some old -> is_dir old = true -> is_dir new = true ->
  filenames (set_entry name new es) = filenames es.
Proof.
  unfold filenames, entry_names.
  induction es as [|[k n] es IH]; intros Hf Hold Hnew; simpl in *;
    [discriminate|].
  destruct (str_eqb k name) eqn:Hk; simpl.
  - injection Hf as ->. now rewrite Hold, Hnew.
  - destruct (is_dir n); simpl; [|f_equal]; now apply IH.
Qed.

Lemma filenames_set_entry_file (name : pystr) (data : bytes) es :
  not_dir (find_entry name es) ->
  filenames (set_entry name (File data) es) = filenames es
  \/ filenames (set_entry name (File data) es) = filenames es ++ [name].
Proof.
  unfold filenames, entry_names.
  induction es as [|[k n] es IH]; intros Hnd; simpl in *.
  - now right.
  - destruct (str_eqb k name) eqn:Hk; simpl.
    + destruct n as [d0|es0]; [|destruct Hnd]. simpl. now left.
    + destruct (IH Hnd) as [H|H]; destruct (is_dir n); simpl; rewrite H;
        auto.
Qed.

Lemma flat_map_walk_set_entry_file (top name : pystr) (data : bytes) es :
  not_dir (find_entry name es) ->
  flat_map (fun e => walk (join top (fst e)) (snd e))
           (set_entry name (File data) es)
  = flat_map (fun e => walk (join top (fst e)) (snd e)) es.
Proof.
  induction es as [|[k n] es IH]; intros Hnd; simpl in *; [reflexivity|].
  destruct (str_eqb k name) eqn:Hk; simpl.
  - destruct n as [d0|es0]; [reflexivity|destruct Hnd].
  - now rewrite IH.
Qed.

Lemma Forall2_flat_map_set_entry {B} (R : B -> B -> Prop)
      (g : pystr * node -> list B) (name : pystr) (new old : node) es :
  (forall x, R x x) ->
  find_entry name es = Some old ->
  (forall k, Forall2 R (g (k, old)) (g (k, new))) ->
  Forall2 R (flat_map g es) (flat_map g (set_entry name new es)).
Proof.
  intros Hrefl. induction es as [|[k n] es IH]; intros Hf Hg; simpl in *;
    [discriminate|].
  destruct (str_eqb k name) eqn:Hk; simpl.
  - injection Hf as ->. apply Forall2_app; [apply Hg|].
    now apply Forall2_refl.
  - apply Forall2_app; [now apply Forall2_refl|now apply IH].
Qed.

Lemma update_dir_is_dir (f : list (pystr * node) -> list (pystr * node))
      (p : list pystr) (n : node) :
  is_dir (update_dir f p n) = is_dir n.
Proof.
  destruct p as [|c p], n as [data|es]; simpl; try reflexivity.
  now destruct (find_entry c es).
Qed.

Lemma lookup_Some_is_dir (n : node) (p : list pystr) es :
  lookup n p = Some (Dir es) -> is_dir n = true.
Proof.
  destruct p as [|c p]; simpl.
  - now intros H; injection H as ->.
  - now destruct n.
Qed.

(** Writing the file [name] into the directory at [d] changes the walk
    below any path by that file only. *)
Lemma walk_update_dir (name : pystr) (data : bytes) (d : list pystr) :
  forall (r : node) es (q : list pystr) (top : pystr),
    lookup r d = Some (Dir es) ->
    not_dir (find_entry name es) ->
    Forall2 (visit_sim name)
            (walk_from top (lookup r q))
            (walk_from top
               (lookup (update_dir (set_entry name (File data)) d r) q)).
Proof.
  induction d as [|c0 d IH]; intros r es q top Hl Hnd.
  - simpl in Hl. injection Hl as ->. simpl update_dir.
    destruct q as [|c q].
    + simpl. constructor.
      * repeat split; simpl.
        -- apply set_entry_is_dir.
           ++ intros old Hold. rewrite Hold in Hnd. now destruct old.
           ++ reflexivity.
        -- now apply filenames_set_entry_file.
      * rewrite flat_map_walk_set_entry_file by exact Hnd.
        apply Forall2_refl, visit_sim_refl.
    + simpl. rewrite find_entry_set_entry.
      destruct (str_eqb name c) eqn:Hc.
      * apply str_eqb_eq in Hc. subst c.
        destruct (find_entry name es) as [[d0|es0]|]; try destruct Hnd;
          destruct q; simpl; constructor.
      * apply Forall2_refl, visit_sim_refl.
  - simpl in Hl. destruct r as [d0|es0]; [discriminate|].
    destruct (find_entry c0 es0) as [child|] eqn:Hc0; [|discriminate].
    simpl update_dir. rewrite Hc0.
    set (child' := update_dir (set_entry name (File data)) d child).
    assert (Hdir : is_dir child = true)
      by exact (lookup_Some_is_dir child d es Hl).
    assert (Hdir' : is_dir child' = true)
      by (unfold child'; now rewrite update_dir_is_dir).
    destruct q as [|c q].
    + simpl. constructor.
      * repeat split; simpl.
        -- apply set_entry_is_dir.
           ++ intros old Hold. rewrite Hc0 in Hold. injection Hold as <-.
              congruence.
           ++ congruence.
        -- left. exact (filenames_set_entry_dir c0 child' child es0 Hc0
                           Hdir Hdir').
      * apply (Forall2_flat_map_set_entry (visit_sim name) _ c0 child' child);
          [apply visit_sim_refl|exact Hc0|].
        intros k. simpl.
        exact (IH child es [] (join top k) Hl Hnd).
    + simpl. rewrite find_entry_set_entry.
      destruct (str_eqb c0 c) eqn:Hc.
      * apply str_eqb_eq in Hc. subst c. rewrite Hc0.
        exact (IH child es q top Hl Hnd).
      * apply Forall2_refl, visit_sim_refl.
Qed.

(** ** The last component of a path *)

Lemma split_char_last (sep : N) (s : pystr) :
  exists init c,
    split_char sep s = init ++ [c]
    /\ existsb (N.eqb sep) c = false
    /\ ((init = [] /\ s = c) \/ (init <> [] /\ exists pre, s = pre ++ sep :: c)).
Proof.
  induction s as [|a s IH].
  - exists [], []. repeat split. now left.
  - destruct IH as (init & c & Hs & Hc & Hshape). simpl.
    destruct (a =? sep)%N eqn:Ha.
    + apply N.eqb_eq in Ha. subst a. exists ([] :: init), c.
      rewrite Hs. repeat split; [exact Hc|]. right. split; [discriminate|].
      destruct Hshape as [[_ ->]|[_ (pre & ->)]].
      * now exists [].
      * now exists (sep :: pre).
    + rewrite Hs. destruct Hshape as [[-> ->]|[Hne (pre & ->)]].
      * exists [], (a :: c). simpl. rewrite N.eqb_sym, Ha, Hc.
        repeat split. now left.
      * destruct init as [|w ws]; [congruence|]. simpl.
        exists ((a :: w) :: ws), c. repeat split; [exact Hc|].
        right. split; [discriminate|]. now exists (a :: pre).
Qed.

Lemma startswith_app_long (s t p : pystr) :
  (List.length p <= List.length s)%nat ->
  startswith (s ++ t) p = startswith s p.
Proof.
  revert s. induction p as [|c p IH]; intros s Hlen; [reflexivity|].
  destruct s as [|a s]; simpl in *; [lia|].
  rewrite IH by lia. reflexivity.
Qed.

Lemma endswith_app_long (a b s : pystr) :
  (List.length s <= List.length b)%nat ->
  endswith (a ++ b) s = endswith b s.
Proof.
  intros H. unfold endswith. rewrite rev_app_distr.
  apply startswith_app_long. now rewrite !length_rev.
Qed.

(** The end of a joined path is the end of its last part, when that part
    is long enough. *)
Lemma endswith_join_long (a b s : pystr) :
  (List.length s <= List.length b)%nat ->
  endswith (join a b) s = endswith b s.
Proof.
  intros H. unfold join. destruct (startswith b [SLASH]); [reflexivity|].
  destruct a as [|c a]; [reflexivity|].
  destruct (endswith (c :: a) [SLASH]).
  - now apply endswith_app_long.
  - replace ((c :: a) ++ SLASH :: b) with (((c :: a) ++ [SLASH]) ++ b)
      by now rewrite <- app_assoc.
    now apply endswith_app_long.
Qed.

(** A path that ends in [txt] has a last component that ends in [txt]. *)
Lemma ends_txt_last (pre c : pystr) :
  existsb (N.eqb SLASH) c = false ->
  ends_txt (pre ++ SLASH :: c) = true -> ends_txt c = true.
Proof.
  unfold ends_txt, endswith. intros Hc.
  replace (pre ++ SLASH :: c) with ((pre ++ [SLASH]) ++ c)
    by now rewrite <- app_assoc.
  rewrite !rev_app_distr. simpl rev at 2. simpl app at 2.
  destruct (rev c) as [|x [|y [|z r]]]; simpl; try discriminate.
  - destruct (x =? 116)%N; simpl; discriminate.
  - destruct (x =? 116)%N, (y =? 120)%N; simpl; discriminate.
  - intros H. exact H.
Qed.

Lemma resolve_step_Some (r : node) (acc : option (list pystr)) (c : pystr)
      (cp : list pystr) :
  resolve_step r acc c = Some cp ->
  str_eqb c [] = false -> str_eqb c (py ".") = false ->
  str_eqb c (py "..") = false ->
  exists cur, acc = Some cur /\ is_dir_at r cur = true /\ cp = cur ++ [c].
Proof.
  unfold resolve_step. destruct acc as [cur|]; [|discriminate].
  destruct (is_dir_at r cur) eqn:Hd; [|discriminate].
  intros H H1 H2 H3. rewrite H1, H2, H3 in H. simpl in H.
  injection H as <-. now exists cur.
Qed.

Lemma ends_txt_name (c : pystr) :
  ends_txt c = true ->
  str_eqb c [] = false /\ str_eqb c (py ".") = false
  /\ str_eqb c (py "..") = false.
Proof.
  intros H. repeat split; apply str_eqb_neq; intros ->; discriminate.
Qed.

(** A path that ends in [txt] resolves, if at all, to a place whose name
    ends in [txt]. *)
Lemma canon_last_txt (fs : filesystem) (p : pystr) (cp : list pystr) :
  canon fs p = Some cp -> ends_txt p = true ->
  exists cur c, cp = cur ++ [c] /\ ends_txt c = true.
Proof.
  unfold canon. destruct p as [|a p]; [discriminate|].
  set (s := a :: p). set (start := Some _).
  destruct (split_char_last SLASH s) as (init & c & Hs & Hc & Hshape).
  rewrite Hs, fold_left_app. simpl. intros Hres Hends.
  assert (Hcends : ends_txt c = true).
  { destruct Hshape as [[_ <-]|[_ (pre & Hpre)]]; [exact Hends|].
    rewrite Hpre in Hends. exact (ends_txt_last pre c Hc Hends). }
  destruct (ends_txt_name c Hcends) as (H1 & H2 & H3).
  destruct (resolve_step_Some _ _ _ _ Hres H1 H2 H3) as (cur & _ & _ & ->).
  now exists cur, c.
Qed.

(** A write leaves what the other files hold as it is. *)
Lemma read_file_after_write_elsewhere (fs fs' : filesystem) (p p2 : pystr)
      (data2 x : bytes) :
  write_file fs p2 data2 = Ok fs' ->
  canon fs p <> canon fs p2 ->
  read_file fs p = Ok x ->
  read_file fs' p = Ok x.
Proof.
  intros Hw Hne.
  destruct (write_file_Ok fs fs' p2 data2 Hw)
    as (d & name & es & Hc2 & Hd & Hold & Hfs').
  assert (Hnew : not_dir (find_entry name (set_entry name (File data2) es)))
    by now rewrite find_entry_set_entry, str_eqb_refl.
  assert (Hcanon : canon fs' p = canon fs p).
  { subst fs'. apply canon_ext; [reflexivity|]. intros q. simpl.
    exact (is_dir_at_update_dir _ name d (root fs) es q
             (local_edit_set_entry name (File data2)) Hd Hold Hnew). }
  unfold read_file, stat. rewrite Hcanon.
  destruct (canon fs p) as [cp|] eqn:Hcp; [|discriminate].
  assert (Hq : cp <> d ++ [name]) by (rewrite Hc2 in Hne; congruence).
  pose proof (write_file_frame fs fs' p2 data2 _ Hw Hc2 cp Hq) as Hk.
  unfold kind_at in Hk.
  destruct (lookup (root fs) cp) as [[d0|es0]|],
           (lookup (root fs') cp) as [[d1|es1]|]; simpl in Hk;
    try discriminate.
  now injection Hk as ->.
Qed.

(** A write does not change which paths resolve, nor to what. *)
Lemma canon_after_write (fs fs' : filesystem) (p p2 : pystr) (data2 : bytes) :
  write_file fs p2 data2 = Ok fs' -> canon fs' p = canon fs p.
Proof.
  intros Hw.
  destruct (write_file_Ok fs fs' p2 data2 Hw)
    as (d & name & es & Hc2 & Hd & Hold & ->).
  apply canon_ext; [reflexivity|]. intros q. simpl.
  apply (is_dir_at_update_dir _ name d (root fs) es q
           (local_edit_set_entry name (File data2)) Hd Hold).
  now rewrite find_entry_set_entry, str_eqb_refl.
Qed.

(** ** The index after a file was written *)

Lemma filter_sim_leaves (name : pystr) (l l' : list visit) :
  Forall2 (visit_sim name) l l' ->
  Forall2 (visit_sim name) (filter is_leaf l) (filter is_leaf l').
Proof.
  induction 1 as [|v v' l l' Hv _ IH]; simpl; [constructor|].
  assert (Hleaf : is_leaf v' = is_leaf v).
  { unfold is_leaf. destruct Hv as (_ & -> & _). reflexivity. }
  rewrite Hleaf. destruct (is_leaf v); [now constructor|exact IH].
Qed.

Lemma select_txt_sim (name : pystr) (v v' : visit) :
  (forall dir, ends_txt (join dir name) = false) ->
  visit_sim name v v' -> select_txt v' = select_txt v.
Proof.
  intros Hname (Hd & _ & [Hf|Hf]); unfold select_txt; rewrite Hd, Hf;
    [reflexivity|].
  rewrite map_app, filter_app. simpl. rewrite Hname.
  now rewrite app_nil_r.
Qed.

Lemma for_each_Forall2 {A S} (R : A -> A -> Prop) (f : A -> S -> result S)
      (xs ys : list A) (st : S) :
  (forall x y s, R x y -> f y s = f x s) ->
  Forall2 R xs ys -> for_each ys f st = for_each xs f st.
Proof.
  intros Hf H. revert st. induction H as [|x y xs ys Hxy _ IH]; intros st;
    simpl; [reflexivity|].
  rewrite (Hf x y st Hxy). destruct (f x st); simpl; [apply IH|reflexivity].
Qed.

(** The walker returns the same dictionary once a file is written whose
    name makes no path end in [txt]. *)
Lemma walker_after_write (fs fs' : filesystem) (p top : pystr) (data : bytes)
      (d : list pystr) (name : pystr) :
  write_file fs p data = Ok fs' ->
  canon fs p = Some (d ++ [name]) ->
  (forall dir, ends_txt (join dir name) = false) ->
  _voice_txt_dict_from_path fs' top = _voice_txt_dict_from_path fs top.
Proof.
  intros Hw Hc Hname.
  rewrite !voice_txt_dict_from_path_eq.
  apply (for_each_Forall2 (visit_sim name)).
  - intros v v' s Hsim. unfold leaf_body, voice_id_of.
    rewrite (select_txt_sim name v v' Hname Hsim).
    now destruct Hsim as (-> & _).
  - unfold leaves. apply filter_sim_leaves.
    rewrite !os_walk_walk_from. unfold stat.
    rewrite (canon_after_write fs fs' top p data Hw).
    destruct (canon fs top) as [ctop|]; [|constructor].
    destruct (write_file_Ok fs fs' p data Hw)
      as (d' & name' & es & Hc' & Hd & Hold & ->).
    rewrite Hc in Hc'. injection Hc' as Hc'.
    apply app_inj_tail in Hc'. destruct Hc' as [<- <-]. simpl.
    exact (walk_update_dir name data d (root fs) es ctop top Hd Hold).
Qed.

(** What the parser returns for a path that ends in [txt], it returns
    after the write. *)
Lemma parser_after_write (fs fs' : filesystem) (p f : pystr) (data : bytes)
      (d : list pystr) (name : pystr) (r : list pystr * list pystr) :
  write_file fs p data = Ok fs' ->
  canon fs p = Some (d ++ [name]) ->
  ends_txt name = false ->
  ends_txt f = true ->
  _transcriptions_and_flac fs f = Ok r ->
  _transcriptions_and_flac fs' f = Ok r.
Proof.
  intros Hw Hc Hname Hf. rewrite !transcriptions_and_flac_eq.
  destruct (read_file fs f) as [content|e] eqn:Hread; [|discriminate].
  rewrite (read_file_after_write_elsewhere fs fs' f p data content Hw);
    [trivial| |exact Hread].
  rewrite Hc. intros Hcf.
  destruct (canon_last_txt fs f _ Hcf Hf) as (cur & c & Heq & Hends).
  apply app_inj_tail in Heq. destruct Heq as [_ ->]. congruence.
Qed.

Lemma for_each_returns_too {A S} (f g : A -> S -> result S) (xs : list A) :
  (forall x s s', In x xs -> f x s = Ok s' -> g x s = Ok s') ->
  forall st st', for_each xs f st = Ok st' -> for_each xs g st = Ok st'.
Proof.
  induction xs as [|x xs IH]; intros Hfg st st' Hrun; simpl in *;
    [exact Hrun|].
  destruct (f x st) as [s1|e] eqn:Hf; [|discriminate].
  rewrite (Hfg x st s1 (or_introl eq_refl) Hf). simpl in *.
  apply IH; [|exact Hrun]. intros y s s' Hy. apply Hfg. now right.
Qed.

(** The index of a folder is still its index after such a write. *)
Lemma index_after_write (fs fs' : filesystem) (p top : pystr) (data : bytes)
      (d : list pystr) (name : pystr) (index : CorpusIndex) :
  write_file fs p data = Ok fs' ->
  canon fs p = Some (d ++ [name]) ->
  (forall dir, ends_txt (join dir name) = false) ->
  ends_txt name = false ->
  flacpath_transcription_id fs top = Ok index ->
  flacpath_transcription_id fs' top = Ok index.
Proof.
  intros Hw Hc Hjoin Hname. unfold flacpath_transcription_id.
  rewrite (walker_after_write fs fs' p top data d name Hw Hc Hjoin).
  destruct (_voice_txt_dict_from_path fs top) as [dict|e] eqn:Hd; simpl;
    [|discriminate].
  destruct (for_each (Dict.keys dict) (voice_id_body fs dict) ([], [], []))
    as [acc|e] eqn:Hloop; [|discriminate].
  rewrite (for_each_returns_too (voice_id_body fs dict)
             (voice_id_body fs' dict) (Dict.keys dict)) with (st' := acc);
    [trivial| |exact Hloop].
  intros k s s' Hk. unfold voice_id_body.
  destruct (get_of_key k dict Hk) as (files & Hget & Hin). rewrite Hget.
  apply for_each_returns_too. intros f a a' Hf.
  destruct (selected_files fs top dict k f files Hd Hin Hf) as (v & _ & Hs).
  apply select_txt_Some in Hs. destruct Hs as (_ & g & _ & _ & Hfg & He & _).
  unfold txt_file_body. destruct a as [[F T] I].
  destruct (_transcriptions_and_flac fs f) as [r|e] eqn:Hp; [|discriminate].
  now rewrite (parser_after_write fs fs' p f data d name r Hw Hc Hname He Hp).
Qed.

(** ** Saving twice *)

Lemma join_nonempty (a b : pystr) : b <> [] -> join a b <> [].
Proof.
  intros Hb. unfold join. destruct (startswith b [SLASH]); [exact Hb|].
  destruct a as [|c a]; [exact Hb|].
  destruct (endswith (c :: a) [SLASH]); discriminate.
Qed.

Lemma valid_name_strs (name : pystr) :
  valid_name name = true ->
  str_eqb name [] = false /\ str_eqb name (py ".") = false
  /\ str_eqb name (py "..") = false.
Proof.
  intros H. apply valid_name_spec in H. destruct H as (H1 & _ & H2 & H3).
  repeat split; now apply str_eqb_neq.
Qed.

(** The path of an entry resolves, if at all, to the entry of the place its
    directory resolves to. *)
Lemma canon_join_inv (fs : filesystem) (a name : pystr) (cp : list pystr) :
  valid_name name = true ->
  canon fs (join a name) = Some cp ->
  exists cur,
    cp = cur ++ [name]
    /\ is_dir_at (root fs) cur = true
    /\ (a <> [] -> canon fs a = Some cur).
Proof.
  intros Hv.
  pose proof (valid_name_not_absolute name Hv) as Habs.
  pose proof (valid_name_spec name Hv) as (Hne & Hslash & _).
  destruct (valid_name_strs name Hv) as (H1 & H2 & H3).
  unfold join. rewrite Habs. destruct a as [|c0 a0] eqn:Ha.
  - unfold canon. destruct name as [|n0 name0] eqn:Hn; [congruence|].
    rewrite <- Hn in *. rewrite (split_char_no_sep SLASH name Hslash).
    cbn [fold_left].
    intros Hres.
    destruct (resolve_step_Some _ _ _ _ Hres H1 H2 H3) as (cur & _ & Hd & ->).
    exists cur. repeat split; [exact Hd|congruence].
  - rewrite <- Ha. assert (Hane : a <> []) by (rewrite Ha; discriminate).
    clear Ha. destruct (endswith a [SLASH]) eqn:He.
    + destruct (endswith_single a SLASH He) as [a' Ha'].
      rewrite Ha', <- app_assoc. simpl app.
      unfold canon at 1.
      destruct (a' ++ SLASH :: name) as [|x xs] eqn:Hp;
        [now destruct a'|].
      rewrite <- Hp. rewrite split_char_app, fold_left_app,
        (split_char_no_sep SLASH name Hslash). cbn [fold_left].
      intros Hres.
      destruct (resolve_step_Some _ _ _ _ Hres H1 H2 H3)
        as (cur & Hacc & Hd & ->).
      exists cur. repeat split; [exact Hd|]. intros _.
      unfold canon. destruct (a' ++ [SLASH]) as [|y ys] eqn:Hq;
        [now destruct a'|].
      rewrite <- Hq.
      replace (a' ++ [SLASH]) with (a' ++ SLASH :: []) by reflexivity.
      rewrite split_char_app, fold_left_app. cbn [split_char fold_left].
      assert (Hstart : startswith (a' ++ SLASH :: []) [SLASH]
                       = startswith (a' ++ SLASH :: name) [SLASH]).
      { destruct a' as [|z zs]; simpl; [reflexivity|].
        now destruct (z =? SLASH)%N, (zs ++ [SLASH]), (zs ++ SLASH :: name). }
      rewrite Hstart, Hacc. unfold resolve_step. now rewrite Hd.
    + unfold canon at 1.
      destruct (a ++ SLASH :: name) as [|x xs] eqn:Hp; [now destruct a|].
      rewrite <- Hp. rewrite split_char_app, fold_left_app,
        (split_char_no_sep SLASH name Hslash). cbn [fold_left].
      intros Hres.
      destruct (resolve_step_Some _ _ _ _ Hres H1 H2 H3)
        as (cur & Hacc & Hd & ->).
      exists cur. repeat split; [exact Hd|]. intros _.
      unfold canon. destruct a as [|y ys] eqn:Hq; [congruence|].
      rewrite <- Hq in *.
      now rewrite <- (startswith_app_nonempty a (SLASH :: name) SLASH Hane).
Qed.

Lemma set_entry_same (k : pystr) (n : node) es :
  find_entry k es = Some n -> set_entry k n es = es.
Proof.
  induction es as [|[k0 n0] es IH]; simpl; [discriminate|].
  destruct (str_eqb k0 k) eqn:Hk.
  - intros H. now injection H as ->.
  - intros H. now rewrite (IH H).
Qed.

Lemma update_dir_same (name : pystr) (n : node) (d : list pystr) :
  forall r, lookup r (d ++ [name]) = Some n ->
            update_dir (set_entry name n) d r = r.
Proof.
  induction d as [|c d IH]; intros r Hl; simpl in Hl.
  - destruct r as [data|es]; [discriminate|]. simpl.
    destruct (find_entry name es) as [child|] eqn:Hf; [|discriminate].
    simpl in Hl. injection Hl as ->. now rewrite (set_entry_same name n es Hf).
  - destruct r as [data|es]; [discriminate|]. simpl.
    destruct (find_entry c es) as [child|] eqn:Hf; [|discriminate].
    rewrite (IH child Hl). now rewrite (set_entry_same c child es Hf).
Qed.

(** Writing to a file what it holds changes nothing. *)
Lemma write_same (fs : filesystem) (p : pystr) (data : bytes) :
  read_file fs p = Ok data -> write_file fs p data = Ok fs.
Proof.
  unfold read_file, stat, write_file.
  destruct (canon fs p) as [cp|] eqn:Hc; [|discriminate].
  destruct (lookup (root fs) cp) as [[d0|es0]|] eqn:Hl; try discriminate.
  intros H. injection H as ->.
  assert (Hcp : cp <> []).
  { intros ->. simpl in Hl. apply canon_Some_root_dir in Hc.
    assert (Hroot : root fs = File data) by congruence.
    rewrite Hroot in Hc. discriminate. }
  pose proof Hl as Hl'.
  rewrite (removelast_last_eq cp Hcp), lookup_app in Hl.
  unfold is_dir_at.
  destruct (lookup (root fs) (parent cp)) as [[d1|es]|] eqn:Hp;
    try discriminate.
  rewrite (removelast_last_eq cp Hcp) in Hl'.
  rewrite (update_dir_same (leaf_name cp) (File data) (parent cp) (root fs) Hl').
  now destruct fs.
Qed.

Lemma master_valid : valid_name (py "master.pkl") = true.
Proof. reflexivity. Qed.

Lemma master_no_txt (dir : pystr) :
  ends_txt (join dir (py "master.pkl")) = false.
Proof.
  unfold ends_txt. rewrite endswith_join_long; [reflexivity|simpl; lia].
Qed.

(** Saving a pickle changes the index of no folder. *)
Lemma index_after_save (fs fs' : filesystem) (fpath top : pystr)
      (data : bytes) (index : CorpusIndex) :
  write_file fs (join fpath (py "master.pkl")) data = Ok fs' ->
  flacpath_transcription_id fs top = Ok index ->
  flacpath_transcription_id fs' top = Ok index.
Proof.
  intros Hw.
  destruct (write_file_Ok fs fs' _ data Hw) as (d & name & es & Hc & _).
  destruct (canon_join_inv fs fpath _ _ master_valid Hc) as (cur & Heq & _).
  apply app_inj_tail in Heq. destruct Heq as [_ ->].
  apply (index_after_write fs fs' _ top data d _ index Hw Hc).
  - exact master_no_txt.
  - reflexivity.
Qed.

(** The pickles of two folders with different valid names are different
    files. *)
Lemma master_paths_differ (fs : filesystem) (folder_dir x y : pystr)
      (cp : list pystr) :
  valid_name x = true -> valid_name y = true ->
  canon fs (join (join folder_dir x) (py "master.pkl")) = Some cp ->
  canon fs (join (join folder_dir y) (py "master.pkl")) = Some cp ->
  x = y.
Proof.
  intros Hx Hy Hcx Hcy.
  assert (Hxne : join folder_dir x <> [])
    by (apply join_nonempty; now apply valid_name_spec in Hx).
  assert (Hyne : join folder_dir y <> [])
    by (apply join_nonempty; now apply valid_name_spec in Hy).
  destruct (canon_join_inv fs _ _ _ master_valid Hcx) as (cx & -> & _ & Hpx).
  destruct (canon_join_inv fs _ _ _ master_valid Hcy) as (cy & Heq & _ & Hpy).
  apply app_inj_tail in Heq. destruct Heq as [<- _].
  destruct (canon_join_inv fs _ _ _ Hx (Hpx Hxne)) as (c1 & -> & _).
  destruct (canon_join_inv fs _ _ _ Hy (Hpy Hyne)) as (c2 & Heq & _).
  apply app_inj_tail in Heq. now destruct Heq as [_ ->].
Qed.

(** A folder whose pickle can be read exists. *)
Lemma master_read_exists (fs : filesystem) (fpath : pystr) (data : bytes) :
  fpath <> [] ->
  read_file fs (join fpath (py "master.pkl")) = Ok data ->
  exists_ fs fpath = true.
Proof.
  intros Hne. unfold read_file, exists_, stat.
  destruct (canon fs (join fpath (py "master.pkl"))) as [cp|] eqn:Hc;
    [|discriminate].
  intros _.
  destruct (canon_join_inv fs _ _ _ master_valid Hc) as (cur & _ & Hd & Hp).
  rewrite (Hp Hne). unfold is_dir_at in Hd.
  now destruct (lookup (root fs) cur).
Qed.

Section SavingAgain.

Variable pickle_dumps : CorpusIndex -> bytes.

Lemma initialize_body_keeps_current (folder_dir x y : pystr) (verbose : bool)
      (w w1 : world) :
  valid_name x = true -> valid_name y = true ->
  current pickle_dumps folder_dir x (files w) ->
  initialize_body pickle_dumps folder_dir verbose y w = (Ok tt, w1) ->
  current pickle_dumps folder_dir x (files w1).
Proof.
  intros Hx Hy (idx & Hidx & Hread) Hbody.
  destruct (initialize_body_Ok pickle_dumps folder_dir y verbose w w1 Hbody)
    as (idy & _ & Hidy & Hwrite).
  exists idx. split.
  - exact (index_after_save _ _ _ _ _ _ Hwrite Hidx).
  - destruct (str_eqb x y) eqn:Hxy.
    + apply str_eqb_eq in Hxy. subst y.
      assert (idy = idx) by congruence. subst idy.
      exact (read_after_write _ _ _ _ Hwrite).
    + apply str_eqb_neq in Hxy.
      apply (read_file_after_write_elsewhere _ _ _ _ _ _ Hwrite);
        [|exact Hread].
      destruct (write_file_Ok _ _ _ _ Hwrite) as (d & name & es & Hc & _).
      rewrite Hc. intros Hcx.
      exact (Hxy (master_paths_differ (files w) folder_dir x y _ Hx Hy Hcx Hc)).
Qed.

Lemma initialize_loop_keeps_current (folder_dir x : pystr) (verbose : bool)
      (names : list pystr) :
  valid_name x = true ->
  (forall y, In y names -> valid_name y = true) ->
  forall w w',
    current pickle_dumps folder_dir x (files w) ->
    for_ names (initialize_body pickle_dumps folder_dir verbose) w
    = (Ok tt, w') ->
    current pickle_dumps folder_dir x (files w').
Proof.
  intros Hx. induction names as [|y names IH]; intros Hv w w' Hcur Hrun.
  - simpl in Hrun. injection Hrun as <-. exact Hcur.
  - simpl in Hrun. apply bind_Ok_inv in Hrun.
    destruct Hrun as ([] & w1 & Hone & Hrest).
    apply (IH (fun z Hz => Hv z (or_intror Hz)) w1 w'); [|exact Hrest].
    exact (initialize_body_keeps_current folder_dir x y verbose w w1 Hx
             (Hv y (or_introl eq_refl)) Hcur Hone).
Qed.

(** After the loop, the pickle of every folder is current. *)
Lemma initialize_loop_current (folder_dir : pystr) (verbose : bool)
      (names : list pystr) :
  (forall y, In y names -> valid_name y = true) ->
  forall w w',
    for_ names (initialize_body pickle_dumps folder_dir verbose) w
    = (Ok tt, w') ->
    forall x, In x names -> current pickle_dumps folder_dir x (files w').
Proof.
  induction names as [|y names IH]; intros Hv w w' Hrun x Hin;
    [destruct Hin|].
  simpl in Hrun. apply bind_Ok_inv in Hrun.
  destruct Hrun as ([] & w1 & Hone & Hrest).
  destruct Hin as [<-|Hin].
  - apply (initialize_loop_keeps_current folder_dir y verbose names
             (Hv y (or_introl eq_refl)) (fun z Hz => Hv z (or_intror Hz))
             w1 w'); [|exact Hrest].
    destruct (initialize_body_Ok pickle_dumps folder_dir y verbose w w1 Hone)
      as (idy & _ & Hidy & Hwrite).
    exists idy. split.
    + exact (index_after_save _ _ _ _ _ _ Hwrite Hidy).
    + exact (read_after_write _ _ _ _ Hwrite).
  - exact (IH (fun z Hz => Hv z (or_intror Hz)) w1 w' Hrest x Hin).
Qed.

(** A folder whose pickle is current is saved again without any change. *)
Lemma initialize_body_again (folder_dir x : pystr) (verbose : bool)
      (w : world) :
  valid_name x = true ->
  current pickle_dumps folder_dir x (files w) ->
  exists w1,
    initialize_body pickle_dumps folder_dir verbose x w = (Ok tt, w1)
    /\ files w1 = files w.
Proof.
  intros Hx (idx & Hidx & Hread).
  assert (Hne : join folder_dir x <> [])
    by (apply join_nonempty; now apply valid_name_spec in Hx).
  pose proof (master_read_exists _ _ _ Hne Hread) as Hex.
  pose proof (write_same _ _ _ Hread) as Hwrite.
  unfold initialize_body.
  destruct verbose; simpl when; unfold bind, print, emit, ret, ask, try_read,
    syscall; cbn [files trace]; rewrite Hex; cbn [negb]; cbv beta iota;
    cbn [files trace]; rewrite Hidx, Hwrite; eexists; split; reflexivity.
Qed.

Lemma initialize_loop_again (folder_dir : pystr) (verbose : bool)
      (names : list pystr) :
  (forall y, In y names -> valid_name y = true) ->
  forall w,
    (forall x, In x names -> current pickle_dumps folder_dir x (files w)) ->
    exists w',
      for_ names (initialize_body pickle_dumps folder_dir verbose) w
      = (Ok tt, w')
      /\ files w' = files w.
Proof.
  induction names as [|y names IH]; intros Hv w Hcur.
  - exists w. now split.
  - destruct (initialize_body_again folder_dir y verbose w
                (Hv y (or_introl eq_refl)) (Hcur y (or_introl eq_refl)))
      as (w1 & Hone & Hf1).
    destruct (IH (fun z Hz => Hv z (or_intror Hz)) w1) as (w' & Hrest & Hf').
    { intros x Hx. rewrite Hf1. apply Hcur. now right. }
    exists w'. split; [|congruence].
    simpl. unfold bind. now rewrite Hone.
Qed.

(** X6. The pickles describe the files as they are at the end.  When
    [librispeech_initialize] returns, for folders with valid names, the
    file [master.pkl] of every folder holds the pickle of the index that
    [flacpath_transcription_id] builds for this folder from the files as
    the call left them: writing the pickles has changed no index. *)
Theorem pickles_are_current :
  forall (folder_dir : pystr) (folder_names : list pystr)
         (save_folder : pystr) (verbose : bool) (w w' : world),
    (forall fname, In fname folder_names -> valid_name fname = true) ->
    librispeech_initialize pickle_dumps folder_dir folder_names save_folder
                           verbose w = (Ok tt, w') ->
    forall fname,
      In fname folder_names ->
      exists index,
        flacpath_transcription_id (files w') (join folder_dir fname)
        = Ok index
        /\ read_file (files w')
                     (join (join folder_dir fname) (py "master.pkl"))
           = Ok (pickle_dumps index).
Proof.
  intros folder_dir folder_names save_folder verbose w w' Hv Hrun fname Hin.
  exact (initialize_loop_current folder_dir verbose folder_names Hv w w' Hrun
           fname Hin).
Qed.

(** X7. Saving twice.  When [librispeech_initialize] has returned, for
    folders with valid names, a second call on the files it left returns
    as well and leaves every file as it is. *)
Theorem initialize_twice :
  forall (folder_dir : pystr) (folder_names : list pystr)
         (save_folder : pystr) (verbose : bool) (w w1 : world),
    (forall fname, In fname folder_names -> valid_name fname = true) ->
    librispeech_initialize pickle_dumps folder_dir folder_names save_folder
                           verbose w = (Ok tt, w1) ->
    exists w2,
      librispeech_initialize pickle_dumps folder_dir folder_names save_folder
                             verbose w1 = (Ok tt, w2)
      /\ files w2 = files w1.
Proof.
  intros folder_dir folder_names save_folder verbose w w1 Hv Hrun.
  apply (initialize_loop_again folder_dir verbose folder_names Hv w1).
  exact (initialize_loop_current folder_dir verbose folder_names Hv w w1 Hrun).
Qed.

End SavingAgain.

Lemma pickles_are_current_witness :
  exists w' index,
    librispeech_initialize sample_pickle (py "/data") [py "dev-clean"] []
                           true (mkWorld Sample.corpus [])
    = (Ok tt, w')
    /\ flacpath_transcription_id (files w') (join (py "/data") (py "dev-clean"))
       = Ok index
    /\ read_file (files w')
                 (join (join (py "/data") (py "dev-clean")) (py "master.pkl"))
       = Ok (sample_pickle index).
Proof.
  pose (w' := snd (librispeech_initialize
                     sample_pickle (py "/data") [py "dev-clean"] [] true
                     (mkWorld Sample.corpus []))).
  assert (Hrun : librispeech_initialize
                   sample_pickle (py "/data") [py "dev-clean"] [] true
                   (mkWorld Sample.corpus [])
                 = (Ok tt, w'))
    by (vm_compute; reflexivity).
  assert (Hv : forall fname, In fname [py "dev-clean"] ->
                             valid_name fname = true)
    by (intros fname [<-|[]]; reflexivity).
  destruct (pickles_are_current sample_pickle (py "/data") [py "dev-clean"] []
              true (mkWorld Sample.corpus []) w' Hv Hrun (py "dev-clean")
              (or_introl eq_refl))
    as (index & Hbuild & Hread).
  exists w', index. repeat split; assumption.
Defined.

Lemma initialize_twice_witness :
  exists w1 w2,
    librispeech_initialize sample_pickle (py "/data") [py "dev-clean"] []
                           false (mkWorld Sample.corpus [])
    = (Ok tt, w1)
    /\ librispeech_initialize sample_pickle (py "/data") [py "dev-clean"] []
                              false w1
       = (Ok tt, w2)
    /\ files w2 = files w1.
Proof.
  pose (w1 := snd (librispeech_initialize
                     sample_pickle (py "/data") [py "dev-clean"] [] false
                     (mkWorld Sample.corpus []))).
  assert (Hrun : librispeech_initialize
                   sample_pickle (py "/data") [py "dev-clean"] [] false
                   (mkWorld Sample.corpus [])
                 = (Ok tt, w1))
    by (vm_compute; reflexivity).
  assert (Hv : forall fname, In fname [py "dev-clean"] ->
                             valid_name fname = true)
    by (intros fname [<-|[]]; reflexivity).
  destruct (initialize_twice sample_pickle (py "/data") [py "dev-clean"] []
              false (mkWorld Sample.corpus []) w1 Hv Hrun)
    as (w2 & Hrun2 & Hfiles).
  exists w1, w2. repeat split; assumption.
Defined.

(** ** A folder that is missing *)

Lemma for_app {A} (xs ys : list A) (body : A -> M unit) (w : world) :
  for_ (xs ++ ys) body w = bind (for_ xs body) (fun _ => for_ ys body) w.
Proof.
  revert w. induction xs as [|x xs IH]; intros w; simpl; [reflexivity|].
  unfold bind. destruct (body x w) as [[[]|e] w1]; [|reflexivity].
  rewrite IH. reflexivity.
Qed.

(** X8. A folder that does not exist stops [librispeech_initialize] with
    [ValueError] and the message that names its path.  The folders before
    it have been processed and keep their pickles, the folders after it
    are not looked at: the files are as the folders before it left
    them. *)
Theorem missing_folder_stops :
  forall (pickle_dumps : CorpusIndex -> bytes) (folder_dir : pystr)
         (before after : list pystr) (fname save_folder : pystr)
         (verbose : bool) (w w1 : world),
    librispeech_initialize pickle_dumps folder_dir before save_folder verbose w
    = (Ok tt, w1) ->
    exists_ (files w1) (join folder_dir fname) = false ->
    exists w2,
      librispeech_initialize pickle_dumps folder_dir
                             (before ++ fname :: after) save_folder verbose w
      = (Raise (ValueError
                  (join folder_dir fname
                   ++ py " does not exist. Make sure you download the data first.")),
         w2)
      /\ files w2 = files w1.
Proof.
  intros pickle_dumps folder_dir before after fname save_folder verbose w w1
         Hrun Hmiss.
  unfold librispeech_initialize in *. rewrite for_app. unfold bind at 1.
  rewrite Hrun. simpl for_. unfold bind at 1. unfold initialize_body.
  destruct verbose; simpl when; unfold bind, print, emit, ret, ask, raise;
    cbn [files trace]; rewrite Hmiss; cbn [negb]; cbv beta iota;
    eexists; split; reflexivity.
Qed.

Lemma missing_folder_stops_witness :
  exists w2,
    librispeech_initialize sample_pickle (py "/data")
                           ([py "dev-clean"] ++ py "dev-other" :: [py "x"])
                           [] false (mkWorld Sample.corpus [])
    = (Raise (ValueError
                (join (py "/data") (py "dev-other")
                 ++ py " does not exist. Make sure you download the data first.")),
       w2)
    /\ files w2
       = files (snd (librispeech_initialize
                       sample_pickle (py "/data") [py "dev-clean"] [] false
                       (mkWorld Sample.corpus []))).
Proof.
  pose (w1 := snd (librispeech_initialize
                     sample_pickle (py "/data") [py "dev-clean"] [] false
                     (mkWorld Sample.corpus []))).
  assert (Hrun : librispeech_initialize
                   sample_pickle (py "/data") [py "dev-clean"] [] false
                   (mkWorld Sample.corpus [])
                 = (Ok tt, w1))
    by (vm_compute; reflexivity).
  assert (Hmiss : exists_ (files w1) (join (py "/data") (py "dev-other"))
                  = false)
    by (vm_compute; reflexivity).
  exact (missing_folder_stops sample_pickle (py "/data") [py "dev-clean"]
           [py "x"] (py "dev-other") [] false (mkWorld Sample.corpus []) w1
           Hrun Hmiss).
Defined.

(** ** Verbosity *)
















(** ** Trees that only grow *)

Lemma grows_refl (r : node) : grows r r.
Proof. intros q. now split. Qed.

Lemma grows_trans (r1 r2 r3 : node) : grows r1 r2 -> grows r2 r3 -> grows r1 r3.
Proof.
  intros H12 H23 q. destruct (H12 q) as [Hd Hl], (H23 q) as [Hd' Hl'].
  split; auto.
Qed.

Lemma fs_grows_refl (fs : filesystem) : fs_grows fs fs.
Proof. split; [reflexivity|apply grows_refl]. Qed.

Lemma fs_grows_trans (fs1 fs2 fs3 : filesystem) :
  fs_grows fs1 fs2 -> fs_grows fs2 fs3 -> fs_grows fs1 fs3.
Proof.
  intros [Hc Hg] [Hc' Hg']. split; [congruence|].
  exact (grows_trans _ _ _ Hg Hg').
Qed.

Lemma kind_at_None (r : node) (q : list pystr) :
  kind_at r q = None <-> lookup r q = None.
Proof. unfold kind_at. destruct (lookup r q); simpl; split; congruence. Qed.

(** A change at one place that was no directory and holds something
    afterwards. *)
Lemma grows_from_frame (target : list pystr) (r r' : node) :
  (forall q, q <> target -> kind_at r' q = kind_at r q) ->
  lookup r' target <> None ->
  is_dir_at r target = false ->
  grows r r'.
Proof.
  intros Hframe Hnew Hold q.
  destruct (list_eq_dec (list_eq_dec N.eq_dec) q target) as [->|Hq].
  - split; [congruence|]. intros _. exact Hnew.
  - specialize (Hframe q Hq). split.
    + now rewrite !is_dir_at_kind, Hframe.
    + rewrite <- !kind_at_None. now rewrite Hframe.
Qed.

Lemma write_file_grows (fs fs' : filesystem) (p : pystr) (data : bytes) :
  write_file fs p data = Ok fs' -> fs_grows fs fs'.
Proof.
  intros Hw. destruct (write_file_Ok fs fs' p data Hw)
    as (d & name & es & Hc & Hd & Hold & Hfs').
  split; [now subst fs'|].
  apply (grows_from_frame (d ++ [name])).
  - exact (write_file_frame fs fs' p data _ Hw Hc).
  - subst fs'. simpl.
    rewrite (lookup_update_dir_at _ name d (root fs) es Hd).
    now rewrite find_entry_set_entry, str_eqb_refl.
  - apply not_dir_is_dir_at. now rewrite (lookup_snoc _ _ _ es Hd).
Qed.

(** Adding an entry where there was none changes nothing elsewhere. *)
Lemma kind_at_add_entry (name : pystr) (new : node) (p : list pystr) :
  forall (r : node) es (q : list pystr),
    lookup r p = Some (Dir es) ->
    find_entry name es = None ->
    (forall rest, rest <> [] -> lookup new rest = None) ->
    q <> p ++ [name] ->
    kind_at (update_dir (set_entry name new) p r) q = kind_at r q.
Proof.
  induction p as [|c p IH]; intros r es q Hl Hold Hnew Hq.
  - simpl in Hl. injection Hl as ->. simpl.
    destruct q as [|m rest]; [reflexivity|].
    unfold kind_at. simpl. rewrite find_entry_set_entry.
    destruct (str_eqb name m) eqn:Hm.
    + apply str_eqb_eq in Hm. subst m.
      assert (Hrest : rest <> []) by (intros ->; now apply Hq).
      now rewrite Hold, (Hnew rest Hrest).
    + reflexivity.
  - simpl in Hl. destruct r as [data|es0]; [discriminate|].
    destruct (find_entry c es0) as [child|] eqn:Hc; [|discriminate].
    simpl. rewrite Hc.
    destruct q as [|m rest]; [reflexivity|].
    unfold kind_at. simpl. rewrite find_entry_set_entry.
    destruct (str_eqb c m) eqn:Hcm.
    + apply str_eqb_eq in Hcm. subst m. rewrite Hc.
      apply (IH child es rest Hl Hold Hnew).
      intros ->. now apply Hq.
    + reflexivity.
Qed.

Lemma add_dir_grows (r : node) (cur : list pystr) (c : pystr) es :
  lookup r cur = Some (Dir es) ->
  lookup r (cur ++ [c]) = None ->
  grows r (update_dir (set_entry c (Dir [])) cur r)
  /\ is_dir_at (update_dir (set_entry c (Dir [])) cur r) (cur ++ [c]) = true.
Proof.
  intros Hl Hnone.
  assert (Hfind : find_entry c es = None)
    by now rewrite <- (lookup_snoc r cur c es Hl).
  assert (Hnew : lookup (update_dir (set_entry c (Dir [])) cur r) (cur ++ [c])
                 = Some (Dir [])).
  { rewrite (lookup_update_dir_at _ c cur r es Hl).
    now rewrite find_entry_set_entry, str_eqb_refl. }
  split.
  - apply (grows_from_frame (cur ++ [c])).
    + intros q Hq. apply (kind_at_add_entry c (Dir []) cur r es q Hl Hfind);
        [|exact Hq].
      intros [|m rest] Hrest; [congruence|reflexivity].
    + now rewrite Hnew.
    + unfold is_dir_at. now rewrite Hnone.
  - unfold is_dir_at. now rewrite Hnew.
Qed.

(** ** [os.makedirs] *)

Lemma fold_mkdir_Raise (comps : list pystr) (e : exn) :
  fold_left mkdir_step comps (Raise e) = Raise e.
Proof. induction comps as [|c comps IH]; [reflexivity|exact IH]. Qed.

Lemma resolve_step_grows (r r' : node) (cur : list pystr) (c : pystr)
      (cp : list pystr) :
  grows r r' -> resolve_step r (Some cur) c = Some cp ->
  resolve_step r' (Some cur) c = Some cp.
Proof.
  intros Hg. unfold resolve_step.
  destruct (is_dir_at r cur) eqn:Hd; [|discriminate].
  now rewrite (proj1 (Hg cur) Hd).
Qed.

(** One component: the place it starts from is a directory, the tree
    grows, and the step is the step of path resolution on any tree that
    has grown from the new one. *)
Lemma mkdir_step_Ok (r : node) (cur : list pystr) (created : bool) (c : pystr)
      (r1 : node) (cur1 : list pystr) (created1 : bool) :
  mkdir_step (Ok (r, cur, created)) c = Ok (r1, cur1, created1) ->
  grows r r1
  /\ (created1 = true -> is_dir_at r1 cur1 = true)
  /\ (forall r', grows r1 r' -> resolve_step r' (Some cur) c = Some cur1).
Proof.
  unfold mkdir_step. simpl rbind.
  destruct (lookup r cur) as [[data|es]|] eqn:Hl; try discriminate.
  assert (Hd : is_dir_at r cur = true) by (unfold is_dir_at; now rewrite Hl).
  destruct (str_eqb c [] || str_eqb c (py ".")) eqn:Hdot.
  { intros H. injection H as <- <- <-. split; [apply grows_refl|].
    split; [now intros _|]. intros r' Hg. unfold resolve_step.
    now rewrite (proj1 (Hg cur) Hd), Hdot. }
  destruct (str_eqb c (py "..")) eqn:Hup.
  { intros H. injection H as <- <- <-. split; [apply grows_refl|].
    split; [discriminate|]. intros r' Hg. unfold resolve_step.
    now rewrite (proj1 (Hg cur) Hd), Hdot, Hup. }
  destruct (lookup r (cur ++ [c])) as [n|] eqn:Hn.
  { intros H. injection H as <- <- <-. split; [apply grows_refl|].
    split; [discriminate|]. intros r' Hg. unfold resolve_step.
    now rewrite (proj1 (Hg cur) Hd), Hdot, Hup. }
  intros H. injection H as <- <- <-.
  destruct (add_dir_grows r cur c es Hl Hn) as [Hg Hnew].
  split; [exact Hg|]. split; [now intros _|].
  intros r' Hg'. unfold resolve_step.
  now rewrite (proj1 (Hg' cur) (proj1 (Hg cur) Hd)), Hdot, Hup.
Qed.

Lemma makedirs_fold (comps : list pystr) :
  forall (r0 : node) (cur0 : list pystr) (created0 : bool)
         (r : node) (cur : list pystr) (created : bool),
    fold_left mkdir_step comps (Ok (r0, cur0, created0))
    = Ok (r, cur, created) ->
    (created0 = true -> is_dir_at r0 cur0 = true) ->
    grows r0 r
    /\ (created = true -> is_dir_at r cur = true)
    /\ (forall r', grows r r' ->
                   fold_left (resolve_step r') comps (Some cur0) = Some cur).
Proof.
  induction comps as [|c comps IH]; intros r0 cur0 created0 r cur created Hrun H0.
  - simpl in Hrun. injection Hrun as <- <- <-.
    split; [apply grows_refl|]. split; [exact H0|]. now intros r' _.
  - cbn [fold_left] in Hrun.
    destruct (mkdir_step (Ok (r0, cur0, created0)) c)
      as [[[r1 cur1] created1]|e] eqn:Hstep;
      [|now rewrite fold_mkdir_Raise in Hrun].
    destruct (mkdir_step_Ok _ _ _ _ _ _ _ Hstep) as (Hg1 & Hc1 & Hres1).
    destruct (IH r1 cur1 created1 r cur created Hrun Hc1) as (Hg & Hc & Hres).
    split; [exact (grows_trans _ _ _ Hg1 Hg)|]. split; [exact Hc|].
    intros r' Hg'. cbn [fold_left].
    rewrite (Hres1 r' (grows_trans _ _ _ Hg Hg')). now apply Hres.
Qed.

(** What a successful [os.makedirs] did: nothing was removed, and the
    path is a directory. *)
Lemma makedirs_Ok (exist_ok : bool) (fs fs' : filesystem) (p : pystr) :
  makedirs exist_ok fs p = Ok fs' ->
  fs_grows fs fs'
  /\ exists cur, canon fs' p = Some cur /\ is_dir_at (root fs') cur = true.
Proof.
  unfold makedirs. destruct p as [|a p]; [discriminate|].
  set (path := a :: p).
  destruct (fold_left mkdir_step (split_char SLASH path) _)
    as [[[r cur] created]|e] eqn:Hfold; simpl rbind; [|discriminate].
  destruct (makedirs_fold _ _ _ _ _ _ _ Hfold) as (Hg & Hc & Hres);
    [discriminate|].
  destruct (created || exist_ok && is_dir_at r cur) eqn:Hok; [|discriminate].
  intros H. injection H as <-. split; [split; [reflexivity|exact Hg]|].
  exists cur. split.
  - unfold canon. fold path. simpl. exact (Hres r (grows_refl r)).
  - simpl. destruct created; [now apply Hc|].
    simpl in Hok. now apply andb_true_iff in Hok.
Qed.

Lemma fold_resolve_grows (r r' : node) (comps : list pystr) :
  grows r r' ->
  forall acc cp,
    fold_left (resolve_step r) comps acc = Some cp ->
    fold_left (resolve_step r') comps acc = Some cp.
Proof.
  intros Hg. induction comps as [|c comps IH]; intros acc cp Hrun;
    [exact Hrun|].
  cbn [fold_left] in *. destruct acc as [cur|];
    [|now rewrite fold_resolve_None in Hrun].
  destruct (resolve_step r (Some cur) c) as [cur1|] eqn:Hstep;
    [|now rewrite fold_resolve_None in Hrun].
  rewrite (resolve_step_grows r r' cur c cur1 Hg Hstep). now apply IH.
Qed.

(** A path that resolves keeps resolving, to the same place. *)
Lemma canon_grows (fs fs' : filesystem) (p : pystr) (cp : list pystr) :
  fs_grows fs fs' -> canon fs p = Some cp -> canon fs' p = Some cp.
Proof.
  intros [Hcwd Hg]. unfold canon. destruct p as [|a p]; [discriminate|].
  rewrite Hcwd. now apply fold_resolve_grows.
Qed.

(** What exists keeps existing. *)
Lemma exists_grows (fs fs' : filesystem) (p : pystr) :
  fs_grows fs fs' -> exists_ fs p = true -> exists_ fs' p = true.
Proof.
  intros Hg. unfold exists_, stat.
  destruct (canon fs p) as [cp|] eqn:Hc; [|discriminate].
  rewrite (canon_grows fs fs' p cp Hg Hc). destruct Hg as [_ Hg].
  destruct (lookup (root fs) cp) eqn:Hl; [|discriminate]. intros _.
  destruct (lookup (root fs') cp) eqn:Hl'; [reflexivity|].
  exfalso. apply (proj2 (Hg cp)); [congruence|exact Hl'].
Qed.

Lemma extract_member_grows (dest : pystr) (m : member) (fs fs' : filesystem) :
  extract_member dest m fs = Ok fs' -> fs_grows fs fs'.
Proof.
  unfold extract_member.
  set (upper := dirname (join dest (fst m))).
  destruct (negb (str_eqb upper []) && negb (exists_ fs upper)).
  - destruct (makedirs false fs upper) as [fs1|e] eqn:Hmk; simpl rbind;
      [|discriminate].
    apply makedirs_Ok in Hmk. destruct Hmk as [Hg1 _].
    destruct (snd m) as [data|]; intros H.
    + exact (fs_grows_trans _ _ _ Hg1 (write_file_grows _ _ _ _ H)).
    + apply makedirs_Ok in H. exact (fs_grows_trans _ _ _ Hg1 (proj1 H)).
  - simpl rbind. destruct (snd m) as [data|]; intros H.
    + exact (write_file_grows _ _ _ _ H).
    + apply makedirs_Ok in H. exact (proj1 H).
Qed.

Lemma only_grows_keeps {A} (m : M A) : keeps_files m -> only_grows m.
Proof.
  intros Hk w r w' Hrun. rewrite (Hk w r w' Hrun). apply fs_grows_refl.
Qed.

Lemma only_grows_bind {A B} (m : M A) (k : A -> M B) :
  only_grows m -> (forall a, only_grows (k a)) -> only_grows (bind m k).
Proof.
  intros Hm Hk w r w' Hrun. unfold bind in Hrun.
  destruct (m w) as [[a|e] w1] eqn:Hmw.
  - exact (fs_grows_trans _ _ _ (Hm w (Ok a) w1 Hmw) (Hk a w1 r w' Hrun)).
  - injection Hrun as _ <-. exact (Hm w (Raise e) w1 Hmw).
Qed.

Lemma only_grows_for {A} (xs : list A) (body : A -> M unit) :
  (forall x, only_grows (body x)) -> only_grows (for_ xs body).
Proof.
  intros Hb. induction xs as [|x xs IH]; simpl.
  - apply only_grows_keeps, keeps_files_ret.
  - apply only_grows_bind; [apply Hb|]. intros _. exact IH.
Qed.

Lemma only_grows_syscall (f : filesystem -> result filesystem) :
  (forall fs fs', f fs = Ok fs' -> fs_grows fs fs') -> only_grows (syscall f).
Proof.
  intros Hf w r w' Hrun. unfold syscall in Hrun.
  destruct (f (files w)) as [fs'|e] eqn:Hfs; injection Hrun as _ <-.
  - exact (Hf _ _ Hfs).
  - apply fs_grows_refl.
Qed.

Lemma only_grows_when (b : bool) (m : M unit) :
  only_grows m -> only_grows (when b m).
Proof.
  intros Hm. destruct b; [exact Hm|apply only_grows_keeps, keeps_files_ret].
Qed.

Section FetchingMore.

Variable http_get : pystr -> option bytes.
Variable untar : bytes -> option (list member).

Lemma urlretrieve_grows (url filename : pystr) :
  only_grows (urlretrieve http_get url filename).
Proof.
  unfold urlretrieve. apply only_grows_bind.
  { apply only_grows_keeps, keeps_files_emit. }
  intros _. destruct (http_get url) as [data|].
  - apply only_grows_syscall. intros fs fs'. apply write_file_grows.
  - apply only_grows_keeps, keeps_files_raise.
Qed.

Lemma extractall_grows (tar_file_path dest : pystr) :
  only_grows (extractall untar tar_file_path dest).
Proof.
  unfold extractall. apply only_grows_bind.
  { apply only_grows_keeps, keeps_files_emit. }
  intros _. apply only_grows_bind.
  { apply only_grows_keeps, keeps_files_try_read. }
  intros content. destruct (untar content) as [members|].
  - apply only_grows_for. intros m. apply only_grows_syscall.
    intros fs fs'. apply extract_member_grows.
  - apply only_grows_keeps, keeps_files_raise.
Qed.

Lemma maybe_download_eq (folder_dir : pystr) (folder_names : list pystr)
      (verbose : bool) :
  _maybe_download_and_extract http_get untar folder_dir folder_names verbose
  = bind (ask (fun fs => exists_ fs folder_dir)) (fun dir_exists =>
      bind (when (negb dir_exists)
              (bind (when verbose
                       (print (folder_dir ++ py " doesn't exist. Making now.")))
                    (fun _ => syscall (fun fs => makedirs false fs folder_dir))))
           (fun _ => for_ folder_names
                          (download_body http_get untar folder_dir verbose))).
Proof. reflexivity. Qed.

Lemma download_body_grows (folder_dir : pystr) (verbose : bool)
      (fname : pystr) :
  only_grows (download_body http_get untar folder_dir verbose fname).
Proof.
  unfold download_body.
  apply only_grows_bind; [apply only_grows_keeps, keeps_files_ask|].
  intros found. destruct (negb found).
  - apply only_grows_bind.
    { apply only_grows_keeps, keeps_files_when, keeps_files_print. }
    intros _. apply only_grows_bind; [|intros _; apply extractall_grows].
    destruct verbose; [|apply urlretrieve_grows].
    apply only_grows_bind; [apply only_grows_keeps, keeps_files_print|].
    intros _. apply only_grows_bind; [apply urlretrieve_grows|].
    intros _. apply only_grows_bind;
      [apply only_grows_keeps, keeps_files_print|].
    intros _. apply only_grows_keeps, keeps_files_print.
  - apply only_grows_keeps, keeps_files_when, keeps_files_print.
Qed.

(** Downloading and unpacking removes nothing. *)
Lemma maybe_download_grows (folder_dir : pystr) (folder_names : list pystr)
      (verbose : bool) :
  only_grows (_maybe_download_and_extract http_get untar folder_dir
                                          folder_names verbose).
Proof.
  rewrite maybe_download_eq.
  apply only_grows_bind; [apply only_grows_keeps, keeps_files_ask|].
  intros dir_exists. apply only_grows_bind.
  - apply only_grows_when, only_grows_bind.
    + apply only_grows_keeps, keeps_files_when, keeps_files_print.
    + intros _. apply only_grows_syscall. intros fs fs' H.
      apply makedirs_Ok in H. exact (proj1 H).
  - intros _. apply only_grows_for. apply download_body_grows.
Qed.

(** When the call returns, the folder is there. *)
Lemma maybe_download_makes_dir (folder_dir : pystr)
      (folder_names : list pystr) (verbose : bool) (w w' : world) :
  _maybe_download_and_extract http_get untar folder_dir folder_names verbose w
  = (Ok tt, w') ->
  exists_ (files w') folder_dir = true.
Proof.
  rewrite maybe_download_eq, bind_ask. intros Hrun.
  apply bind_Ok_inv in Hrun. destruct Hrun as ([] & w1 & Hmk & Hloop).
  assert (H1 : exists_ (files w1) folder_dir = true).
  { destruct (exists_ (files w) folder_dir) eqn:Hex; simpl in Hmk.
    - injection Hmk as <-. exact Hex.
    - apply bind_Ok_inv in Hmk. destruct Hmk as ([] & w0 & Hpr & Hsys).
      apply syscall_Ok_inv in Hsys. destruct Hsys as [Hsys _].
      apply makedirs_Ok in Hsys. destruct Hsys as (_ & cur & Hc & Hd).
      unfold exists_, stat. rewrite Hc. unfold is_dir_at in Hd.
      now destruct (lookup (root (files w1)) cur). }
  apply (exists_grows (files w1)); [|exact H1].
  exact (only_grows_for folder_names _
           (download_body_grows folder_dir verbose) w1 (Ok tt) w' Hloop).
Qed.

(** X10. Downloading and unpacking removes nothing.  However
    [_maybe_download_and_extract] ends, every path that existed exists, and
    every directory is still a directory; when it returns, [folder_dir]
    exists. *)
Theorem download_removes_nothing :
  forall (folder_dir : pystr) (folder_names : list pystr) (verbose : bool)
         (w w' : world) (r : result unit),
    _maybe_download_and_extract http_get untar folder_dir folder_names
                                verbose w = (r, w') ->
    (forall p, exists_ (files w) p = true -> exists_ (files w') p = true)
    /\ (forall p es, stat (files w) p = Some (Dir es) ->
                     exists es', stat (files w') p = Some (Dir es'))
    /\ (r = Ok tt -> exists_ (files w') folder_dir = true).
Proof.
  intros folder_dir folder_names verbose w w' r Hrun.
  pose proof (maybe_download_grows folder_dir folder_names verbose w r w' Hrun)
    as Hg.
  split; [|split].
  - intros p. now apply exists_grows.
  - intros p es. unfold stat.
    destruct (canon (files w) p) as [cp|] eqn:Hc; [|discriminate].
    rewrite (canon_grows _ _ p cp Hg Hc). intros Hl.
    destruct Hg as [_ Hg]. specialize (Hg cp). destruct Hg as [Hd _].
    unfold is_dir_at in Hd. rewrite Hl in Hd. specialize (Hd eq_refl).
    destruct (lookup (root (files w')) cp) as [[d0|es']|]; try discriminate.
    now exists es'.
  - intros ->. exact (maybe_download_makes_dir _ _ _ _ _ Hrun).
Qed.

Lemma valid_name_tar (fname : pystr) :
  valid_name fname = true -> valid_name (fname ++ py ".tar.gz") = true.
Proof.
  intros H. apply valid_name_spec in H. destruct H as (Hne & Hs & _ & _).
  unfold valid_name. rewrite !andb_true_iff, !negb_true_iff. repeat split.
  - destruct fname; [congruence|reflexivity].
  - rewrite existsb_app, Hs. reflexivity.
  - apply str_eqb_neq. intros Heq. apply (f_equal (@List.length N)) in Heq.
    rewrite length_app in Heq. simpl in Heq. lia.
  - apply str_eqb_neq. intros Heq. apply (f_equal (@List.length N)) in Heq.
    rewrite length_app in Heq. simpl in Heq. lia.
Qed.




End FetchingMore.

Lemma download_removes_nothing_witness :
  exists w',
    _maybe_download_and_extract sample_http_get sample_untar sample_dir
                                [py "dev-clean"] true empty_world
    = (Ok tt, w')
    /\ exists_ (files empty_world) sample_dir = false
    /\ exists_ (files w') sample_dir = true
    /\ (forall p, exists_ (files empty_world) p = true ->
                  exists_ (files w') p = true).
Proof.
  pose (w' := snd (_maybe_download_and_extract
                     sample_http_get sample_untar sample_dir
                     [py "dev-clean"] true empty_world)).
  assert (Hrun : _maybe_download_and_extract
                   sample_http_get sample_untar sample_dir
                   [py "dev-clean"] true empty_world = (Ok tt, w'))
    by (vm_compute; reflexivity).
  destruct (download_removes_nothing sample_http_get sample_untar sample_dir
              [py "dev-clean"] true empty_world w' (Ok tt) Hrun)
    as (Hex & _ & Hdir).
  exists w'. split; [exact Hrun|]. split; [vm_compute; reflexivity|].
  split; [exact (Hdir eq_refl)|exact Hex].
Defined.


(** ** The main block, run twice *)

Lemma idle_on_ret (fs : filesystem) : idle_on fs (ret tt).
Proof. intros w Hw. exists w. now repeat split. Qed.

Lemma idle_on_print (fs : filesystem) (line : pystr) : idle_on fs (print line).
Proof.
  intros w Hw. eexists. split; [reflexivity|]. simpl.
  rewrite downloads_app, extractions_app. unfold downloads, extractions.
  simpl. repeat split; [exact Hw|lia|lia].
Qed.

Lemma idle_on_bind (fs : filesystem) (m k : M unit) :
  idle_on fs m -> idle_on fs k -> idle_on fs (bind m (fun _ => k)).
Proof.
  intros Hm Hk w Hw. destruct (Hm w Hw) as (w1 & H1 & Hf1 & Hd1 & He1).
  destruct (Hk w1 Hf1) as (w2 & H2 & Hf2 & Hd2 & He2).
  exists w2. unfold bind. rewrite H1. repeat split; [exact H2|exact Hf2| |];
    congruence.
Qed.

Lemma idle_on_when (fs : filesystem) (b : bool) (m : M unit) :
  idle_on fs m -> idle_on fs (when b m).
Proof. intros Hm. destruct b; [exact Hm|apply idle_on_ret]. Qed.

Lemma idle_on_for {A} (fs : filesystem) (xs : list A) (body : A -> M unit) :
  (forall x, In x xs -> idle_on fs (body x)) -> idle_on fs (for_ xs body).
Proof.
  induction xs as [|x xs IH]; intros Hb; simpl; [apply idle_on_ret|].
  apply idle_on_bind; [apply Hb; now left|].
  apply IH. intros y Hy. apply Hb. now right.
Qed.

Section MainTwice.

Variable http_get : pystr -> option bytes.
Variable untar : bytes -> option (list member).
Variable pickle_dumps : CorpusIndex -> bytes.

Lemma initialize_fetches (folder_dir : pystr) (folder_names : list pystr)
      (save_folder : pystr) (verbose : bool) :
  fetches (librispeech_initialize pickle_dumps folder_dir folder_names
                                  save_folder verbose) 0 0.
Proof.
  unfold librispeech_initialize. apply fetches_for. intros fname.
  unfold initialize_body.
  apply (fetches_bind _ _ 0 0 0 0); [apply fetches_when, fetches_print|].
  intros _. apply (fetches_bind _ _ 0 0 0 0); [apply fetches_ask|].
  intros found. destruct (negb found); [apply fetches_raise|].
  apply (fetches_bind _ _ 0 0 0 0); [apply fetches_try_read|].
  intros data. apply fetches_syscall.
Qed.

Lemma initialize_grows (folder_dir : pystr) (folder_names : list pystr)
      (save_folder : pystr) (verbose : bool) :
  only_grows (librispeech_initialize pickle_dumps folder_dir folder_names
                                     save_folder verbose).
Proof.
  unfold librispeech_initialize. apply only_grows_for. intros fname.
  unfold initialize_body. apply only_grows_bind.
  { apply only_grows_keeps, keeps_files_when, keeps_files_print. }
  intros _. apply only_grows_bind; [apply only_grows_keeps, keeps_files_ask|].
  intros found. destruct (negb found).
  { apply only_grows_keeps, keeps_files_raise. }
  apply only_grows_bind; [apply only_grows_keeps, keeps_files_try_read|].
  intros data. apply only_grows_syscall. intros fs fs'.
  apply write_file_grows.
Qed.

(** With everything in place, downloading finds nothing to do. *)
Lemma maybe_download_idle (fs : filesystem) (folder_dir : pystr)
      (folder_names : list pystr) (verbose : bool) :
  exists_ fs folder_dir = true ->
  (forall fname, In fname folder_names ->
                 exists_ fs (join folder_dir fname) = true) ->
  idle_on fs (_maybe_download_and_extract http_get untar folder_dir
                                          folder_names verbose).
Proof.
  intros Hdir Hall w Hw. subst fs.
  destruct (maybe_download_skips http_get untar folder_dir folder_names
              verbose w Hdir Hall) as (t & Hrun & Ht).
  destruct (only_prints_counts verbose t Ht) as [Hd He].
  eexists. split; [exact Hrun|]. simpl.
  rewrite downloads_app, extractions_app. repeat split; lia.
Qed.

(** With every pickle current, saving finds nothing to do. *)
Lemma initialize_idle (fs : filesystem) (folder_dir : pystr)
      (folder_names : list pystr) (save_folder : pystr) (verbose : bool) :
  (forall y, In y folder_names -> valid_name y = true) ->
  (forall x, In x folder_names -> current pickle_dumps folder_dir x fs) ->
  idle_on fs (librispeech_initialize pickle_dumps folder_dir folder_names
                                     save_folder verbose).
Proof.
  intros Hv Hcur w Hw. subst fs.
  destruct (initialize_loop_again pickle_dumps folder_dir verbose folder_names
              Hv w Hcur) as (w' & Hrun & Hf).
  exists w'. split; [exact Hrun|]. split; [exact Hf|].
  destruct (initialize_fetches folder_dir folder_names save_folder verbose
              w tt w' Hrun) as [Hd He].
  split; lia.
Qed.

(** X12. The script, run twice.  When the main block without [--clean] has
    returned, for folders with valid names, [master.pkl] of every folder
    holds the pickle of the index of the folder as the files are, and a
    second run on these files returns, starts no download and no
    extraction, and leaves every file as it is. *)
Theorem main_twice :
  forall (LIBRISPEECH_DIR : pystr) (folder_names : list pystr)
         (verbose : bool) (w w1 : world),
    (forall fname, In fname folder_names -> valid_name fname = true) ->
    main http_get untar pickle_dumps LIBRISPEECH_DIR folder_names false
         verbose w = (Ok tt, w1) ->
    (forall fname,
        In fname folder_names ->
        exists index,
          flacpath_transcription_id (files w1) (join LIBRISPEECH_DIR fname)
          = Ok index
          /\ read_file (files w1)
                       (join (join LIBRISPEECH_DIR fname) (py "master.pkl"))
             = Ok (pickle_dumps index))
    /\ exists w2,
         main http_get untar pickle_dumps LIBRISPEECH_DIR folder_names false
              verbose w1 = (Ok tt, w2)
         /\ files w2 = files w1
         /\ downloads (trace w2) = downloads (trace w1)
         /\ extractions (trace w2) = extractions (trace w1).
Proof.
  intros L folder_names verbose w w1 Hv Hrun.
  unfold main in Hrun.
  apply bind_Ok_inv in Hrun. destruct Hrun as ([] & wa & _ & Hrun).
  apply bind_Ok_inv in Hrun. destruct Hrun as ([] & wb & _ & Hrun).
  apply bind_Ok_inv in Hrun. destruct Hrun as ([] & wc & _ & Hrun).
  apply bind_Ok_inv in Hrun. destruct Hrun as ([] & wd & Hdown & Hrun).
  apply bind_Ok_inv in Hrun. destruct Hrun as ([] & we & Hpr & Hinit).
  assert (Hwe : files we = files wd).
  { apply (keeps_files_when verbose _) in Hpr; [exact Hpr|].
    apply keeps_files_bind; [apply keeps_files_print|].
    intros _. apply keeps_files_print. }
  assert (Hcur : forall x, In x folder_names ->
                           current pickle_dumps L x (files w1)).
  { exact (initialize_loop_current pickle_dumps L verbose folder_names Hv
             we w1 Hinit). }
  assert (Hdir : exists_ (files w1) L = true).
  { apply (exists_grows (files we)).
    - exact (initialize_grows L folder_names L verbose we (Ok tt) w1 Hinit).
    - rewrite Hwe.
      exact (maybe_download_makes_dir http_get untar L folder_names verbose
               wc wd Hdown). }
  assert (Hall : forall fname, In fname folder_names ->
                               exists_ (files w1) (join L fname) = true).
  { intros fname Hin. destruct (Hcur fname Hin) as (idx & _ & Hread).
    apply (master_read_exists _ _ _ (join_nonempty L fname
             (proj1 (valid_name_spec fname (Hv fname Hin)))) Hread). }
  split; [exact Hcur|].
  assert (Hidle : idle_on (files w1)
                          (main http_get untar pickle_dumps L folder_names
                                false verbose)).
  { unfold main. apply idle_on_bind.
    { apply idle_on_when, idle_on_bind; [apply idle_on_print|].
      apply idle_on_for. intros x _. apply idle_on_print. }
    apply idle_on_bind; [apply idle_on_ret|].
    apply idle_on_bind.
    { apply idle_on_when, idle_on_bind; apply idle_on_print. }
    apply idle_on_bind; [now apply maybe_download_idle|].
    apply idle_on_bind.
    { apply idle_on_when, idle_on_bind; apply idle_on_print. }
    now apply initialize_idle. }
  destruct (Hidle w1 eq_refl) as (w2 & Hrun2 & Hf2 & Hd2 & He2).
  now exists w2.
Qed.

End MainTwice.

Lemma main_twice_witness :
  exists w1 w2,
    main sample_http_get sample_untar sample_pickle sample_dir
         [py "dev-clean"] false true empty_world = (Ok tt, w1)
    /\ main sample_http_get sample_untar sample_pickle sample_dir
            [py "dev-clean"] false true w1 = (Ok tt, w2)
    /\ files w2 = files w1
    /\ downloads (trace w1) = 1
    /\ downloads (trace w2) = 1.
Proof.
  pose (w1 := snd (main sample_http_get sample_untar sample_pickle sample_dir
                        [py "dev-clean"] false true empty_world)).
  assert (Hrun : main sample_http_get sample_untar sample_pickle sample_dir
                      [py "dev-clean"] false true empty_world = (Ok tt, w1))
    by (vm_compute; reflexivity).
  assert (Hv : forall fname, In fname [py "dev-clean"] ->
                             valid_name fname = true)
    by (intros fname [<-|[]]; reflexivity).
  destruct (main_twice sample_http_get sample_untar sample_pickle sample_dir
              [py "dev-clean"] true empty_world w1 Hv Hrun)
    as (_ & w2 & Hrun2 & Hfiles & Hd & _).
  exists w1, w2. split; [exact Hrun|]. split; [exact Hrun2|].
  split; [exact Hfiles|].
  assert (H1 : downloads (trace w1) = 1) by (vm_compute; reflexivity).
  split; [exact H1|]. now rewrite Hd.
Defined.

(** ** Cleaning leaves no pickle *)

Lemma shrinks_refl (fs : filesystem) : shrinks fs fs.
Proof. repeat split. intros q. now left. Qed.

Lemma shrinks_trans (fs1 fs2 fs3 : filesystem) :
  shrinks fs1 fs2 -> shrinks fs2 fs3 -> shrinks fs1 fs3.
Proof.
  intros (Hc & Hd & Hk) (Hc' & Hd' & Hk'). split; [congruence|]. split.
  - intros q. now rewrite Hd', Hd.
  - intros q. destruct (Hk' q) as [H|H]; [|now right].
    rewrite H. apply Hk.
Qed.

Lemma shrinks_canon (fs fs' : filesystem) (p : pystr) :
  shrinks fs fs' -> canon fs' p = canon fs p.
Proof. intros (Hc & Hd & _). now apply canon_ext. Qed.

Lemma shrinks_None (fs fs' : filesystem) (q : list pystr) :
  shrinks fs fs' -> lookup (root fs) q = None -> lookup (root fs') q = None.
Proof.
  intros (_ & _ & Hk) Hnone. apply kind_at_None.
  destruct (Hk q) as [H|H]; [|exact H]. rewrite H. now apply kind_at_None.
Qed.

(** What [os.remove] leaves: a tree that has shrunk, without the entry. *)
Lemma remove_shrinks (fs fs' : filesystem) (p : pystr) :
  remove fs p = Ok fs' ->
  shrinks fs fs'
  /\ exists d name,
       canon fs p = Some (d ++ [name])
       /\ lookup (root fs') (d ++ [name]) = None.
Proof.
  intros Hrm.
  destruct (remove_Ok fs fs' p Hrm) as (d & name & data & es & Hc & Hl & Hf & ->).
  assert (Hnew : find_entry name (remove_entry name es) = None)
    by now rewrite find_entry_remove_entry, str_eqb_refl.
  assert (Hold : not_dir (find_entry name es)) by now rewrite Hf.
  assert (Hnew' : not_dir (find_entry name (remove_entry name es)))
    by now rewrite Hnew.
  assert (Hgone : lookup (update_dir (remove_entry name) d (root fs))
                         (d ++ [name]) = None)
    by now rewrite (lookup_update_dir_at _ name d (root fs) es Hl).
  split.
  - split; [reflexivity|]. split; simpl.
    + intros q. exact (is_dir_at_update_dir _ name d (root fs) es q
                         (local_edit_remove_entry name) Hl Hold Hnew').
    + intros q.
      destruct (list_eq_dec (list_eq_dec N.eq_dec) q (d ++ [name]))
        as [->|Hq].
      * right. now apply kind_at_None.
      * left. exact (kind_at_update_dir _ name (local_edit_remove_entry name)
                       d (root fs) es q Hl Hold Hnew' Hq).
  - exists d, name. split; [exact Hc|exact Hgone].
Qed.

(** A name listed after some removals was listed before, and is valid when
    the names were. *)
Lemma shrinks_listing (fs0 fs : filesystem) (p : pystr) (names : list pystr) :
  wf_names (root fs0) = true ->
  shrinks fs0 fs ->
  listdir fs p = Ok names ->
  exists d es,
    canon fs0 p = Some d
    /\ is_dir_at (root fs0) d = true
    /\ lookup (root fs) d = Some (Dir es)
    /\ names = entry_names es
    /\ (forall name, In name names -> valid_name name = true).
Proof.
  intros Hwf Hs. pose proof Hs as (Hcwd & Hdirs & Hkinds).
  unfold listdir, stat. rewrite (shrinks_canon fs0 fs p Hs).
  destruct (canon fs0 p) as [d|] eqn:Hc; [|discriminate].
  destruct (lookup (root fs) d) as [[data|es]|] eqn:Hl; try discriminate.
  intros H. injection H as <-. exists d, es. split; [reflexivity|].
  assert (Hdir0 : is_dir_at (root fs0) d = true).
  { rewrite <- Hdirs. unfold is_dir_at. now rewrite Hl. }
  split; [exact Hdir0|]. split; [exact Hl|]. split; [reflexivity|].
  intros name Hin.
  destruct (In_find_entry name es Hin) as [n Hn].
  assert (Hk : kind_at (root fs) (d ++ [name]) = Some (kind_of n))
    by (unfold kind_at; now rewrite (lookup_snoc _ _ _ es Hl), Hn).
  destruct (Hkinds (d ++ [name])) as [Hsame|Hnone]; [|congruence].
  rewrite Hk in Hsame. unfold is_dir_at in Hdir0.
  destruct (lookup (root fs0) d) as [[data0|es0]|] eqn:Hl0;
    try discriminate.
  unfold kind_at in Hsame. rewrite (lookup_snoc _ _ _ es0 Hl0) in Hsame.
  destruct (find_entry name es0) as [n0|] eqn:Hn0; [|discriminate].
  apply find_entry_In in Hn0.
  apply (wf_names_entries (root fs0) d es0 name Hwf Hl0).
  unfold entry_names. apply in_map_iff. now exists (name, n0).
Qed.

(** The loop over the pickles of one folder. *)
Lemma remove_loop (fs0 : filesystem) (fpath : pystr) (d : list pystr)
      (verbose : bool) (l : list pystr) :
  canon fs0 fpath = Some d ->
  is_dir_at (root fs0) d = true ->
  (forall name, In name l -> valid_name name = true) ->
  forall w w',
    shrinks fs0 (files w) ->
    for_ (map (fun f => join fpath f) l)
         (fun f => bind (when verbose (print f))
                        (fun _ => syscall (fun fs => remove fs f))) w
    = (Ok tt, w') ->
    shrinks (files w) (files w')
    /\ forall name, In name l ->
                    lookup (root (files w')) (d ++ [name]) = None.
Proof.
  intros Hc Hd. induction l as [|name l IH]; intros Hv w w' Hs Hrun.
  - simpl in Hrun. injection Hrun as <-. split; [apply shrinks_refl|].
    intros name [].
  - simpl in Hrun. apply bind_Ok_inv in Hrun.
    destruct Hrun as ([] & w1 & Hone & Hrest).
    apply bind_Ok_inv in Hone. destruct Hone as ([] & w0 & Hpr & Hrm).
    assert (Hw0 : files w0 = files w)
      by exact (keeps_files_when verbose _ (keeps_files_print _) w (Ok tt) w0
                                 Hpr).
    apply syscall_Ok_inv in Hrm. destruct Hrm as [Hrm _]. rewrite Hw0 in Hrm.
    destruct (remove_shrinks _ _ _ Hrm) as (Hs1 & d1 & name1 & Hc1 & Hgone).
    rewrite (shrinks_canon fs0 (files w) _ Hs),
      (canon_join fs0 fpath name d Hc Hd (Hv name (or_introl eq_refl))) in Hc1.
    injection Hc1 as Hc1. apply app_inj_tail in Hc1. destruct Hc1 as [<- <-].
    destruct (IH (fun n Hn => Hv n (or_intror Hn)) w1 w'
                 (shrinks_trans _ _ _ Hs Hs1) Hrest) as (Hs2 & Hnone).
    split; [exact (shrinks_trans _ _ _ Hs1 Hs2)|].
    intros n [<-|Hn]; [|now apply Hnone].
    exact (shrinks_None _ _ _ Hs2 Hgone).
Qed.

(** One folder: when the body returns, the files have shrunk and the
    folder lists no name that ends in [.pkl]. *)
Lemma clean_body_no_pickle (fs0 : filesystem) (save_dir x : pystr)
      (verbose : bool) (w w1 : world) :
  wf_names (root fs0) = true ->
  shrinks fs0 (files w) ->
  clean_body save_dir verbose x w = (Ok tt, w1) ->
  shrinks (files w) (files w1)
  /\ forall d name,
       canon fs0 (join save_dir x) = Some d ->
       is_dir_at (root fs0) d = true ->
       endswith name (py ".pkl") = true ->
       lookup (root (files w1)) (d ++ [name]) = None.
Proof.
  intros Hwf Hs. pose proof Hs as (Hcwd & Hdirs & Hkinds).
  unfold clean_body. rewrite bind_ask.
  destruct (exists_ (files w) (join save_dir x)) eqn:Hex.
  - intros Hrun. apply bind_Ok_inv in Hrun.
    destruct Hrun as (names & w0 & Hls & Hloop).
    apply try_read_Ok_inv in Hls. destruct Hls as [Hls ->].
    destruct (shrinks_listing fs0 (files w) _ names Hwf Hs Hls)
      as (d & es & Hc & Hd & Hl & Hnames & Hvalid).
    destruct (remove_loop fs0 (join save_dir x) d verbose
                (filter (fun f => endswith f (py ".pkl")) names) Hc Hd
                (fun n Hn => Hvalid n (proj1 (proj1 (filter_In _ _ _) Hn)))
                w w1 Hs Hloop) as (Hs1 & Hnone).
    split; [exact Hs1|].
    intros d' name Hc' _ Hpkl. rewrite Hc in Hc'. injection Hc' as <-.
    destruct (in_dec (list_eq_dec N.eq_dec) name names) as [Hin|Hnot].
    + apply Hnone. apply filter_In. now split.
    + apply (shrinks_None _ _ _ Hs1).
      rewrite (lookup_snoc _ _ _ es Hl).
      destruct (find_entry name es) as [n|] eqn:Hf; [|reflexivity].
      exfalso. apply Hnot. rewrite Hnames. unfold entry_names.
      apply in_map_iff. exists (name, n). split; [reflexivity|].
      now apply find_entry_In.
  - intros Hrun. injection Hrun as <-. split; [apply shrinks_refl|].
    intros d name Hc Hd _. exfalso.
    unfold exists_, stat in Hex.
    rewrite (shrinks_canon fs0 (files w) _ Hs), Hc in Hex.
    rewrite <- Hdirs in Hd. unfold is_dir_at in Hd.
    now destruct (lookup (root (files w)) d).
Qed.

Lemma clean_loop_no_pickle (fs0 : filesystem) (save_dir : pystr)
      (verbose : bool) (names : list pystr) :
  wf_names (root fs0) = true ->
  forall w w',
    shrinks fs0 (files w) ->
    for_ names (clean_body save_dir verbose) w = (Ok tt, w') ->
    shrinks (files w) (files w')
    /\ forall x d name,
         In x names ->
         canon fs0 (join save_dir x) = Some d ->
         is_dir_at (root fs0) d = true ->
         endswith name (py ".pkl") = true ->
         lookup (root (files w')) (d ++ [name]) = None.
Proof.
  intros Hwf. induction names as [|y names IH]; intros w w' Hs Hrun.
  - simpl in Hrun. injection Hrun as <-. split; [apply shrinks_refl|].
    intros x d name [].
  - simpl in Hrun. apply bind_Ok_inv in Hrun.
    destruct Hrun as ([] & w1 & Hone & Hrest).
    destruct (clean_body_no_pickle fs0 save_dir y verbose w w1 Hwf Hs Hone)
      as (Hs1 & Hy).
    destruct (IH w1 w' (shrinks_trans _ _ _ Hs Hs1) Hrest) as (Hs2 & Hxs).
    split; [exact (shrinks_trans _ _ _ Hs1 Hs2)|].
    intros x d name [<-|Hin] Hc Hd Hpkl.
    + exact (shrinks_None _ _ _ Hs2 (Hy d name Hc Hd Hpkl)).
    + exact (Hxs x d name Hin Hc Hd Hpkl).
Qed.

(** X13. Cleaning leaves no pickle.  When the [--clean] block returns, on
    files whose names are valid, no selected folder lists a name that ends
    in [.pkl] any more; and nothing but files was removed: the directories
    are the same, and every path holds what it held or nothing. *)
Theorem clean_leaves_no_pickle :
  forall (save_dir : pystr) (folder_names : list pystr) (verbose : bool)
         (w w' : world),
    wf_names (root (files w)) = true ->
    clean save_dir folder_names verbose w = (Ok tt, w') ->
    (forall fname names f,
        In fname folder_names ->
        listdir (files w') (join save_dir fname) = Ok names ->
        In f names ->
        endswith f (py ".pkl") = false)
    /\ (forall q, is_dir_at (root (files w')) q = is_dir_at (root (files w)) q).
Proof.
  intros save_dir folder_names verbose w w' Hwf Hrun. unfold clean in Hrun.
  apply bind_Ok_inv in Hrun. destruct Hrun as ([] & wa & Hpr & Hrun).
  apply bind_Ok_inv in Hrun. destruct Hrun as ([] & wb & Hloop & Hend).
  assert (Hwa : files wa = files w).
  { apply (keeps_files_when verbose _) in Hpr; [exact Hpr|].
    apply keeps_files_bind; [apply keeps_files_print|].
    intros _. apply keeps_files_print. }
  assert (Hwb : files w' = files wb)
    by exact (keeps_files_when verbose _ (keeps_files_print _) wb (Ok tt) w'
                               Hend).
  assert (Hs0 : shrinks (files w) (files wa))
    by (rewrite Hwa; apply shrinks_refl).
  destruct (clean_loop_no_pickle (files w) save_dir verbose folder_names Hwf
              wa wb Hs0 Hloop) as (Hs & Hnone).
  rewrite Hwa in Hs. rewrite Hwb. split.
  - intros fname names f Hin Hls Hf.
    destruct (shrinks_listing (files w) (files wb) _ names Hwf Hs Hls)
      as (d & es & Hc & Hd & Hl & Hnames & _).
    destruct (endswith f (py ".pkl")) eqn:Hpkl; [exfalso|reflexivity].
    pose proof (Hnone fname d f Hin Hc Hd Hpkl) as Hgone.
    rewrite (lookup_snoc _ _ _ es Hl) in Hgone.
    rewrite Hnames in Hf. destruct (In_find_entry f es Hf) as [n Hn].
    congruence.
  - now destruct Hs as (_ & Hdirs & _).
Qed.

Lemma clean_leaves_no_pickle_witness :
  exists w' names,
    clean sample_dir [py "dev-clean"] true pickled_world = (Ok tt, w')
    /\ listdir (files w') (join sample_dir (py "dev-clean")) = Ok names
    /\ forall f, In f names -> endswith f (py ".pkl") = false.
Proof.
  pose (w' := snd (clean sample_dir [py "dev-clean"] true pickled_world)).
  assert (Hrun : clean sample_dir [py "dev-clean"] true pickled_world
                 = (Ok tt, w'))
    by (vm_compute; reflexivity).
  assert (Hwf : wf_names (root (files pickled_world)) = true)
    by (vm_compute; reflexivity).
  assert (Hls : listdir (files w') (join sample_dir (py "dev-clean"))
                = Ok [py "19"])
    by (vm_compute; reflexivity).
  exists w', [py "19"]. split; [exact Hrun|]. split; [exact Hls|].
  intros f Hf.
  exact (proj1 (clean_leaves_no_pickle sample_dir [py "dev-clean"] true
                  pickled_world w' Hwf Hrun)
           (py "dev-clean") [py "19"] f (or_introl eq_refl) Hls Hf).
Defined.

(** ** Paths below a path *)

Lemma canon_unfold (fs : filesystem) (p : pystr) :
  p <> [] ->
  canon fs p
  = fold_left (resolve_step (root fs)) (split_char SLASH p)
              (Some (if startswith p [SLASH] then [] else cwd fs)).
Proof. destruct p; [congruence|reflexivity]. Qed.

Lemma app_cons_nonempty {A} (a b : list A) (x : A) : a ++ x :: b <> [].
Proof. now destruct a. Qed.

(** Joining one component is one step of path resolution. *)
Lemma canon_join_comp (fs : filesystem) (d c : pystr) :
  d <> [] -> c <> [] -> existsb (N.eqb SLASH) c = false ->
  canon fs (join d c) = resolve_step (root fs) (canon fs d) c.
Proof.
  intros Hd Hc Hslash.
  assert (Habs : startswith c [SLASH] = false).
  { destruct c as [|x c]; [congruence|]. cbn [existsb] in Hslash.
    apply orb_false_iff in Hslash. destruct Hslash as [Hx _].
    cbn [startswith]. now rewrite N.eqb_sym, Hx. }
  unfold join. rewrite Habs. destruct d as [|d0 ds] eqn:Hdeq; [congruence|].
  rewrite <- Hdeq in *. clear Hdeq.
  destruct (endswith d [SLASH]) eqn:He.
  - destruct (endswith_single d SLASH He) as [d' Hd'].
    assert (Hstart : startswith (d' ++ SLASH :: c) [SLASH]
                     = startswith (d' ++ SLASH :: []) [SLASH]).
    { destruct d' as [|z zs]; simpl; [reflexivity|].
      now destruct (z =? SLASH)%N, (zs ++ [SLASH]), (zs ++ SLASH :: c). }
    rewrite Hd', <- app_assoc. simpl app.
    rewrite (canon_unfold fs (d' ++ SLASH :: c) (app_cons_nonempty _ _ _)).
    rewrite (canon_unfold fs (d' ++ SLASH :: []) (app_cons_nonempty _ _ _)).
    rewrite Hstart, !split_char_app, !fold_left_app,
      (split_char_no_sep SLASH c Hslash).
    cbn [split_char fold_left].
    destruct (fold_left (resolve_step (root fs)) (split_char SLASH d') _)
      as [cur|]; [|reflexivity].
    unfold resolve_step.
    destruct (is_dir_at (root fs) cur) eqn:Hdir; simpl;
      [now rewrite Hdir|reflexivity].
  - rewrite (canon_unfold fs (d ++ SLASH :: c) (app_cons_nonempty _ _ _)).
    rewrite (canon_unfold fs d Hd).
    rewrite (startswith_app_nonempty d (SLASH :: c) SLASH Hd).
    now rewrite split_char_app, fold_left_app,
      (split_char_no_sep SLASH c Hslash).
Qed.

(** A path that exists is below a path that exists. *)
Lemma exists_prefix (fs : filesystem) (p q : pystr) :
  p <> [] -> exists_ fs (p ++ SLASH :: q) = true -> exists_ fs p = true.
Proof.
  intros Hp. unfold exists_, stat.
  rewrite (canon_unfold fs (p ++ SLASH :: q) (app_cons_nonempty _ _ _)).
  rewrite (canon_unfold fs p Hp).
  rewrite (startswith_app_nonempty p (SLASH :: q) SLASH Hp).
  rewrite split_char_app, fold_left_app.
  destruct (fold_left (resolve_step (root fs)) (split_char SLASH p) _)
    as [cp|] eqn:Hcp; [|now rewrite fold_resolve_None].
  destruct (fold_left (resolve_step (root fs)) (split_char SLASH q) (Some cp))
    as [cq|] eqn:Hcq; [|discriminate].
  intros _.
  pose proof (resolve_starts_in_dir (root fs) _ cp cq
                (split_char_nonempty SLASH q) Hcq) as Hd.
  unfold is_dir_at in Hd. now destruct (lookup (root fs) cp).
Qed.

Lemma cut_last_slash_no_slash (t : pystr) :
  existsb (N.eqb SLASH) t = false -> fst (cut_last_slash t) = [].
Proof.
  destruct t as [|c t]; [reflexivity|]. cbn [existsb cut_last_slash].
  rewrite orb_false_iff. intros [Hc Ht]. rewrite Ht.
  destruct (cut_last_slash t) as [h t']. rewrite N.eqb_sym, Hc. reflexivity.
Qed.

Lemma cut_last_slash_app (a t : pystr) :
  fst (cut_last_slash (a ++ SLASH :: t)) = a ++ SLASH :: fst (cut_last_slash t).
Proof.
  induction a as [|c a IH].
  - cbn [app cut_last_slash].
    pose proof (cut_last_slash_no_slash t) as H0.
    destruct (cut_last_slash t) as [h t'] eqn:Hcut. cbn [fst] in *.
    destruct (existsb (N.eqb SLASH) t) eqn:Ht; [reflexivity|].
    rewrite N.eqb_refl. cbn [fst]. now rewrite (H0 eq_refl).
  - cbn [app cut_last_slash].
    destruct (cut_last_slash (a ++ SLASH :: t)) as [h t'] eqn:Hcut.
    cbn [fst] in IH. subst h.
    assert (Hex : existsb (N.eqb SLASH) (a ++ SLASH :: t) = true).
    { rewrite existsb_app. cbn [existsb]. rewrite N.eqb_refl.
      now rewrite orb_true_r. }
    now rewrite Hex.
Qed.

Lemma rstrip_slash_below (xr r : pystr) (c : N) :
  (c =? SLASH)%N = false ->
  rev (rstrip_slash_rev (r ++ SLASH :: c :: xr)) = rev (c :: xr)
  \/ exists q, rev (rstrip_slash_rev (r ++ SLASH :: c :: xr))
               = rev (c :: xr) ++ SLASH :: q.
Proof.
  intros Hc. induction r as [|a r IH].
  - left. cbn [app rstrip_slash_rev]. now rewrite N.eqb_refl, Hc.
  - cbn [app rstrip_slash_rev]. destruct (a =? SLASH)%N; [exact IH|].
    right. exists (rev r ++ [a]). cbn [rev].
    rewrite rev_app_distr. cbn [rev]. now rewrite <- !app_assoc.
Qed.

(** The directory of a path below [X] is [X] or below [X]. *)
Lemma dirname_below (x : pystr) (c : N) (tail : pystr) :
  (c =? SLASH)%N = false ->
  dirname ((x ++ [c]) ++ SLASH :: tail) = x ++ [c]
  \/ exists q, dirname ((x ++ [c]) ++ SLASH :: tail) = (x ++ [c]) ++ SLASH :: q.
Proof.
  intros Hc. unfold dirname. rewrite cut_last_slash_app.
  set (h := fst (cut_last_slash tail)).
  assert (Hall : forallb (N.eqb SLASH) ((x ++ [c]) ++ SLASH :: h) = false).
  { rewrite forallb_app, forallb_app. cbn [forallb].
    rewrite N.eqb_sym, Hc. cbn [andb]. now rewrite andb_false_r. }
  rewrite Hall.
  replace (rev ((x ++ [c]) ++ SLASH :: h)) with (rev h ++ SLASH :: c :: rev x).
  - replace (x ++ [c]) with (rev (c :: rev x))
      by (cbn [rev]; now rewrite rev_involutive).
    apply rstrip_slash_below. exact Hc.
  - rewrite rev_app_distr. cbn [rev]. rewrite rev_app_distr. cbn [rev app].
    now rewrite <- !app_assoc.
Qed.

Lemma join_plain (a c : pystr) :
  a <> [] -> endswith a [SLASH] = false -> startswith c [SLASH] = false ->
  join a c = a ++ SLASH :: c.
Proof.
  intros Ha He Hc. unfold join. rewrite Hc. destruct a as [|x a];
    [congruence|]. now rewrite He.
Qed.

Lemma no_slash_last (c : pystr) :
  c <> [] -> existsb (N.eqb SLASH) c = false ->
  exists c' x, c = c' ++ [x] /\ (x =? SLASH)%N = false.
Proof.
  intros Hne Hs. destruct (exists_last Hne) as (c' & x & ->).
  exists c', x. split; [reflexivity|].
  rewrite existsb_app in Hs. apply orb_false_iff in Hs. destruct Hs as [_ Hx].
  cbn [existsb] in Hx. rewrite orb_false_r in Hx. now rewrite N.eqb_sym.
Qed.

Lemma endswith_snoc (s : pystr) (x c : N) :
  endswith (s ++ [x]) [c] = (x =? c)%N.
Proof.
  unfold endswith. rewrite rev_app_distr. cbn [rev app startswith].
  now rewrite andb_true_r.
Qed.

(** A path whose last component is a name does not end with a slash. *)
Lemma join_name_no_slash_end (a c : pystr) :
  c <> [] -> existsb (N.eqb SLASH) c = false ->
  endswith (join a c) [SLASH] = false.
Proof.
  intros Hne Hs. destruct (no_slash_last c Hne Hs) as (c' & x & -> & Hx).
  rewrite endswith_join_long.
  - now rewrite endswith_snoc.
  - rewrite length_app. simpl. lia.
Qed.

Lemma valid_name_start (c : pystr) :
  c <> [] -> existsb (N.eqb SLASH) c = false -> startswith c [SLASH] = false.
Proof.
  intros Hne Hs. destruct c as [|x c]; [congruence|]. cbn [existsb] in Hs.
  apply orb_false_iff in Hs. destruct Hs as [Hx _].
  cbn [startswith]. now rewrite N.eqb_sym, Hx.
Qed.

Lemma is_dir_at_parent (r : node) (cd : list pystr) (b : pystr) :
  is_dir_at r (cd ++ [b]) = true -> is_dir_at r cd = true.
Proof.
  unfold is_dir_at. rewrite lookup_app.
  destruct (lookup r cd) as [[data|es]|]; simpl; congruence.
Qed.

Lemma resolve_step_up (r : node) (cur : list pystr) :
  is_dir_at r cur = true ->
  resolve_step r (Some cur) (py "..") = Some (removelast cur).
Proof. intros Hd. unfold resolve_step. now rewrite Hd. Qed.

(** The place a member [b/fname] of the archive is unpacked to, when the
    folder resolves to a directory named [b]: the folder [fname] of
    [folder_dir]. *)
Lemma unpack_target (fs : filesystem) (folder_dir b fname : pystr)
      (cd : list pystr) :
  canon fs folder_dir = Some (cd ++ [b]) ->
  is_dir_at (root fs) (cd ++ [b]) = true ->
  valid_name b = true -> valid_name fname = true ->
  canon fs (join (join (join folder_dir (py "..")) b) fname)
  = canon fs (join folder_dir fname).
Proof.
  intros Hc Hd Hb Hf.
  assert (Hne : folder_dir <> []) by (intros ->; discriminate).
  destruct (valid_name_spec b Hb) as (Hbne & Hbs & _).
  destruct (valid_name_spec fname Hf) as (Hfne & Hfs & _).
  pose proof (is_dir_at_parent _ _ _ Hd) as Hdp.
  rewrite (canon_join fs folder_dir fname (cd ++ [b]) Hc Hd Hf).
  assert (Hup : canon fs (join folder_dir (py "..")) = Some cd).
  { rewrite (canon_join_comp fs folder_dir (py "..") Hne); try discriminate;
      try reflexivity.
    rewrite Hc, (resolve_step_up _ _ Hd). now rewrite removelast_last. }
  assert (Hupb : canon fs (join (join folder_dir (py "..")) b)
                 = Some (cd ++ [b])).
  { apply canon_join; assumption. }
  apply canon_join; assumption.
Qed.

(** The path of a member [b/fname/tail], as a string. *)
Lemma unpack_path (folder_dir b fname tail : pystr) :
  folder_dir <> [] ->
  valid_name b = true -> valid_name fname = true ->
  join (join folder_dir (py "..")) (b ++ SLASH :: fname ++ SLASH :: tail)
  = join (join (join folder_dir (py "..")) b) fname ++ SLASH :: tail.
Proof.
  intros Hne Hb Hf.
  destruct (valid_name_spec b Hb) as (Hbne & Hbs & _).
  destruct (valid_name_spec fname Hf) as (Hfne & Hfs & _).
  set (dest := join folder_dir (py "..")).
  assert (Hdne : dest <> []) by (apply join_nonempty; discriminate).
  assert (Hde : endswith dest [SLASH] = false)
    by (apply join_name_no_slash_end; [discriminate|reflexivity]).
  assert (Hbabs : startswith b [SLASH] = false)
    by now apply valid_name_start.
  assert (Hnabs : startswith (b ++ SLASH :: fname ++ SLASH :: tail) [SLASH]
                  = false).
  { rewrite startswith_app_nonempty; assumption. }
  rewrite (join_plain dest _ Hdne Hde Hnabs).
  rewrite (join_plain dest b Hdne Hde Hbabs).
  rewrite (join_plain (dest ++ SLASH :: b) fname).
  - now rewrite <- !app_assoc.
  - apply app_cons_nonempty.
  - rewrite <- (join_plain dest b Hdne Hde Hbabs).
    now apply join_name_no_slash_end.
  - now apply valid_name_start.
Qed.

(** Unpacking a member [b/fname/tail] puts the folder [fname] in place. *)
Lemma extract_member_puts (fs fs' : filesystem) (folder_dir b fname tail : pystr)
      (cd : list pystr) (content : option bytes) :
  canon fs folder_dir = Some (cd ++ [b]) ->
  is_dir_at (root fs) (cd ++ [b]) = true ->
  valid_name b = true -> valid_name fname = true ->
  extract_member (join folder_dir (py ".."))
                 (b ++ SLASH :: fname ++ SLASH :: tail, content) fs = Ok fs' ->
  exists_ fs' (join folder_dir fname) = true.
Proof.
  intros Hc Hd Hb Hf Hex.
  assert (Hne : folder_dir <> []) by (intros ->; discriminate).
  pose proof (extract_member_grows _ _ _ _ Hex) as Hg.
  set (X := join (join (join folder_dir (py "..")) b) fname).
  assert (HX : exists_ fs' X = true).
  { unfold extract_member in Hex. cbn [fst snd] in Hex.
    rewrite (unpack_path folder_dir b fname tail Hne Hb Hf) in Hex.
    fold X in Hex.
    destruct (valid_name_spec fname Hf) as (Hfne & Hfs & _).
    assert (HXne : X <> []) by (unfold X; now apply join_nonempty).
    assert (HXlast : exists x c, X = x ++ [c] /\ (c =? SLASH)%N = false).
    { destruct (exists_last HXne) as (x & c & HXeq). exists x, c.
      split; [exact HXeq|].
      pose proof (join_name_no_slash_end
                    (join (join folder_dir (py "..")) b) fname Hfne Hfs) as He.
      fold X in He. rewrite HXeq, endswith_snoc in He. exact He. }
    destruct HXlast as (x & c & HXeq & Hcs).
    remember (dirname (X ++ SLASH :: tail)) as upper eqn:Hupdef.
    assert (Hupper : upper = X \/ exists q, upper = X ++ SLASH :: q).
    { rewrite Hupdef, HXeq. now apply dirname_below. }
    clear Hupdef.
    assert (Hune : upper <> []).
    { destruct Hupper as [Hu|[q Hu]]; rewrite Hu;
        [exact HXne|apply app_cons_nonempty]. }
    assert (Hfrom : forall fs1, exists_ fs1 upper = true ->
                                exists_ fs1 X = true).
    { intros fs1 H1. destruct Hupper as [Hu|[q Hu]]; rewrite Hu in H1;
        [exact H1|].
      exact (exists_prefix fs1 X q HXne H1). }
    destruct (negb (str_eqb upper []) && negb (exists_ fs upper)) eqn:Hcond.
    - destruct (makedirs false fs upper) as [fs1|e] eqn:Hmk; simpl rbind in Hex;
        [|discriminate].
      destruct (makedirs_Ok _ _ _ _ Hmk) as (_ & cur & Hcu & Hdu).
      assert (H1 : exists_ fs1 upper = true).
      { unfold exists_, stat. rewrite Hcu. unfold is_dir_at in Hdu.
        now destruct (lookup (root fs1) cur). }
      apply (exists_grows fs1); [|exact (Hfrom fs1 H1)].
      destruct content as [data|].
      + exact (write_file_grows _ _ _ _ Hex).
      + exact (proj1 (makedirs_Ok _ _ _ _ Hex)).
    - simpl rbind in Hex.
      assert (H1 : exists_ fs upper = true).
      { apply andb_false_iff in Hcond. destruct Hcond as [Hcond|Hcond].
        - apply negb_false_iff, str_eqb_eq in Hcond. congruence.
        - now apply negb_false_iff in Hcond. }
      apply (exists_grows fs); [|exact (Hfrom fs H1)].
      destruct content as [data|].
      + exact (write_file_grows _ _ _ _ Hex).
      + exact (proj1 (makedirs_Ok _ _ _ _ Hex)). }
  unfold exists_, stat in HX |- *. unfold X in HX.
  rewrite (unpack_target fs' folder_dir b fname cd) in HX; try assumption.
  - exact (canon_grows fs fs' _ _ Hg Hc).
  - exact (proj1 (proj2 Hg (cd ++ [b])) Hd).
Qed.

Lemma syscall_loop_In {A} (f : A -> filesystem -> result filesystem)
      (xs : list A) (x : A) :
  (forall a fs fs', f a fs = Ok fs' -> fs_grows fs fs') ->
  In x xs ->
  forall w w',
    for_ xs (fun a => syscall (f a)) w = (Ok tt, w') ->
    exists fsA fsB,
      fs_grows (files w) fsA /\ f x fsA = Ok fsB /\ fs_grows fsB (files w').
Proof.
  intros Hf. induction xs as [|a xs IH]; intros Hin w w' Hrun;
    [destruct Hin|].
  simpl in Hrun. apply bind_Ok_inv in Hrun.
  destruct Hrun as ([] & w1 & Hone & Hrest).
  apply syscall_Ok_inv in Hone. destruct Hone as [Hone _].
  destruct Hin as [->|Hin].
  - exists (files w), (files w1). split; [apply fs_grows_refl|].
    split; [exact Hone|].
    exact (only_grows_for xs _ (fun a => only_grows_syscall _ (Hf a))
             w1 (Ok tt) w' Hrest).
  - destruct (IH Hin w1 w' Hrest) as (fsA & fsB & HA & HAB & HB).
    exists fsA, fsB. split; [|now split].
    exact (fs_grows_trans _ _ _ (Hf a _ _ Hone) HA).
Qed.

Section FetchPuts.

Variable http_get : pystr -> option bytes.
Variable untar : bytes -> option (list member).

Lemma urlretrieve_Ok (url filename : pystr) (w w' : world) :
  urlretrieve http_get url filename w = (Ok tt, w') ->
  exists data,
    http_get url = Some data
    /\ write_file (files w) filename data = Ok (files w').
Proof.
  unfold urlretrieve. intros Hrun. apply bind_Ok_inv in Hrun.
  destruct Hrun as ([] & w1 & Hemit & Hrest).
  injection Hemit as <-.
  destruct (http_get url) as [data|]; [|discriminate].
  apply syscall_Ok_inv in Hrest. destruct Hrest as [Hw _].
  now exists data.
Qed.

Lemma extractall_Ok (tar_file_path dest : pystr) (w w' : world) :
  extractall untar tar_file_path dest w = (Ok tt, w') ->
  exists content members wa,
    read_file (files w) tar_file_path = Ok content
    /\ untar content = Some members
    /\ files wa = files w
    /\ for_ members (fun m => syscall (extract_member dest m)) wa
       = (Ok tt, w').
Proof.
  unfold extractall. intros Hrun. apply bind_Ok_inv in Hrun.
  destruct Hrun as ([] & w1 & Hemit & Hrest). injection Hemit as <-.
  apply bind_Ok_inv in Hrest. destruct Hrest as (content & w2 & Hread & Hrest).
  apply try_read_Ok_inv in Hread. destruct Hread as [Hread ->].
  destruct (untar content) as [members|] eqn:Htar; [|discriminate].
  exists content, members. eexists.
  split; [exact Hread|]. split; [exact Htar|]. split; [|exact Hrest].
  reflexivity.
Qed.

(** X14. A fetch that returns puts the folder in place.  When
    [folder_dir] resolves to a directory named [b] (as [LibriSpeech]), and
    the archive that arrives for [fname] holds a member below [b/fname/],
    a call for [fname] that returns leaves a folder [folder_dir/fname]: the
    archive is unpacked into the directory above [folder_dir], where the
    member finds the folder under its own name. *)
Theorem fetch_puts_folder :
  forall (folder_dir fname b tail : pystr) (cd : list pystr) (verbose : bool)
         (w w' : world) (data : bytes) (members : list member)
         (content : option bytes),
    canon (files w) folder_dir = Some (cd ++ [b]) ->
    valid_name b = true ->
    valid_name fname = true ->
    http_get (LIBRISPEECH_URL_BASE (fname ++ py ".tar.gz")) = Some data ->
    untar data = Some members ->
    In (b ++ SLASH :: fname ++ SLASH :: tail, content) members ->
    _maybe_download_and_extract http_get untar folder_dir [fname] verbose w
    = (Ok tt, w') ->
    exists_ (files w') (join folder_dir fname) = true.
Proof.
  intros folder_dir fname b tail cd verbose w w' data members content
         Hc Hb Hf Hget Htar Hin Hrun.
  assert (Hne : folder_dir <> []) by (intros ->; discriminate).
  rewrite maybe_download_eq, bind_ask in Hrun.
  apply bind_Ok_inv in Hrun. destruct Hrun as ([] & w1 & Hmk & Hloop).
  assert (Hg1 : fs_grows (files w) (files w1)).
  { revert Hmk. apply only_grows_when, only_grows_bind.
    - apply only_grows_keeps, keeps_files_when, keeps_files_print.
    - intros _. apply only_grows_syscall. intros fs fs' H.
      exact (proj1 (makedirs_Ok _ _ _ _ H)). }
  pose proof (canon_grows _ _ _ _ Hg1 Hc) as Hc1.
  simpl for_ in Hloop. apply bind_Ok_inv in Hloop.
  destruct Hloop as ([] & w2 & Hbody & Hret). injection Hret as <-.
  unfold download_body in Hbody. rewrite bind_ask in Hbody.
  destruct (exists_ (files w1) (join folder_dir fname)) eqn:Hfound.
  { cbn [negb] in Hbody. cbv iota in Hbody.
    now rewrite (keeps_files_when verbose _ (keeps_files_print _) w1 (Ok tt)
                   w2 Hbody). }
  cbn [negb] in Hbody. cbv iota zeta in Hbody.
  apply bind_Ok_inv in Hbody. destruct Hbody as ([] & wa & Hpr & Hbody).
  pose proof (keeps_files_when verbose _ (keeps_files_print _) w1 (Ok tt) wa
                               Hpr) as Hwa.
  apply bind_Ok_inv in Hbody. destruct Hbody as ([] & wb & Hget' & Hext).
  assert (Hwrite : exists data',
             http_get (LIBRISPEECH_URL_BASE (fname ++ py ".tar.gz"))
             = Some data'
             /\ write_file (files w1)
                           (join folder_dir (fname ++ py ".tar.gz")) data'
                = Ok (files wb)).
  { rewrite <- Hwa. destruct verbose.
    - apply bind_Ok_inv in Hget'. destruct Hget' as ([] & wc & Hp1 & Hget').
      injection Hp1 as <-.
      apply bind_Ok_inv in Hget'. destruct Hget' as ([] & wd & Hurl & Hget').
      apply bind_Ok_inv in Hget'. destruct Hget' as ([] & we & Hp2 & Hp3).
      injection Hp2 as <-. injection Hp3 as <-.
      exact (urlretrieve_Ok _ _ _ _ Hurl).
    - exact (urlretrieve_Ok _ _ _ _ Hget'). }
  destruct Hwrite as (data' & Hget2 & Hwrite).
  assert (data' = data) by congruence. subst data'.
  destruct (extractall_Ok _ _ _ _ Hext)
    as (content' & members' & wc & Hread & Htar' & Hwc & Hmembers).
  rewrite (read_after_write _ _ _ _ Hwrite) in Hread. injection Hread as <-.
  assert (members' = members) by congruence. subst members'.
  destruct (syscall_loop_In (extract_member (join folder_dir (py "..")))
              members _ (extract_member_grows _) Hin wc w2 Hmembers)
    as (fsA & fsB & HA & Hex & HB).
  rewrite Hwc in HA.
  assert (HgA : fs_grows (files w1) fsA)
    by exact (fs_grows_trans _ _ _ (write_file_grows _ _ _ _ Hwrite) HA).
  assert (Hdir1 : is_dir_at (root (files w1)) (cd ++ [b]) = true).
  { destruct (write_file_Ok _ _ _ _ Hwrite) as (d & name & es & Hct & _).
    destruct (canon_join_inv _ _ _ _ (valid_name_tar fname Hf) Hct)
      as (cur & _ & Hd & Hp).
    rewrite (Hp Hne) in Hc1. injection Hc1 as <-. exact Hd. }
  apply (exists_grows fsB); [exact HB|].
  apply (extract_member_puts fsA fsB folder_dir b fname tail cd content);
    try assumption.
  - exact (canon_grows _ _ _ _ HgA Hc1).
  - exact (proj1 (proj2 HgA (cd ++ [b])) Hdir1).
Qed.

End FetchPuts.

Lemma fetch_puts_folder_witness :
  exists w',
    _maybe_download_and_extract sample_http_get sample_untar sample_dir
                                [py "dev-clean"] false fresh_world
    = (Ok tt, w')
    /\ exists_ (files fresh_world) (join sample_dir (py "dev-clean")) = false
    /\ exists_ (files w') (join sample_dir (py "dev-clean")) = true.
Proof.
  pose (w' := snd (_maybe_download_and_extract
                     sample_http_get sample_untar sample_dir
                     [py "dev-clean"] false fresh_world)).
  assert (Hrun : _maybe_download_and_extract
                   sample_http_get sample_untar sample_dir
                   [py "dev-clean"] false fresh_world = (Ok tt, w'))
    by (vm_compute; reflexivity).
  exists w'. split; [exact Hrun|]. split; [vm_compute; reflexivity|].
  apply (fetch_puts_folder sample_http_get sample_untar sample_dir
           (py "dev-clean") (py "LibriSpeech") (py "19/198/19-198.trans.txt")
           [py "data"] false fresh_world w' [1%N]
           [(py "LibriSpeech/dev-clean/19/198/19-198.trans.txt",
             Some (py "19-198-0001 HI THERE" ++ [10%N]));
            (py "LibriSpeech/dev-clean/19/198/19-198-0001.flac", Some [])]
           (Some (py "19-198-0001 HI THERE" ++ [10%N])));
    try (vm_compute; reflexivity); try (left; reflexivity); try exact Hrun.
Defined.

(** ** The directory of a path of the index *)

Lemma dirname_join_name (x : pystr) (c : N) (g : pystr) :
  (c =? SLASH)%N = false -> existsb (N.eqb SLASH) g = false ->
  dirname ((x ++ [c]) ++ SLASH :: g) = x ++ [c].
Proof.
  intros Hc Hg. unfold dirname.
  rewrite cut_last_slash_app, (cut_last_slash_no_slash g Hg).
  assert (Hall : forallb (N.eqb SLASH) ((x ++ [c]) ++ [SLASH]) = false).
  { rewrite forallb_app, forallb_app. cbn [forallb].
    rewrite N.eqb_sym, Hc. cbn [andb]. now rewrite andb_false_r. }
  rewrite Hall, rev_app_distr, rev_app_distr. cbn [rev app rstrip_slash_rev].
  rewrite N.eqb_refl, Hc. cbn [rev]. now rewrite rev_involutive.
Qed.

(** The directory part of a name joined to a path that does not end with
    a slash is that path. *)
Lemma dirname_join (dir g : pystr) :
  dir <> [] -> endswith dir [SLASH] = false ->
  g <> [] -> existsb (N.eqb SLASH) g = false ->
  dirname (join dir g) = dir.
Proof.
  intros Hne He Hg Hs.
  rewrite (join_plain dir g Hne He (valid_name_start g Hg Hs)).
  destruct (exists_last Hne) as (x & c & ->).
  rewrite endswith_snoc in He. now apply dirname_join_name.
Qed.

Lemma lookup_valid_names (rel : list pystr) :
  forall (n n' : node),
    wf_names n = true -> lookup n rel = Some n' ->
    Forall (fun k => valid_name k = true) rel.
Proof.
  induction rel as [|k rel IH]; intros n n' Hwf Hl; [constructor|].
  simpl in Hl. destruct n as [data|es]; [discriminate|].
  destruct (find_entry k es) as [child|] eqn:Hk; [|discriminate].
  simpl in Hwf. rewrite forallb_forall in Hwf.
  specialize (Hwf (k, child) (find_entry_In k es child Hk)).
  apply andb_true_iff in Hwf. destruct Hwf as [Hv Hwfc].
  constructor; [exact Hv|exact (IH child n' Hwfc Hl)].
Qed.

Lemma walk_path_shape (rel : list pystr) :
  forall top,
    top <> [] -> endswith top [SLASH] = false ->
    Forall (fun k => valid_name k = true) rel ->
    walk_path top rel <> [] /\ endswith (walk_path top rel) [SLASH] = false.
Proof.
  induction rel as [|k rel IH]; intros top Hne He Hv; [now split|].
  inversion Hv as [|? ? Hk Hrel]; subst.
  destruct (valid_name_spec k Hk) as (Hkne & Hks & _).
  unfold walk_path. simpl fold_left. apply IH.
  - now apply join_nonempty.
  - now apply join_name_no_slash_end.
  - exact Hrel.
Qed.

(** On a well-formed tree, below a folder whose path does not end with a
    slash, the path of every directory of the walk is not empty and does
    not end with a slash, and its files have valid names. *)
Lemma os_walk_dir_shape (fs : filesystem) (top : pystr) (v : visit) :
  well_formed fs = true -> endswith top [SLASH] = false ->
  In v (os_walk fs top) ->
  visit_dir v <> [] /\ endswith (visit_dir v) [SLASH] = false
  /\ forall g, In g (visit_files v) -> valid_name g = true.
Proof.
  intros Hwf He Hin. pose proof Hwf as Hwf'.
  apply well_formed_spec in Hwf. destruct Hwf as [Hwfn Hu].
  unfold os_walk, stat in Hin.
  destruct (canon fs top) as [ctop|] eqn:Hc; [|destruct Hin].
  assert (Hne : top <> []) by (intros ->; discriminate).
  destruct (lookup (root fs) ctop) as [[data|es0]|] eqn:Hl;
    [destruct Hin| |destruct Hin].
  pose proof (unique_names_lookup _ _ _ Hu Hl) as Hu0.
  pose proof (wf_names_lookup _ _ _ Hwfn Hl) as Hwf0.
  destruct (walk_visits (Dir es0) top v Hu0 Hin) as (rel & es & Hrel & ->).
  pose proof (lookup_valid_names rel _ _ Hwf0 Hrel) as Hv.
  destruct (walk_path_shape rel top Hne He Hv) as [H1 H2].
  split; [exact H1|]. split; [exact H2|].
  intros g Hg. unfold visit_files in Hg. simpl in Hg.
  apply In_filenames in Hg. destruct Hg as (n & Hn & _).
  apply (wf_names_entries (Dir es0) rel es g Hwf0 Hrel).
  unfold entry_names. apply in_map_iff. now exists (g, n).
Qed.

Lemma get_In {V} (k : pystr) (v : V) (d : Dict.t V) :
  Dict.get k d = Some v -> In (k, v) d.
Proof.
  induction d as [|[k0 v0] d IH]; simpl; [discriminate|].
  destruct (str_eqb k0 k) eqn:Hk.
  - apply str_eqb_eq in Hk. subst k0. intros H. injection H as ->. now left.
  - intros H. right. now apply IH.
Qed.

(** Every file of the dictionary was taken in a leaf whose name is its
    key. *)
Lemma selected_files_key (fs : filesystem) (top : pystr)
      (d : Dict.t (list pystr)) (k f : pystr) (files : list pystr) :
  _voice_txt_dict_from_path fs top = Ok d ->
  In (k, files) d -> In f files ->
  exists v, In v (leaves fs top) /\ select_txt v = Some f
            /\ voice_id_of v = k.
Proof.
  intros Hd Hin Hf.
  destruct (voice_txt_dict_returns fs top d Hd) as (sel & Hsel & ->).
  set (kvs := combine (map voice_id_of (leaves fs top)) sel) in *.
  pose proof (NoDup_keys_get _ k files (keys_add_all_NoDup kvs) Hin) as Hget.
  rewrite get_add_all in Hget.
  assert (Hfu : files = files_under k kvs)
    by (destruct (files_under k kvs); [discriminate|now injection Hget]).
  subst files. unfold files_under in Hf. apply in_map_iff in Hf.
  destruct Hf as ([k' f'] & Hf' & Hkv). simpl in Hf'. subst f'.
  apply filter_In in Hkv. destruct Hkv as [Hkv Hk]. simpl in Hk.
  apply str_eqb_eq in Hk. subst k'. unfold kvs in Hkv.
  clear - Hsel Hkv. induction Hsel as [|v t ls sel Hvt _ IH];
    [destruct Hkv|].
  simpl in Hkv. destruct Hkv as [Heq|Hkv].
  - injection Heq as <- <-. exists v. split; [now left|now split].
  - destruct (IH Hkv) as (v' & Hv' & Hs & Hk').
    exists v'. split; [now right|now split].
Qed.

Lemma Forall2_In_r {A B} (R : A -> B -> Prop) (xs : list A) (ys : list B)
      (y : B) :
  Forall2 R xs ys -> In y ys -> exists x, In x xs /\ R x y.
Proof.
  induction 1 as [|x y' xs ys Hxy _ IH]; intros Hin; [destruct Hin|].
  destruct Hin as [<-|Hin].
  - exists x. split; [now left|exact Hxy].
  - destruct (IH Hin) as (x' & Hx' & HR). exists x'. split; [now right|exact HR].
Qed.

Lemma Forall2_repeat {A B} (R : A -> B -> Prop) (l : list A) (b : B) :
  Forall (fun a => R a b) l -> Forall2 R l (repeat b (List.length l)).
Proof. induction 1; simpl; constructor; assumption. Qed.

(** X15. The id of an entry names the directory of its path.  On a
    well-formed tree, for a folder whose path does not end with a slash and
    transcripts (the file the walker takes in each leaf) whose utterance
    ids hold no slash, the path and the id at the same position of the
    index are related: the id is the basename of the directory of the
    path.  The other files of the tree, audio included, may hold any
    bytes. *)
Theorem id_names_directory :
  forall (fs : filesystem) (folder_path : pystr) (index : CorpusIndex),
    well_formed fs = true ->
    endswith folder_path [SLASH] = false ->
    (forall v txt_file content raw decoded,
        In v (leaves fs folder_path) -> select_txt v = Some txt_file ->
        read_file fs txt_file = Ok content ->
        In raw (readlines content) -> utf8_decode raw = Some decoded ->
        existsb (N.eqb SLASH) (hd [] (re_split_space (strip decoded)))
        = false) ->
    flacpath_transcription_id fs folder_path = Ok index ->
    Forall2 (fun path id => basename (dirname path) = id)
            (paths index) (ids index).
Proof.
  intros fs folder_path index Hwf Hend Hids. unfold flacpath_transcription_id.
  destruct (_voice_txt_dict_from_path fs folder_path) as [d|e] eqn:Hd; simpl;
    [|discriminate].
  destruct (for_each (Dict.keys d) (voice_id_body fs d) ([], [], []))
    as [[[F T] I]|e] eqn:Hloop; simpl; [|discriminate].
  intros H. injection H as <-. simpl.
  set (R := fun path id : pystr => basename (dirname path) = id).
  apply (for_each_invariant
           (fun acc : build_acc => Forall2 R (fst (fst acc)) (snd acc))
           (voice_id_body fs d) (Dict.keys d)) with (st := ([], [], []))
                                                    (st' := (F, T, I));
    [|constructor|exact Hloop].
  intros k acc acc' Hk Hacc. unfold voice_id_body.
  destruct (Dict.get k d) as [files|] eqn:Hget; [|discriminate].
  apply get_In in Hget. revert acc acc' Hacc.
  apply (for_each_invariant
           (fun acc : build_acc => Forall2 R (fst (fst acc)) (snd acc))).
  intros f [[F0 T0] I0] [[F1 T1] I1] Hf HR. simpl in HR.
  unfold txt_file_body.
  destruct (_transcriptions_and_flac fs f) as [[t flacs]|e] eqn:Hp; simpl;
    [|discriminate].
  intros H. injection H as <- <- <-. simpl.
  apply Forall2_app; [exact HR|]. apply Forall2_repeat.
  destruct (selected_files_key fs folder_path d k f files Hd Hget Hf)
    as (v & Hleaf & Hsel0 & Hkey).
  pose proof Hleaf as Hv. apply In_leaves in Hv. destruct Hv as [Hv _].
  pose proof Hsel0 as Hsel. apply select_txt_Some in Hsel.
  destruct Hsel as (pre & g & post & Hfiles & Hfg & _ & _).
  subst f.
  assert (Hg : In g (visit_files v))
    by (rewrite Hfiles; apply in_or_app; right; now left).
  destruct (os_walk_dir_shape fs folder_path v Hwf Hend Hv)
    as (Hdne & Hde & Hvalid).
  destruct (valid_name_spec g (Hvalid g Hg)) as (Hgne & Hgs & _).
  apply transcriptions_and_flac_inv in Hp.
  destruct Hp as (content & lines & Hread & Hlines & _ & ->).
  rewrite (dirname_join (visit_dir v) g Hdne Hde Hgne Hgs).
  apply Forall_map, Forall_forall. intros line Hline. unfold R, flac_of.
  assert (Htok : existsb (N.eqb SLASH) (hd [] (re_split_space line)) = false).
  { destruct (Forall2_In_r _ _ _ _ Hlines Hline) as (raw & Hraw & Hrl).
    unfold decode_strip in Hrl.
    destruct (utf8_decode raw) as [decoded|] eqn:Hdec; [|discriminate].
    injection Hrl as <-.
    exact (Hids v _ content raw decoded Hleaf Hsel0 Hread Hraw Hdec). }
  rewrite (dirname_join (visit_dir v)
             (hd [] (re_split_space line) ++ py ".flac") Hdne Hde).
  - exact Hkey.
  - intros Hnil. apply app_eq_nil in Hnil. destruct Hnil as [_ Hnil].
    discriminate.
  - rewrite existsb_app, Htok. reflexivity.
Qed.

(** The condition on the utterance ids, as a test that can be run. *)
Lemma utterance_ids_test (fs : filesystem) (top : pystr) :
  forallb (fun v =>
             match select_txt v with
             | Some txt_file =>
                 match read_file fs txt_file with
                 | Ok content =>
                     forallb (fun raw =>
                                match utf8_decode raw with
                                | Some decoded =>
                                    negb (existsb (N.eqb SLASH)
                                            (hd [] (re_split_space
                                                      (strip decoded))))
                                | None => true
                                end)
                             (readlines content)
                 | Raise _ => true
                 end
             | None => true
             end)
          (leaves fs top) = true ->
  forall v txt_file content raw decoded,
    In v (leaves fs top) -> select_txt v = Some txt_file ->
    read_file fs txt_file = Ok content ->
    In raw (readlines content) -> utf8_decode raw = Some decoded ->
    existsb (N.eqb SLASH) (hd [] (re_split_space (strip decoded))) = false.
Proof.
  rewrite forallb_forall.
  intros H v txt_file content raw decoded Hv Hsel Hread Hraw Hdec.
  specialize (H v Hv). rewrite Hsel, Hread, forallb_forall in H.
  specialize (H raw Hraw). rewrite Hdec in H. now apply negb_true_iff in H.
Qed.

Lemma id_names_directory_witness :
  exists index,
    flacpath_transcription_id Cases.audio_fs (py "/corpus") = Ok index
    /\ paths index = [py "/corpus/7/7-0001.flac"]
    /\ ids index = [py "7"]
    /\ Forall2 (fun path id => basename (dirname path) = id)
               (paths index) (ids index).
Proof.
  eexists. split; [vm_compute; reflexivity|].
  split; [reflexivity|]. split; [reflexivity|].
  apply (id_names_directory Cases.audio_fs (py "/corpus")).
  - vm_compute. reflexivity.
  - vm_compute. reflexivity.
  - apply utterance_ids_test. vm_compute. reflexivity.
  - vm_compute. reflexivity.
Defined.

(* ================================================================== *)
(** ** The download progress callback *)

Section ProgressFacts.

Import Progress.
Local Open Scope Z_scope.

Lemma digits2_pos_succ :
  forall p,
    digits2_pos (Pos.succ p) = digits2_pos p
    \/ digits2_pos (Pos.succ p) = Pos.succ (digits2_pos p).
Proof.
  induction p as [p IH|p IH|]; simpl.
  - destruct IH as [-> | ->]; auto.
  - now left.
  - now right.
Qed.

Lemma digits2_lower : forall p, 2 ^ (Zpos (digits2_pos p) - 1) <= Zpos p.
Proof.
  assert (Hstep : forall d, 2 ^ (Zpos (Pos.succ d) - 1) = 2 * 2 ^ (Zpos d - 1)).
  { intro d. rewrite Pos2Z.inj_succ.
    replace (Z.succ (Zpos d) - 1) with (Z.succ (Zpos d - 1)) by lia.
    apply Z.pow_succ_r. lia. }
  induction p as [p IH|p IH|]; cbn [digits2_pos].
  - rewrite Hstep. lia.
  - rewrite Hstep. lia.
  - reflexivity.
Qed.

Lemma digits2_below :
  forall p k, 0 <= k -> Zpos p < 2 ^ k -> Zpos (digits2_pos p) <= k.
Proof.
  intros p k Hk Hlt.
  destruct (Z_le_gt_dec (Zpos (digits2_pos p)) k) as [H|H]; [exact H|].
  pose proof (digits2_lower p) as Hlow.
  assert (2 ^ k <= 2 ^ (Zpos (digits2_pos p) - 1))
    by (apply Z.pow_le_mono_r; lia).
  lia.
Qed.

Lemma digits2_upper : forall p, Zpos p < 2 ^ Zpos (digits2_pos p).
Proof.
  assert (Hstep : forall d, 2 ^ Zpos (Pos.succ d) = 2 * 2 ^ Zpos d).
  { intro d. rewrite Pos2Z.inj_succ. apply Z.pow_succ_r. lia. }
  induction p as [p IH|p IH|]; cbn [digits2_pos].
  - rewrite Hstep. lia.
  - rewrite Hstep. lia.
  - reflexivity.
Qed.

Lemma digits2_above :
  forall p k, 0 <= k -> 2 ^ k <= Zpos p -> k < Zpos (digits2_pos p).
Proof.
  intros p k Hk Hle.
  destruct (Z_lt_ge_dec k (Zpos (digits2_pos p))) as [H|H]; [exact H|].
  pose proof (digits2_upper p) as Hup.
  assert (2 ^ Zpos (digits2_pos p) <= 2 ^ k)
    by (apply Z.pow_le_mono_r; lia).
  lia.
Qed.

Lemma digits2_shift :
  forall p k, digits2_pos (Pos.iter xO p k) = (digits2_pos p + k)%positive.
Proof.
  intros p k. induction k as [|k IH] using Pos.peano_ind.
  - simpl. now rewrite Pos.add_1_r.
  - rewrite Pos.iter_succ. cbn [digits2_pos]. rewrite IH.
    now rewrite Pos.add_succ_r.
Qed.

Lemma iter_pos_invariant :
  forall (A : Type) (f : A -> A) (Q : Z -> A -> Prop),
    (forall j x, Q j x -> Q (j + 1) (f x)) ->
    forall p j x, Q j x -> Q (j + Zpos p) (iter_pos f p x).
Proof.
  intros A f Q Hstep.
  induction p as [p IH|p IH|]; intros j x Hq; cbn [iter_pos].
  - replace (j + Zpos p~1) with (j + 1 + Zpos p + Zpos p) by lia.
    apply IH, IH, Hstep, Hq.
  - replace (j + Zpos p~0) with (j + Zpos p + Zpos p) by lia.
    apply IH, IH, Hq.
  - apply Hstep, Hq.
Qed.

Lemma shr_1_digits :
  forall r,
    0 <= shr_m r ->
    0 <= shr_m (shr_1 r)
    /\ Zdigits2 (shr_m (shr_1 r)) = Z.max 0 (Zdigits2 (shr_m r) - 1).
Proof.
  intros [m r s] Hm. cbn [shr_m] in Hm.
  destruct m as [|[p|p|]|p]; cbn [shr_1 shr_m Zdigits2 digits2_pos];
    try lia.
Qed.

Lemma shr_record_of_loc_m : forall m l, shr_m (shr_record_of_loc m l) = m.
Proof. intros m [|[]]; reflexivity. Qed.

(** Shifting a mantissa of at least 53 bits to its place leaves 53 bits. *)
Lemma shr_fexp_digits :
  forall m e l,
    0 < m -> 53 <= Zdigits2 m -> -1021 <= Zdigits2 m + e ->
    exists mrs,
      shr_fexp prec emax m e l = (mrs, Zdigits2 m + e - 53)
      /\ 0 <= shr_m mrs
      /\ Zdigits2 (shr_m mrs) = 53.
Proof.
  intros m e l Hm Hd He. unfold shr_fexp.
  replace (fexp prec emax (Zdigits2 m + e) - e) with (Zdigits2 m - 53)
    by (unfold fexp, emin, prec, emax; lia).
  unfold shr. destruct (Zdigits2 m - 53) as [|k|k] eqn:Hk; try lia.
  - exists (shr_record_of_loc m l). rewrite shr_record_of_loc_m.
    repeat split; try lia. f_equal. lia.
  - exists (iter_pos shr_1 k (shr_record_of_loc m l)).
    pose proof (iter_pos_invariant _ shr_1
                  (fun j r => 0 <= shr_m r
                              /\ Zdigits2 (shr_m r) = Z.max 0 (Zdigits2 m - j)))
      as Hinv.
    specialize (Hinv ltac:(intros j x [H1 H2];
                           destruct (shr_1_digits x H1) as [H3 H4];
                           split; [exact H3|rewrite H4, H2; lia])
                     k 0 (shr_record_of_loc m l)).
    cbv beta in Hinv. rewrite shr_record_of_loc_m in Hinv.
    destruct Hinv as [H1 H2]; [split; lia|].
    repeat split; try lia. f_equal. lia.
Qed.

Lemma round_nearest_even_digits :
  forall m l,
    0 <= m -> Zdigits2 m = 53 ->
    0 < round_nearest_even m l
    /\ 53 <= Zdigits2 (round_nearest_even m l) <= 54.
Proof.
  intros m l Hm Hd.
  destruct m as [|p|p]; [discriminate|clear Hm|lia].
  assert (Hs : 0 < Zpos p + 1 /\ 53 <= Zdigits2 (Zpos p + 1) <= 54).
  { replace (Zpos p + 1) with (Zpos (Pos.succ p)) by lia.
    cbn [Zdigits2] in *. split; [lia|].
    destruct (digits2_pos_succ p) as [-> | ->]; lia. }
  assert (Hp : 0 < Zpos p /\ 53 <= Zdigits2 (Zpos p) <= 54) by lia.
  unfold round_nearest_even.
  destruct l as [|[]]; try assumption.
  now destruct (Z.even (Zpos p)).
Qed.

(** Rounding a mantissa of at least 53 bits below 2^1023 gives a finite
    number of the same sign. *)
Lemma binary_round_aux_finite :
  forall s mz ez l,
    53 <= Zpos (digits2_pos mz) ->
    -1021 <= Zpos (digits2_pos mz) + ez <= 1023 ->
    exists m e,
      binary_round_aux prec emax s (Zpos mz) ez l = S754_finite s m e.
Proof.
  intros s mz ez l Hd Hr. unfold binary_round_aux.
  destruct (shr_fexp_digits (Zpos mz) ez l) as (mrs & -> & H1 & H2);
    try (cbn [Zdigits2]; lia).
  destruct (round_nearest_even_digits (shr_m mrs) (loc_of_shr_record mrs) H1 H2)
    as [Hpos Hdig].
  destruct (shr_fexp_digits (round_nearest_even (shr_m mrs) (loc_of_shr_record mrs))
                            (Zdigits2 (Zpos mz) + ez - 53) loc_Exact)
    as (mrs' & -> & H3 & H4); try (cbn [Zdigits2]; lia).
  destruct (shr_m mrs') as [|m|m]; [discriminate| |lia].
  cbn [Zdigits2] in *.
  replace (_ <=? emax - prec) with true
    by (symmetry; apply Z.leb_le; unfold emax, prec; lia).
  now exists m, (Zdigits2 (round_nearest_even (shr_m mrs) (loc_of_shr_record mrs))
               + (Zpos (digits2_pos mz) + ez - 53) - 53).
Qed.

Lemma binary_round_finite :
  forall s p,
    Zpos p < 2 ^ 1023 ->
    exists m e, binary_round prec emax s p 0 = S754_finite s m e.
Proof.
  intros s p Hp. unfold binary_round.
  pose proof (digits2_below p 1023 ltac:(lia) Hp) as Hd.
  assert (Hf : fexp prec emax (Zpos (digits2_pos p) + 0)
               = Zpos (digits2_pos p) - 53)
    by (unfold fexp, emin, prec, emax; lia).
  rewrite Hf. unfold shl_align.
  destruct (Zpos (digits2_pos p) - 53 - 0) as [|k|k] eqn:Hk.
  - apply binary_round_aux_finite; lia.
  - apply binary_round_aux_finite; lia.
  - apply binary_round_aux_finite; rewrite digits2_shift; lia.
Qed.

(** An int below 2^1023 in magnitude has a float, of its sign. *)
Lemma float_of_int_finite :
  forall n,
    n <> 0 -> Z.abs n < 2 ^ 1023 ->
    exists m e, float_of_int n = Returns (S754_finite (n <? 0) m e).
Proof.
  intros n Hn Hb. unfold float_of_int.
  destruct n as [|p|p]; [congruence| |]; cbn [binary_normalize Z.ltb Z.compare].
  - destruct (binary_round_finite false p) as (m & e & ->); [lia|].
    now exists m, e.
  - destruct (binary_round_finite true p) as (m & e & ->); [lia|].
    now exists m, e.
Qed.

(** Rounding a mantissa of 2^1024 or more overflows. *)
Lemma binary_round_aux_overflow :
  forall s mz ez l,
    53 <= Zpos (digits2_pos mz) ->
    1025 <= Zpos (digits2_pos mz) + ez ->
    binary_round_aux prec emax s (Zpos mz) ez l = S754_infinity s.
Proof.
  intros s mz ez l Hd Hr. unfold binary_round_aux.
  destruct (shr_fexp_digits (Zpos mz) ez l) as (mrs & -> & H1 & H2);
    try (cbn [Zdigits2]; lia).
  destruct (round_nearest_even_digits (shr_m mrs) (loc_of_shr_record mrs) H1 H2)
    as [Hpos Hdig].
  destruct (shr_fexp_digits (round_nearest_even (shr_m mrs) (loc_of_shr_record mrs))
                            (Zdigits2 (Zpos mz) + ez - 53) loc_Exact)
    as (mrs' & -> & H3 & H4); try (cbn [Zdigits2]; lia).
  destruct (shr_m mrs') as [|m|m]; [discriminate| |lia].
  cbn [Zdigits2] in *.
  replace (_ <=? emax - prec) with false
    by (symmetry; apply Z.leb_gt; unfold emax, prec; lia).
  reflexivity.
Qed.

(** An int of magnitude 2^1024 or more has no float. *)
Lemma float_of_int_overflow :
  forall n, 2 ^ 1024 <= Z.abs n -> float_of_int n = Raises OverflowError.
Proof.
  intros n Hb. unfold float_of_int.
  assert (Hround : forall s p,
             2 ^ 1024 <= Zpos p ->
             binary_round prec emax s p 0 = S754_infinity s).
  { intros s p Hp. unfold binary_round.
    pose proof (digits2_above p 1024 ltac:(lia) Hp) as Hd.
    assert (Hf : fexp prec emax (Zpos (digits2_pos p) + 0)
                 = Zpos (digits2_pos p) - 53)
      by (unfold fexp, emin, prec, emax; lia).
    rewrite Hf. unfold shl_align.
    destruct (Zpos (digits2_pos p) - 53 - 0) as [|k|k] eqn:Hk; try lia;
      apply binary_round_aux_overflow; lia. }
  destruct n as [|p|p]; cbn [binary_normalize].
  - simpl in Hb. lia.
  - now rewrite (Hround false p) by lia.
  - now rewrite (Hround true p) by lia.
Qed.

Lemma float_of_int_returns :
  forall n, Z.abs n < 2 ^ 1023 -> exists x, float_of_int n = Returns x.
Proof.
  intros n Hb. destruct (Z.eq_dec n 0) as [->|Hn].
  - now exists (S754_zero false).
  - destruct (float_of_int_finite n Hn Hb) as (m & e & ->). eauto.
Qed.

(** A finite float divided by itself is one. *)
Lemma SFdiv_self :
  forall s m e,
    SFdiv prec emax (S754_finite s m e) (S754_finite s m e)
    = S754_finite false 4503599627370496 (-52).
Proof.
  intros s m e. unfold SFdiv, SFdiv_core_binary.
  replace (Zdigits2 (Zpos m) + e - (Zdigits2 (Zpos m) + e)) with 0 by lia.
  replace (e - e) with 0 by lia.
  change (Z.min (fexp prec emax 0) 0) with (-53).
  change (0 - -53) with 53.
  cbv beta iota zeta.
  rewrite Z.shiftl_mul_pow2 by lia.
  destruct (Z.div_eucl (Zpos m * 2 ^ 53) (Zpos m)) as [q r] eqn:Hqr.
  assert (Hq : q = 2 ^ 53).
  { transitivity (Zpos m * 2 ^ 53 / Zpos m).
    - unfold Z.div. now rewrite Hqr.
    - rewrite Z.mul_comm. apply Z.div_mul. lia. }
  assert (Hr : r = 0).
  { transitivity ((Zpos m * 2 ^ 53) mod Zpos m).
    - unfold Z.modulo. now rewrite Hqr.
    - rewrite Z.mul_comm. apply Z.mod_mul. lia. }
  subst q r.
  replace (new_location (Zpos m) 0) with loc_Exact
    by (unfold new_location, new_location_even, new_location_odd;
        now destruct (Z.even (Zpos m))).
  now destruct s.
Qed.

Lemma format_percent_shape :
  forall x, exists body, format_percent x = body ++ py "%".
Proof.
  intro x. unfold format_percent.
  destruct (SFmul prec emax x hundred) as [s|s| |s m e].
  - exists (sign s ++ py "0.0"). now rewrite <- app_assoc.
  - exists (sign s ++ py "inf"). now rewrite <- app_assoc.
  - now exists (py "nan").
  - exists (sign s ++ str_of_int (tenths m e / 10) ++ py "."
                 ++ str_of_int (tenths m e mod 10)).
    repeat rewrite <- app_assoc. reflexivity.
Qed.

(** X16. The two ways the progress callback fails.  A product
    [count * block_size] of magnitude 2^1024 or more raises OverflowError,
    however small the two factors are (the product is what is converted).
    With a product below 2^1023 in magnitude: a total size of magnitude
    2^1024 or more raises OverflowError, a total size of 0 raises
    ZeroDivisionError, and every other total size below 2^1023 in magnitude
    makes the callback return, having written a carriage return,
    "- Download progress: " and a text that ends in a percent sign.
    Whenever it fails, nothing is written. *)
Theorem progress_failures :
  forall (count block_size total_size : Z) (out : pystr),
    (2 ^ 1024 <= Z.abs (count * block_size) ->
     _print_download_progress count block_size total_size out
     = (Raises OverflowError, out))
    /\ (Z.abs (count * block_size) < 2 ^ 1023 ->
        (2 ^ 1024 <= Z.abs total_size ->
         _print_download_progress count block_size total_size out
         = (Raises OverflowError, out))
        /\ (total_size = 0 ->
            _print_download_progress count block_size total_size out
            = (Raises ZeroDivisionError, out))
        /\ (total_size <> 0 -> Z.abs total_size < 2 ^ 1023 ->
            exists body,
              _print_download_progress count block_size total_size out
              = (Returns tt,
                 out ++ CR :: py "- Download progress: " ++ body ++ py "%"))).
Proof.
  intros count block_size total_size out.
  unfold _print_download_progress. split.
  - intros Hn. now rewrite (float_of_int_overflow _ Hn).
  - intros Hn. destruct (float_of_int_returns _ Hn) as [x ->].
    unfold truediv. split; [|split].
    + intros Ht. now rewrite (float_of_int_overflow _ Ht).
    + intros ->. reflexivity.
    + intros Hne Ht.
      destruct (float_of_int_finite _ Hne Ht) as (m & e & ->).
      destruct (format_percent_shape
                  (SFdiv prec emax x (S754_finite (total_size <? 0) m e)))
        as [body ->].
      now exists body.
Qed.

Lemma progress_failures_witness :
  _print_download_progress (2 ^ 600) (2 ^ 600) 1 (py "x")
  = (Raises OverflowError, py "x")
  /\ _print_download_progress 3 8192 0 (py "x")
     = (Raises ZeroDivisionError, py "x").
Proof.
  split.
  - apply (proj1 (progress_failures (2 ^ 600) (2 ^ 600) 1 (py "x"))).
    apply Z.leb_le. vm_compute. reflexivity.
  - apply (proj1 (proj2 (proj2 (progress_failures 3 8192 0 (py "x"))
                          ltac:(vm_compute; reflexivity)))).
    reflexivity.
Defined.

(** X17. When the bytes counted equal a total size between 1 and 2^1023,
    the callback writes "\r- Download progress: 100.0%". *)
Theorem progress_complete :
  forall (count block_size total_size : Z) (out : pystr),
    0 < total_size < 2 ^ 1023 ->
    count * block_size = total_size ->
    _print_download_progress count block_size total_size out
    = (Returns tt, out ++ CR :: py "- Download progress: 100.0%").
Proof.
  intros count block_size total_size out Ht Heq.
  unfold _print_download_progress, truediv. rewrite Heq.
  destruct (float_of_int_finite total_size) as (m & e & ->); [lia|lia|].
  now rewrite SFdiv_self.
Qed.

Lemma progress_complete_witness :
  _print_download_progress 42318 8192 346669056 []
  = (Returns tt, CR :: py "- Download progress: 100.0%").
Proof.
  apply (progress_complete 42318 8192 346669056 []).
  - split; vm_compute; reflexivity.
  - vm_compute; reflexivity.
Defined.

(** X18. Before the first block (no byte counted yet) the callback writes
    "0.0%" for a positive total size, and "-0.0%" for a negative one, such
    as the -1 that stands for an unknown size. *)
Theorem progress_at_start :
  forall (count block_size total_size : Z) (out : pystr),
    count * block_size = 0 ->
    total_size <> 0 ->
    Z.abs total_size < 2 ^ 1023 ->
    _print_download_progress count block_size total_size out
    = (Returns tt,
       out ++ CR :: py "- Download progress: "
           ++ (if total_size <? 0 then py "-0.0%" else py "0.0%")).
Proof.
  intros count block_size total_size out Hz Hne Ht.
  unfold _print_download_progress, truediv. rewrite Hz.
  change (float_of_int 0) with (Returns (S754_zero false)). cbv iota.
  destruct (float_of_int_finite _ Hne Ht) as (m & e & ->).
  now destruct (total_size <? 0).
Qed.

Lemma progress_at_start_witness :
  _print_download_progress 0 8192 (-1) []
  = (Returns tt, CR :: py "- Download progress: -0.0%").
Proof.
  apply (progress_at_start 0 8192 (-1) []).
  - reflexivity.
  - discriminate.
  - vm_compute; reflexivity.
Defined.

End ProgressFacts.

(* ================================================================== *)
(** ** The directories of the project *)

Section DefinitionsFacts.

Import Definitions.

Lemma cut_last_slash_snd_no_slash (t : pystr) :
  existsb (N.eqb SLASH) t = false -> snd (cut_last_slash t) = t.
Proof.
  destruct t as [|c t]; [reflexivity|]. cbn [existsb cut_last_slash].
  rewrite orb_false_iff. intros [Hc Ht]. rewrite Ht.
  destruct (cut_last_slash t) as [h t']. now rewrite N.eqb_sym, Hc.
Qed.

Lemma cut_last_slash_snd_app (a t : pystr) :
  snd (cut_last_slash (a ++ SLASH :: t)) = snd (cut_last_slash t).
Proof.
  induction a as [|c a IH].
  - cbn [app cut_last_slash].
    pose proof (cut_last_slash_snd_no_slash t) as H0.
    destruct (cut_last_slash t) as [h t'] eqn:Hcut. cbn [snd] in *.
    destruct (existsb (N.eqb SLASH) t) eqn:Ht; [reflexivity|].
    rewrite N.eqb_refl. cbn [snd]. now rewrite (H0 eq_refl).
  - cbn [app cut_last_slash].
    destruct (cut_last_slash (a ++ SLASH :: t)) as [h t'] eqn:Hcut.
    cbn [snd] in IH.
    assert (Hex : existsb (N.eqb SLASH) (a ++ SLASH :: t) = true).
    { rewrite existsb_app. cbn [existsb]. rewrite N.eqb_refl.
      now rewrite orb_true_r. }
    now rewrite Hex.
Qed.

(** The last component of a name joined to a path is the name. *)
Lemma basename_join (dir g : pystr) :
  dir <> [] -> endswith dir [SLASH] = false ->
  g <> [] -> existsb (N.eqb SLASH) g = false ->
  basename (join dir g) = g.
Proof.
  intros Hne He Hg Hs.
  rewrite (join_plain dir g Hne He (valid_name_start g Hg Hs)).
  unfold basename. rewrite cut_last_slash_snd_app.
  now apply cut_last_slash_snd_no_slash.
Qed.

Lemma DATA_DIR_plain (file : pystr) :
  DATA_DIR file <> [] /\ endswith (DATA_DIR file) [SLASH] = false.
Proof.
  split.
  - apply join_nonempty. discriminate.
  - apply join_name_no_slash_end; [discriminate|reflexivity].
Qed.

Lemma in_DATA_DIR (file name : pystr) :
  name <> [] -> existsb (N.eqb SLASH) name = false ->
  dirname (join (DATA_DIR file) name) = DATA_DIR file
  /\ basename (join (DATA_DIR file) name) = name.
Proof.
  intros Hne Hs. destruct (DATA_DIR_plain file) as [Hd He]. split.
  - now apply dirname_join.
  - now apply basename_join.
Qed.

(** X19. Wherever the module file lies, each of the five data directories is
    the directory of its name in DATA_DIR: its dirname is DATA_DIR and its
    basename the name; no two of them are the same path. *)
Theorem data_dirs_in_DATA_DIR :
  forall file : pystr,
    Forall (fun dn => dirname (fst dn) = DATA_DIR file
                      /\ basename (fst dn) = snd dn)
           (data_dirs file)
    /\ NoDup (map fst (data_dirs file)).
Proof.
  intro file.
  assert (HF : Forall (fun dn => dirname (fst dn) = DATA_DIR file
                                 /\ basename (fst dn) = snd dn)
                      (data_dirs file)).
  { unfold data_dirs.
    repeat (constructor;
            [apply in_DATA_DIR; [discriminate|reflexivity]|]).
    constructor. }
  split; [exact HF|].
  apply (NoDup_map_inv basename). rewrite map_map.
  replace (map (fun dn => basename (fst dn)) (data_dirs file))
    with (map snd (data_dirs file)).
  - cbv. repeat (constructor; [cbv; intuition discriminate|]). constructor.
  - apply map_ext_in. intros dn Hin. rewrite Forall_forall in HF.
    symmetry. apply (HF dn Hin).
Qed.

Lemma resolve_step_down (r : node) (cur : list pystr) (c : pystr) :
  is_dir_at r cur = true ->
  str_eqb c [] = false -> str_eqb c (py ".") = false ->
  str_eqb c (py "..") = false ->
  resolve_step r (Some cur) c = Some (cur ++ [c]).
Proof. intros Hd H1 H2 H3. unfold resolve_step. now rewrite Hd, H1, H2, H3. Qed.

Lemma canon_nonempty (fs : filesystem) (p : pystr) (cp : list pystr) :
  canon fs p = Some cp -> p <> [].
Proof. intros H ->. discriminate. Qed.

(** X20. When SRC_DIR resolves to an existing directory [pkg] of a directory
    [p], ROOT_DIR resolves to [p] and DATA_DIR to the entry "data" of [p]:
    the data lie beside the package, not inside it.  When that entry is a
    directory, each data directory resolves to the entry of its name in
    it. *)
Theorem data_beside_package :
  forall (fs : filesystem) (file : pystr) (p : list pystr) (pkg : pystr),
    canon fs (SRC_DIR file) = Some (p ++ [pkg]) ->
    is_dir_at (root fs) (p ++ [pkg]) = true ->
    canon fs (ROOT_DIR file) = Some p
    /\ canon fs (DATA_DIR file) = Some (p ++ [py "data"])
    /\ (is_dir_at (root fs) (p ++ [py "data"]) = true ->
        Forall (fun dn => canon fs (fst dn) = Some (p ++ [py "data"; snd dn]))
               (data_dirs file)).
Proof.
  intros fs file p pkg Hsrc Hpkg.
  assert (Hroot : canon fs (ROOT_DIR file) = Some p).
  { unfold ROOT_DIR.
    rewrite canon_join_comp;
      [|exact (canon_nonempty _ _ _ Hsrc)|discriminate|reflexivity].
    rewrite Hsrc, (resolve_step_up _ _ Hpkg). now rewrite removelast_last. }
  assert (Hdata : canon fs (DATA_DIR file) = Some (p ++ [py "data"])).
  { unfold DATA_DIR.
    rewrite canon_join_comp;
      [|exact (canon_nonempty _ _ _ Hroot)|discriminate|reflexivity].
    rewrite Hroot. apply resolve_step_down; try reflexivity.
    exact (is_dir_at_parent _ _ _ Hpkg). }
  split; [exact Hroot|]. split; [exact Hdata|].
  intro Hd.
  assert (Hin : forall name,
             name <> [] -> existsb (N.eqb SLASH) name = false ->
             str_eqb name (py ".") = false -> str_eqb name (py "..") = false ->
             canon fs (join (DATA_DIR file) name)
             = Some (p ++ [py "data"; name])).
  { intros name Hne Hs H1 H2.
    rewrite canon_join_comp;
      [|exact (canon_nonempty _ _ _ Hdata)|exact Hne|exact Hs].
    rewrite Hdata, (resolve_step_down _ _ _ Hd); [|now apply str_eqb_neq|exact H1|exact H2].
    now rewrite <- app_assoc. }
  unfold data_dirs.
  repeat (constructor; [apply Hin; [discriminate|reflexivity..]|]).
  constructor.
Qed.

Lemma data_beside_package_witness :
  canon Layout.repo (DATA_DIR Layout.definitions_py)
  = Some [py "repo"; py "src"; py "data"]
  /\ canon Layout.repo (LIBRISPEECH_DIR Layout.definitions_py)
     = Some [py "repo"; py "src"; py "data"; py "LibriSpeech"].
Proof.
  pose proof (data_beside_package Layout.repo Layout.definitions_py
                [py "repo"; py "src"] (py "SimUGANSpeech")
                ltac:(vm_compute; reflexivity)
                ltac:(vm_compute; reflexivity)) as (_ & Hdata & Hdirs).
  split; [exact Hdata|].
  specialize (Hdirs ltac:(vm_compute; reflexivity)).
  exact (Forall_inv Hdirs).
Defined.

End DefinitionsFacts.

(* ================================================================== *)
(** ** A run with [--clean] *)

(** What the cleaning removes, on the places of the files it started from. *)
Lemma clean_no_pickle (save_dir : pystr) (folder_names : list pystr)
      (verbose : bool) (w w' : world) :
  wf_names (root (files w)) = true ->
  clean save_dir folder_names verbose w = (Ok tt, w') ->
  shrinks (files w) (files w')
  /\ forall x d name,
       In x folder_names ->
       canon (files w) (join save_dir x) = Some d ->
       is_dir_at (root (files w)) d = true ->
       endswith name (py ".pkl") = true ->
       lookup (root (files w')) (d ++ [name]) = None.
Proof.
  intros Hwf Hrun. unfold clean in Hrun.
  apply bind_Ok_inv in Hrun. destruct Hrun as ([] & wa & Hpr & Hrun).
  apply bind_Ok_inv in Hrun. destruct Hrun as ([] & wb & Hloop & Hend).
  assert (Hwa : files wa = files w).
  { apply (keeps_files_when verbose _) in Hpr; [exact Hpr|].
    apply keeps_files_bind; [apply keeps_files_print|].
    intros _. apply keeps_files_print. }
  assert (Hwb : files w' = files wb)
    by exact (keeps_files_when verbose _ (keeps_files_print _) wb (Ok tt) w'
                               Hend).
  assert (Hs0 : shrinks (files w) (files wa))
    by (rewrite Hwa; apply shrinks_refl).
  destruct (clean_loop_no_pickle (files w) save_dir verbose folder_names Hwf
              wa wb Hs0 Hloop) as (Hs & Hnone).
  rewrite Hwa in Hs. rewrite Hwb. split; [exact Hs|exact Hnone].
Qed.

Section CleanRun.

Variable http_get : pystr -> option bytes.
Variable untar : bytes -> option (list member).
Variable pickle_dumps : CorpusIndex -> bytes.

(** Saving the pickles touches the entries [master.pkl] only. *)
Lemma initialize_loop_frame (folder_dir : pystr) (verbose : bool)
      (names : list pystr) :
  forall w w',
    for_ names (initialize_body pickle_dumps folder_dir verbose) w
    = (Ok tt, w') ->
    (forall p, canon (files w') p = canon (files w) p)
    /\ forall d name,
         name <> py "master.pkl" ->
         kind_at (root (files w')) (d ++ [name])
         = kind_at (root (files w)) (d ++ [name]).
Proof.
  induction names as [|y names IH]; intros w w' Hrun.
  - simpl in Hrun. injection Hrun as <-. now split.
  - simpl in Hrun. apply bind_Ok_inv in Hrun.
    destruct Hrun as ([] & w1 & Hone & Hrest).
    destruct (initialize_body_Ok pickle_dumps folder_dir y verbose w w1 Hone)
      as (idy & _ & _ & Hwrite).
    destruct (IH w1 w' Hrest) as [Hc Hk]. split.
    + intro p. rewrite Hc. exact (canon_after_write _ _ p _ _ Hwrite).
    + intros d name Hname. rewrite (Hk d name Hname).
      destruct (write_file_Ok _ _ _ _ Hwrite) as (d0 & n0 & es & Hcp & _).
      apply (write_file_frame _ _ _ _ _ Hwrite Hcp).
      destruct (canon_join_inv _ _ _ _ master_valid Hcp) as (cur & Heq & _).
      intros Habs. rewrite Heq in Habs.
      apply app_inj_tail in Habs. now destruct Habs as [_ ->].
Qed.

(** X21. A run with [--clean] leaves one pickle in each folder.  When the
    main block with [--clean] has returned, on files whose names are valid
    and with every selected folder a directory at the start, each selected
    folder lists [master.pkl], and lists no other name that ends in
    [.pkl]. *)
Theorem clean_run_keeps_master_only :
  forall (LIBRISPEECH_DIR : pystr) (folder_names : list pystr)
         (verbose : bool) (w w' : world),
    LIBRISPEECH_DIR <> [] ->
    wf_names (root (files w)) = true ->
    (forall fname, In fname folder_names -> valid_name fname = true) ->
    (forall fname,
        In fname folder_names ->
        exists es, stat (files w) (join LIBRISPEECH_DIR fname) = Some (Dir es)) ->
    main http_get untar pickle_dumps LIBRISPEECH_DIR folder_names true
         verbose w = (Ok tt, w') ->
    forall fname names,
      In fname folder_names ->
      listdir (files w') (join LIBRISPEECH_DIR fname) = Ok names ->
      In (py "master.pkl") names
      /\ forall f, In f names -> endswith f (py ".pkl") = true ->
                   f = py "master.pkl".
Proof.
  intros L folder_names verbose w w' HL Hwf Hv Hdirs Hrun fname names Hin Hls.
  unfold main in Hrun.
  apply bind_Ok_inv in Hrun. destruct Hrun as ([] & wa & Hpa & Hrun).
  apply bind_Ok_inv in Hrun. destruct Hrun as ([] & wb & Hclean & Hrun).
  apply bind_Ok_inv in Hrun. destruct Hrun as ([] & wc & Hpc & Hrun).
  apply bind_Ok_inv in Hrun. destruct Hrun as ([] & wd & Hdown & Hrun).
  apply bind_Ok_inv in Hrun. destruct Hrun as ([] & we & Hpe & Hinit).
  assert (Hwa : files wa = files w).
  { apply (keeps_files_when verbose _) in Hpa; [exact Hpa|].
    apply keeps_files_bind; [apply keeps_files_print|].
    intros _. apply keeps_files_for. intros x _. apply keeps_files_print. }
  assert (Hwc : files wc = files wb).
  { apply (keeps_files_when verbose _) in Hpc; [exact Hpc|].
    apply keeps_files_bind; [apply keeps_files_print|].
    intros _. apply keeps_files_print. }
  assert (Hwe : files we = files wd).
  { apply (keeps_files_when verbose _) in Hpe; [exact Hpe|].
    apply keeps_files_bind; [apply keeps_files_print|].
    intros _. apply keeps_files_print. }
  cbn [when] in Hclean.
  rewrite <- Hwa in Hwf.
  destruct (clean_no_pickle L folder_names verbose wa wb Hwf Hclean)
    as (Hs & Hnone).
  rewrite Hwa in Hs, Hnone.
  pose proof Hs as (_ & Hsd & _).
  (* every selected folder is still a directory *)
  assert (Hplace : forall x,
             In x folder_names ->
             exists cur,
               canon (files w) L = Some cur
               /\ canon (files w) (join L x) = Some (cur ++ [x])
               /\ is_dir_at (root (files w)) (cur ++ [x]) = true).
  { intros x Hx. destruct (Hdirs x Hx) as [es Hst]. unfold stat in Hst.
    destruct (canon (files w) (join L x)) as [cp|] eqn:Hc; [|discriminate].
    destruct (canon_join_inv _ _ _ _ (Hv x Hx) Hc) as (cur & -> & _ & HcL).
    exists cur. split; [exact (HcL HL)|]. split; [reflexivity|].
    unfold is_dir_at. now rewrite Hst. }
  assert (Hex : forall fs p d,
             canon fs p = Some d -> is_dir_at (root fs) d = true ->
             exists_ fs p = true).
  { intros fs p d Hc Hd. unfold exists_, stat. rewrite Hc.
    unfold is_dir_at in Hd. now destruct (lookup (root fs) d). }
  (* nothing is fetched *)
  assert (Hwd : files wd = files wc).
  { assert (Hidle : idle_on (files wc)
                            (_maybe_download_and_extract http_get untar L
                                                         folder_names verbose)).
    { destruct (Hplace fname Hin) as (cur & HcL & Hcx & Hdx).
      apply maybe_download_idle.
      - apply (Hex _ _ cur).
        + rewrite Hwc, (shrinks_canon _ _ _ Hs). exact HcL.
        + rewrite Hwc, Hsd. exact (is_dir_at_parent _ _ _ Hdx).
      - intros x Hx. destruct (Hplace x Hx) as (cur' & _ & Hcx' & Hdx').
        apply (Hex _ _ (cur' ++ [x])).
        + rewrite Hwc, (shrinks_canon _ _ _ Hs). exact Hcx'.
        + rewrite Hwc, Hsd. exact Hdx'. }
    destruct (Hidle wc eq_refl) as (w2 & Hrun2 & Hf2 & _).
    rewrite Hdown in Hrun2. injection Hrun2 as <-. exact Hf2. }
  unfold librispeech_initialize in Hinit.
  destruct (initialize_loop_frame L verbose folder_names we w' Hinit)
    as [Hcanon Hkind].
  pose proof (initialize_loop_current pickle_dumps L verbose folder_names Hv
                we w' Hinit fname Hin) as (idx & _ & Hread).
  destruct (Hplace fname Hin) as (cur & HcL & Hcx & Hdx).
  assert (Hcx' : canon (files w') (join L fname) = Some (cur ++ [fname])).
  { rewrite Hcanon, Hwe, Hwd, Hwc, (shrinks_canon _ _ _ Hs). exact Hcx. }
  unfold listdir, stat in Hls. rewrite Hcx' in Hls.
  destruct (lookup (root (files w')) (cur ++ [fname])) as [[data|es]|] eqn:Hl;
    try discriminate.
  injection Hls as <-. split.
  - unfold read_file, stat in Hread.
    destruct (canon (files w') (join (join L fname) (py "master.pkl")))
      as [cp|] eqn:Hcm; [|discriminate].
    destruct (canon_join_inv _ _ _ _ master_valid Hcm) as (c2 & -> & _ & Hc2).
    assert (Hne : join L fname <> []).
    { apply join_nonempty.
      exact (proj1 (valid_name_spec fname (Hv fname Hin))). }
    rewrite (Hc2 Hne) in Hcx'. injection Hcx' as ->.
    rewrite (lookup_snoc _ _ _ es Hl) in Hread.
    destruct (find_entry (py "master.pkl") es) as [n|] eqn:Hf; [|discriminate].
    apply find_entry_In in Hf. unfold entry_names.
    change (py "master.pkl") with (fst (py "master.pkl", n)).
    now apply in_map.
  - intros f Hf Hpkl.
    destruct (str_eqb f (py "master.pkl")) eqn:Heq;
      [now apply str_eqb_eq in Heq|exfalso].
    apply str_eqb_neq in Heq.
    destruct (In_find_entry f es Hf) as [n Hn].
    pose proof (Hkind (cur ++ [fname]) f Heq) as Hk.
    rewrite Hwe, Hwd, Hwc in Hk.
    pose proof (Hnone fname (cur ++ [fname]) f Hin Hcx Hdx Hpkl) as Hgone.
    unfold kind_at in Hk.
    rewrite Hgone, (lookup_snoc _ _ _ es Hl), Hn in Hk. discriminate.
Qed.

End CleanRun.

Lemma clean_run_keeps_master_only_witness :
  exists w' names,
    main sample_http_get sample_untar sample_pickle sample_dir
         [py "dev-clean"] true false pickled_world = (Ok tt, w')
    /\ listdir (files w') (join sample_dir (py "dev-clean")) = Ok names
    /\ In (py "master.pkl") names
    /\ forall f, In f names -> endswith f (py ".pkl") = true ->
                 f = py "master.pkl".
Proof.
  pose (w' := snd (main sample_http_get sample_untar sample_pickle sample_dir
                        [py "dev-clean"] true false pickled_world)).
  assert (Hrun : main sample_http_get sample_untar sample_pickle sample_dir
                      [py "dev-clean"] true false pickled_world = (Ok tt, w'))
    by (vm_compute; reflexivity).
  assert (Hls : listdir (files w') (join sample_dir (py "dev-clean"))
                = Ok [py "19"; py "master.pkl"])
    by (vm_compute; reflexivity).
  assert (Hv : forall fname, In fname [py "dev-clean"] ->
                             valid_name fname = true)
    by (intros fname [<-|[]]; reflexivity).
  assert (Hd : forall fname,
             In fname [py "dev-clean"] ->
             exists es, stat (files pickled_world) (join sample_dir fname)
                        = Some (Dir es))
    by (intros fname [<-|[]]; eexists; vm_compute; reflexivity).
  exists w', [py "19"; py "master.pkl"].
  split; [exact Hrun|]. split; [exact Hls|].
  exact (clean_run_keeps_master_only
           sample_http_get sample_untar sample_pickle sample_dir
           [py "dev-clean"] false pickled_world w'
           ltac:(discriminate) ltac:(vm_compute; reflexivity)
           Hv Hd Hrun (py "dev-clean") _ (or_introl eq_refl) Hls).
Defined.

(* ================================================================== *)
(** ** Fetching twice *)





Section FetchingTwice.

Variable http_get : pystr -> option bytes.
Variable untar : bytes -> option (list member).




End FetchingTwice.


